(** * Envision: annotation engine, undo/redo history, capture store and
      raster filters

    A shallow embedding of the JavaScript sources

    - [src/components/AnnotationTools/AnnotationWrapper.js]  store, history
    - [src/components/AnnotationTools/AnnotationCanvas.js]   tools, canvas
    - [src/components/AnnotationTools/AnnotationManager.js]  delete from list
    - [src/pages/ImageProcessing.js]                         image history
    - [src/utils/imageProcessor.js]                          pixel filters
    - [src/utils/captureManager.js]                          capture store

    JavaScript numbers are IEEE-754 binary64 values and are modelled by the
    primitive floats of the kernel; pixel buffers ([Uint8ClampedArray]) are
    lists of integers updated by index.

    React components are modelled by their state and their handlers.  A
    handler is a function of the values its closure captured (the props and
    the state cells of the render it belongs to) and of the pending state it
    writes with the [setX] functions.  A handler React calls (the [onClick] of
    a button, a callback prop called by a child that rendered with it) is the
    one of the latest render.  The five handlers of [AnnotationCanvas] are
    called by fabric: the effect that creates the fabric canvas registers
    them once, when the component mounts, and fabric keeps calling the
    closures of that first render.  (The effect runs again when [imageUrl]
    changes; the image URL is taken to stay the same while a canvas is
    mounted.)  A shape carries the options it was built with; the effect that
    re-applies the styles to the shapes of the current annotation is not
    modelled. *)

From Stdlib Require Import ZArith String Ascii Floats Lia DecimalString.
From stdpp Require Import base list.

Local Open Scope Z_scope.

(* ================================================================== *)
(** * JavaScript primitives used by the sources                        *)
(* ================================================================== *)

Module JS.

(** [arr.slice(0, end)]: a negative [end] counts from the end of the array,
    and the result never extends past the array. *)
Definition slice0 {A : Type} (arr : list A) (end_ : Z) : list A :=
  let len := Z.of_nat (length arr) in
  let k := if end_ <? 0 then Z.max (len + end_) 0 else Z.min end_ len in
  take (Z.to_nat k) arr.

(** [arr[i]] for a numeric index: [None] is [undefined]. *)
Definition index {A : Type} (arr : list A) (i : Z) : option A :=
  if i <? 0 then None else arr !! Z.to_nat i.

(** [v || d] on an optional number: [undefined] and [0] are falsy. *)
Definition or_num (v : option Z) (d : Z) : Z :=
  match v with
  | Some 0 => d
  | Some n => n
  | None => d
  end.

(** [v || d] on an optional string: [undefined] and the empty string are
    falsy. *)
Definition or_str (v : option string) (d : string) : string :=
  match v with
  | Some EmptyString => d
  | Some s => s
  | None => d
  end.

(** [for (let i = lo; i < hi; i++)]: the values the loop variable takes. *)
Definition range (lo hi : Z) : list Z :=
  map (fun k => lo + Z.of_nat k) (seq 0 (Z.to_nat (hi - lo))).

(** [for (let i = lo; i < hi; i += step)] with a positive step. *)
Definition range_step (lo hi step : Z) : list Z :=
  map (fun k => lo + step * Z.of_nat k)
      (seq 0 (Z.to_nat ((hi - lo + step - 1) / step))).

(** ** Numbers *)

(** An integer as a number (exact below 2^53). *)
Definition num (z : Z) : float :=
  if z <? 0 then PrimFloat.opp (PrimFloat.of_uint63 (Uint63.of_Z (- z)))
  else PrimFloat.of_uint63 (Uint63.of_Z z).

(** The value read from a possibly undefined slot, as a number:
    [undefined] converts to [NaN]. *)
Definition num_opt (v : option Z) : float :=
  match v with
  | Some z => num z
  | None => PrimFloat.nan
  end.

Definition is_neg_zero (a : float) : bool :=
  match PrimFloat.classify a with
  | NZero => true
  | _ => false
  end.

(** [Math.min(a, b)] and [Math.max(a, b)]: [NaN] is contagious and
    [-0 < +0]. *)
Definition Math_min (a b : float) : float :=
  if PrimFloat.is_nan a || PrimFloat.is_nan b then PrimFloat.nan
  else if PrimFloat.ltb a b then a
  else if PrimFloat.ltb b a then b
  else if is_neg_zero a then a else b.

Definition Math_max (a b : float) : float :=
  if PrimFloat.is_nan a || PrimFloat.is_nan b then PrimFloat.nan
  else if PrimFloat.ltb b a then a
  else if PrimFloat.ltb a b then b
  else if is_neg_zero a then b else a.

(** [Math.sqrt] is the correctly rounded square root, and [Math.pow(d, 2)]
    is taken to be the correctly rounded product [d * d]. *)
Definition Math_sqrt (a : float) : float := PrimFloat.sqrt a.
Definition Math_pow2 (d : float) : float := PrimFloat.mul d d.

(** A finite number is [m * 2^e] with a sign; numerator and denominator of
    its absolute value. *)
Definition magnitude (m : positive) (e : Z) : Z * Z :=
  if e <? 0 then (Z.pos m, 2 ^ (- e)) else (Z.pos m * 2 ^ e, 1).

(** [Math.round(x)]: the nearest integer, a tie going up.  Computed on the
    exact value of [x].  (A zero result is [+0]; the sign of zero is not
    observable where the sources use the result.) *)
Definition Math_round (a : float) : float :=
  match Prim2SF a with
  | S754_finite s m e =>
      if 0 <=? e then a
      else
        let '(n, d) := magnitude m e in
        let n := if s then - n else n in
        num ((2 * n + d) / (2 * d))
  | _ => a
  end.

(** The conversion applied when a number is stored in a
    [Uint8ClampedArray]: clamp to 0..255 and round to the nearest integer,
    a tie going to the even one; [NaN] is stored as 0. *)
Definition ToUint8Clamp (a : float) : Z :=
  match Prim2SF a with
  | S754_nan => 0
  | S754_zero _ => 0
  | S754_infinity s => if s then 0 else 255
  | S754_finite true _ _ => 0
  | S754_finite false m e =>
      let '(n, d) := magnitude m e in
      let f := n / d in
      let r := 2 * (n mod d) in
      let rounded :=
        if r <? d then f
        else if d <? r then f + 1
        else if Z.even f then f else f + 1 in
      Z.min rounded 255
  end.

(** Storing [undefined] in a [Uint8ClampedArray] stores 0. *)
Definition ToUint8Clamp_opt (v : option float) : Z :=
  match v with
  | Some a => ToUint8Clamp a
  | None => 0
  end.

(** Decimal digits of a natural number. *)
Definition digits (n : Z) : string :=
  NilZero.string_of_uint (N.to_uint (Z.to_N n)).

Fixpoint zeros (k : nat) : string :=
  match k with
  | O => EmptyString
  | S k => String "0"%char (zeros k)
  end.

Inductive completion (A : Type) : Type :=
| Normal (v : A)
| Throw (error : string).
Arguments Normal {A} v.
Arguments Throw {A} error.

(** [x.toFixed(fractionDigits)] (ECMA-262, Number.prototype.toFixed).
    [big] is the string [ToString(x)] used for an infinite [x] and for
    [|x| >= 10^21], which this model does not compute. *)
Definition toFixed (big : float -> string) (a : float) (fractionDigits : Z)
  : completion string :=
  if (fractionDigits <? 0) || (100 <? fractionDigits) then
    Throw "RangeError"
  else
    let f := Z.to_nat fractionDigits in
    let fixed (s : bool) (n d : Z) : string :=
      (* n / d is |x| *)
      let k := (2 * n * 10 ^ fractionDigits + d) / (2 * d) in
      let m := digits k in
      let m := if (f =? 0)%nat then m
               else
                 let m := if (String.length m <=? f)%nat
                          then (zeros (f + 1 - String.length m) ++ m)%string
                          else m in
                 let k := (String.length m - f)%nat in
                 (String.substring 0 k m ++ "." ++ String.substring k f m)%string in
      if s then ("-" ++ m)%string else m in
    match Prim2SF a with
    | S754_nan => Normal "NaN"%string
    | S754_infinity _ => Normal (big a)
    | S754_zero _ => Normal (fixed false 0 1)
    | S754_finite s m e =>
        let '(n, d) := magnitude m e in
        if 10 ^ 21 * d <=? n then Normal (big a)
        else Normal (fixed s n d)
    end.

End JS.

(* ================================================================== *)
(** * Annotation records                                               *)
(* ================================================================== *)

Record point := mkPoint { point_x : float; point_y : float }.

(** The style object handed to the canvas.  The component's default prop is
    [{}], so every field may be missing. *)
Record Styles := mkStyles {
  textSize : option Z;
  textColor : option string;
  lineColor : option string;
  lineWidth : option Z;
  arrowSize : option Z;
  dimensionPrecision : option Z
}.

(** The drawable objects the tools build ([new fabric.Line(...)] and so on)
    with the options the sources pass. *)
Inductive fabricShape : Type :=
| Line (x1 y1 x2 y2 : float) (stroke : string) (strokeWidth : Z)
       (strokeDashArray : list Z)
| Text (text : string) (left top : float) (fontSize : Z) (fill : string)
| Circle (left top : float) (radius : Z) (stroke : string) (strokeWidth : Z)
| Triangle (left top : float) (width height : Z) (fill : string)
| Path (points : list point) (stroke : string) (strokeWidth : Z).

(** A JavaScript object has an identity: [ref] is the address of the
    object, compared by [===] and by [Array.prototype.includes]. *)
Record fabricObject := mkObject { ref : nat; shape : fabricShape }.

Inductive annotationData : Type :=
| DimensionData (start end_ : point) (distance : float)
| CircleData (center : point) (radius : Z)
| LeaderData (p : point)
| CenterlineData (start end_ : point)
| RevisionCloudData (points : list point)
| HatchData (p : point) (size : Z).

(** [{ id, type, tool, objects, data, styles }].  An entry of [objects] is
    [None] when the source stored [undefined] there. *)
Record annotation := mkAnnotation {
  ann_id : Z;
  ann_type : string;
  ann_tool : option string;
  ann_objects : list (option fabricObject);
  ann_data : annotationData;
  ann_styles : Styles
}.

(* ================================================================== *)
(** * AnnotationWrapper.js: the annotation store and its history       *)
(* ================================================================== *)

Module AnnotationWrapper.

(** The three pieces of React state the handlers read and write. *)
Record state := mkState {
  annotations : list annotation;
  annotationHistory : list (list annotation);
  historyIndex : Z
}.

(** State after mounting with [initialAnnotations]: the [useState]
    initial values, then the "Initialize history" effect. *)
Definition mount (initialAnnotations : list annotation) : state :=
  if (0 <? Z.of_nat (length initialAnnotations)) then
    {| annotations := initialAnnotations;
       annotationHistory := [initialAnnotations];
       historyIndex := 0 |}
  else
    {| annotations := initialAnnotations;
       annotationHistory := [];
       historyIndex := -1 |}.

(** The "Add to history" block shared by add, update and delete. *)
Definition pushHistory (s : state) (newAnnotations : list annotation) : state :=
  let newHistory := JS.slice0 (annotationHistory s) (historyIndex s + 1) in
  let newHistory := newHistory ++ [newAnnotations] in
  {| annotations := newAnnotations;
     annotationHistory := newHistory;
     historyIndex := Z.of_nat (length newHistory) - 1 |}.

Definition handleAnnotationAdd (s : state) (a : annotation) : state :=
  let newAnnotations := annotations s ++ [a] in
  pushHistory s newAnnotations.

Definition handleAnnotationUpdate (s : state) (annotationId : Z)
           (updatedAnnotation : annotation) : state :=
  let newAnnotations :=
    map (fun ann => if ann_id ann =? annotationId
                    then updatedAnnotation else ann)
        (annotations s) in
  pushHistory s newAnnotations.

Definition handleAnnotationDelete (s : state) (annotationId : Z) : state :=
  let newAnnotations :=
    filter (fun ann => ann_id ann <> annotationId) (annotations s) in
  pushHistory s newAnnotations.

(** [annotationHistory[newIndex]] is read as a list of annotations; the
    result is [None] when that read yields [undefined], which no reachable
    state allows (see [reachable_handleUndo_total]). *)
Definition handleUndo (s : state) : option state :=
  if 0 <? historyIndex s then
    let newIndex := historyIndex s - 1 in
    snapshot ← JS.index (annotationHistory s) newIndex;
    Some {| annotations := snapshot;
            annotationHistory := annotationHistory s;
            historyIndex := newIndex |}
  else Some s.

Definition handleRedo (s : state) : option state :=
  if historyIndex s <? Z.of_nat (length (annotationHistory s)) - 1 then
    let newIndex := historyIndex s + 1 in
    snapshot ← JS.index (annotationHistory s) newIndex;
    Some {| annotations := snapshot;
            annotationHistory := annotationHistory s;
            historyIndex := newIndex |}
  else Some s.

(** The calls the rest of the application makes on the wrapper. *)
Inductive action : Type :=
| Add (a : annotation)
| Update (annotationId : Z) (updatedAnnotation : annotation)
| Delete (annotationId : Z)
| Undo
| Redo.

Definition step (s : state) (act : action) : option state :=
  match act with
  | Add a => Some (handleAnnotationAdd s a)
  | Update i a => Some (handleAnnotationUpdate s i a)
  | Delete i => Some (handleAnnotationDelete s i)
  | Undo => handleUndo s
  | Redo => handleRedo s
  end.

Fixpoint run (s : state) (acts : list action) : option state :=
  match acts with
  | [] => Some s
  | act :: acts => s' ← step s act; run s' acts
  end.

(** The states of a wrapper mounted with some initial annotations. *)
Inductive reachable : state -> Prop :=
| reach_mount initialAnnotations : reachable (mount initialAnnotations)
| reach_step s act s' : reachable s -> step s act = Some s' -> reachable s'.

End AnnotationWrapper.

(* ================================================================== *)
(** * AnnotationCanvas.js: the tools and the fabric canvas             *)
(* ================================================================== *)

Module AnnotationCanvas.
Import JS.

Local Open Scope string_scope.

Record props := mkProps {
  activeTool : option string;
  styles : Styles;
  isReadOnly : bool
}.

(** The [useState] cells of the component and the fabric canvas held in
    [fabricCanvasRef]: the objects added to it, in order, and the next
    fresh object identity. *)
Record canvasState := mkCanvas {
  isDrawing : bool;
  drawingPoints : list point;
  dimensionStart : option point;
  dimensionEnd : option point;
  currentAnnotation : option annotation;
  canvasObjects : list fabricObject;
  nextRef : nat
}.

Definition initial : canvasState :=
  {| isDrawing := false; drawingPoints := []; dimensionStart := None;
     dimensionEnd := None; currentAnnotation := None;
     canvasObjects := []; nextRef := 0 |}.

(** Calls of the callback props [onAnnotationAdd], [onAnnotationUpdate]
    and [onAnnotationDelete]. *)
Inductive emission : Type :=
| EmitAdd (a : annotation)
| EmitUpdate (annotationId : Z) (a : annotation)
| EmitDelete (annotationId : Z).

(** A handler body: it updates the pending state and the fabric canvas,
    calls callback props, and completes normally or throws. *)
Definition M (A : Type) : Type :=
  canvasState -> completion A * canvasState * list emission.

Definition ret {A} (v : A) : M A := fun s => (Normal v, s, []).

Definition bind {A B} (m : M A) (k : A -> M B) : M B :=
  fun s =>
    match m s with
    | (Normal v, s1, out1) =>
        let '(r, s2, out2) := k v s1 in (r, s2, (out1 ++ out2)%list)
    | (Throw e, s1, out1) => (Throw e, s1, out1)
    end.

Notation "x <- m ;; k" := (bind m (fun x => k))
  (at level 100, m at next level, right associativity).
Notation "m ;; k" := (bind m (fun _ => k))
  (at level 100, right associativity).

Definition lift {A} (c : completion A) : M A := fun s => (c, s, []).
Definition emit (e : emission) : M unit := fun s => (Normal tt, s, [e]).
Definition modify (f : canvasState -> canvasState) : M unit :=
  fun s => (Normal tt, f s, []).

Definition setIsDrawing (b : bool) : M unit :=
  modify (fun s => mkCanvas b (drawingPoints s) (dimensionStart s)
                     (dimensionEnd s) (currentAnnotation s)
                     (canvasObjects s) (nextRef s)).
(** [setDrawingPoints] is called with a value or with an updater function;
    both are updaters here. *)
Definition setDrawingPoints (f : list point -> list point) : M unit :=
  modify (fun s => mkCanvas (isDrawing s) (f (drawingPoints s))
                     (dimensionStart s) (dimensionEnd s)
                     (currentAnnotation s) (canvasObjects s) (nextRef s)).
Definition setDimensionStart (p : option point) : M unit :=
  modify (fun s => mkCanvas (isDrawing s) (drawingPoints s) p
                     (dimensionEnd s) (currentAnnotation s)
                     (canvasObjects s) (nextRef s)).
Definition setDimensionEnd (p : option point) : M unit :=
  modify (fun s => mkCanvas (isDrawing s) (drawingPoints s)
                     (dimensionStart s) p (currentAnnotation s)
                     (canvasObjects s) (nextRef s)).
Definition setCurrentAnnotation (a : annotation) : M unit :=
  modify (fun s => mkCanvas (isDrawing s) (drawingPoints s)
                     (dimensionStart s) (dimensionEnd s) (Some a)
                     (canvasObjects s) (nextRef s)).

(** [new fabric.X(...)]: a new object with a fresh identity. *)
Definition new (sh : fabricShape) : M fabricObject :=
  fun s => (Normal (mkObject (nextRef s) sh),
            mkCanvas (isDrawing s) (drawingPoints s) (dimensionStart s)
              (dimensionEnd s) (currentAnnotation s) (canvasObjects s)
              (S (nextRef s)),
            []).

(** [fabricCanvasRef.current.add(obj)]. *)
Definition canvas_add (obj : fabricObject) : M unit :=
  modify (fun s => mkCanvas (isDrawing s) (drawingPoints s)
                     (dimensionStart s) (dimensionEnd s)
                     (currentAnnotation s) (canvasObjects s ++ [obj])%list
                     (nextRef s)).

(** [fabricCanvasRef.current.getObjects()]: a copy of the object list. *)
Definition canvas_getObjects : M (list fabricObject) :=
  fun s => (Normal (canvasObjects s), s, []).

Definition same_object (a b : fabricObject) : bool := (ref a =? ref b)%nat.

(** [objects.includes(obj)] on a list that may hold [undefined]. *)
Definition includes (objs : list (option fabricObject)) (obj : fabricObject)
  : bool :=
  existsb (fun o => match o with
                    | Some o => same_object o obj
                    | None => false
                    end) objs.

(** Remove the first occurrence of the object (fabric splices it out of
    its list). *)
Fixpoint splice_out (obj : fabricObject) (objs : list fabricObject)
  : list fabricObject :=
  match objs with
  | [] => []
  | o :: objs => if same_object o obj then objs
                 else o :: splice_out obj objs
  end.

Definition on_canvas (obj : fabricObject) (objs : list fabricObject) : bool :=
  existsb (fun o => same_object o obj) objs.

Definition truthy (tool : option string) : bool :=
  match tool with
  | Some EmptyString => false
  | Some _ => true
  | None => false
  end.

Definition is_tool (tool : option string) (name : string) : bool :=
  match tool with
  | Some t => String.eqb t name
  | None => false
  end.

Section Handlers.

(** [ToString] of a number too large for [toFixed]'s digit string. *)
Variable Number_toString : float -> string.

Variable pr : props.

(** The render whose closures the handlers are: they read the state
    cells from it. *)
Variable render : canvasState.

(** [handleObjectRemoved]: called by fabric with the removed object. *)
Definition handleObjectRemoved (removedObject : fabricObject) : M unit :=
  match currentAnnotation render with
  | Some cur =>
      if includes (ann_objects cur) removedObject
      then emit (EmitDelete (ann_id cur))
      else ret tt
  | None => ret tt
  end.

(** [handleObjectModified]: called by fabric with the modified object. *)
Definition handleObjectModified (modifiedObject : fabricObject) : M unit :=
  match currentAnnotation render with
  | Some cur =>
      if includes (ann_objects cur) modifiedObject
      then emit (EmitUpdate (ann_id cur)
                   (mkAnnotation (ann_id cur) (ann_type cur) (ann_tool cur)
                      (map (fun obj =>
                              match obj with
                              | Some o => if same_object o modifiedObject
                                          then Some modifiedObject
                                          else Some o
                              | None => None
                              end) (ann_objects cur))
                      (ann_data cur) (ann_styles cur)))
      else ret tt
  | None => ret tt
  end.

(** [fabricCanvasRef.current.remove(obj)]: fabric takes the object off
    its list and fires [object:removed], which runs
    [handleObjectRemoved]; an object that is not on the canvas is
    ignored. *)
Definition canvas_remove (obj : fabricObject) : M unit :=
  objs <- canvas_getObjects;;
  if on_canvas obj objs then
    modify (fun s => mkCanvas (isDrawing s) (drawingPoints s)
                       (dimensionStart s) (dimensionEnd s)
                       (currentAnnotation s)
                       (splice_out obj (canvasObjects s)) (nextRef s));;
    handleObjectRemoved obj
  else ret tt.

Definition st : Styles := styles pr.

(** [createDimension(endPoint)]; [now] is the value of [Date.now()]. *)
Definition createDimension (now : Z) (endPoint : point) : M unit :=
  match dimensionStart render with
  | None => ret tt
  | Some start =>
      let end_ := endPoint in
      let distance :=
        Math_sqrt (Math_pow2 (point_x end_ - point_x start)
                   + Math_pow2 (point_y end_ - point_y start))%float in
      dimensionLine <- new (Line (point_x start) (point_y start)
                              (point_x end_) (point_y end_)
                              (or_str (lineColor st) "#FF0000")
                              (or_num (lineWidth st) 2) []);;
      label <- lift (toFixed Number_toString distance
                       (or_num (dimensionPrecision st) 2));;
      text <- new (Text (label ++ "px")
                     ((point_x start + point_x end_) / 2)%float
                     ((point_y start + point_y end_) / 2 - 10)%float
                     (or_num (textSize st) 12)
                     (or_str (textColor st) "#000000"));;
      canvas_add dimensionLine;;
      canvas_add text;;
      let annotation :=
        {| ann_id := now;
           ann_type := "dimension";
           ann_tool := activeTool pr;
           ann_objects := [Some dimensionLine; Some text];
           ann_data := DimensionData start end_ distance;
           ann_styles := st |} in
      emit (EmitAdd annotation);;
      setCurrentAnnotation annotation;;
      setDimensionStart None;;
      setDimensionEnd None
  end.

(** [createCircleDimension(point)]. *)
Definition createCircleDimension (now : Z) (p : point) : M unit :=
  let radius := 50 in
  circle <- new (Circle (point_x p - num radius)%float
                   (point_y p - num radius)%float radius
                   (or_str (lineColor st) "#FF0000")
                   (or_num (lineWidth st) 2));;
  text <- new (Text (digits radius ++ "px")
                 (point_x p + num radius + 10)%float
                 (point_y p - 10)%float
                 (or_num (textSize st) 12)
                 (or_str (textColor st) "#000000"));;
  canvas_add circle;;
  canvas_add text;;
  let annotation :=
    {| ann_id := now;
       ann_type := "circle";
       ann_tool := activeTool pr;
       ann_objects := [Some circle; Some text];
       ann_data := CircleData p radius;
       ann_styles := st |} in
  emit (EmitAdd annotation);;
  setCurrentAnnotation annotation.

(** [createLeader(point)]. *)
Definition createLeader (now : Z) (p : point) : M unit :=
  leaderLine <- new (Line (point_x p - 50)%float (point_y p)
                       (point_x p) (point_y p)
                       (or_str (lineColor st) "#FF0000")
                       (or_num (lineWidth st) 2) []);;
  arrow <- new (Triangle (point_x p - 5)%float (point_y p - 5)%float
                  10 10 (or_str (lineColor st) "#FF0000"));;
  canvas_add leaderLine;;
  canvas_add arrow;;
  let annotation :=
    {| ann_id := now;
       ann_type := "leader";
       ann_tool := activeTool pr;
       ann_objects := [Some leaderLine; Some arrow];
       ann_data := LeaderData p;
       ann_styles := st |} in
  emit (EmitAdd annotation);;
  setCurrentAnnotation annotation.

(** [createCenterline(endPoint)]. *)
Definition createCenterline (now : Z) (endPoint : point) : M unit :=
  match dimensionStart render with
  | None => ret tt
  | Some start =>
      let end_ := endPoint in
      centerline <- new (Line (point_x start) (point_y start)
                           (point_x end_) (point_y end_)
                           (or_str (lineColor st) "#0000FF")
                           (or_num (lineWidth st) 2) [5; 5]);;
      canvas_add centerline;;
      let annotation :=
        {| ann_id := now;
           ann_type := "centerline";
           ann_tool := activeTool pr;
           ann_objects := [Some centerline];
           ann_data := CenterlineData start end_;
           ann_styles := st |} in
      emit (EmitAdd annotation);;
      setCurrentAnnotation annotation;;
      setDimensionStart None
  end.

(** [drawRevisionCloud()]: it reads [drawingPoints] and
    [currentAnnotation] of its render. *)
Definition drawRevisionCloud : M unit :=
  if (length (drawingPoints render) <? 2)%nat then ret tt
  else
    (match currentAnnotation render with
     | Some cur =>
         match ann_objects cur with
         | Some first :: _ => canvas_remove first
         | _ => ret tt
         end
     | None => ret tt
     end);;
    path <- new (Path (drawingPoints render)
                   (or_str (lineColor st) "#FF0000")
                   (or_num (lineWidth st) 2));;
    canvas_add path.

(** [finalizeRevisionCloud()]. *)
Definition finalizeRevisionCloud (now : Z) : M unit :=
  if (length (drawingPoints render) <? 3)%nat then ret tt
  else
    objs <- canvas_getObjects;;
    let path := last objs in
    let annotation :=
      {| ann_id := now;
         ann_type := "revision-cloud";
         ann_tool := activeTool pr;
         ann_objects := [path];
         ann_data := RevisionCloudData (drawingPoints render);
         ann_styles := st |} in
    emit (EmitAdd annotation);;
    setCurrentAnnotation annotation;;
    setDrawingPoints (fun _ => []).

(** One pass of a [for] loop of [createHatchPattern]: build the line,
    push it on [lines], add it to the canvas. *)
Definition hatch_line (coords : Z -> float * float * float * float)
           (lines : list fabricObject) (i : Z) : M (list fabricObject) :=
  let '(x1, y1, x2, y2) := coords i in
  line <- new (Line x1 y1 x2 y2 (or_str (lineColor st) "#000000") 1 []);;
  canvas_add line;;
  ret (lines ++ [line])%list.

Fixpoint for_each {A} (body : A -> Z -> M A) (acc : A) (idxs : list Z) : M A :=
  match idxs with
  | [] => ret acc
  | i :: idxs => acc <- body acc i;; for_each body acc idxs
  end.

(** [createHatchPattern(point)]. *)
Definition createHatchPattern (now : Z) (p : point) : M unit :=
  let size := 50 in
  lines <- for_each
             (hatch_line (fun i => (point_x p, point_y p + num i,
                                    point_x p + num size,
                                    point_y p + num i)%float))
             [] (range_step 0 size 5);;
  lines <- for_each
             (hatch_line (fun i => (point_x p + num i, point_y p,
                                    point_x p + num i,
                                    point_y p + num size)%float))
             lines (range_step 0 size 5);;
  let annotation :=
    {| ann_id := now;
       ann_type := "hatch";
       ann_tool := activeTool pr;
       ann_objects := map Some lines;
       ann_data := HatchData p size;
       ann_styles := st |} in
  emit (EmitAdd annotation);;
  setCurrentAnnotation annotation.

(** [handleCanvasMouseDown]; [point] is the pointer position. *)
Definition handleCanvasMouseDown (now : Z) (p : point) : M unit :=
  if isReadOnly pr || negb (truthy (activeTool pr)) then ret tt
  else if is_tool (activeTool pr) "linear"
          || is_tool (activeTool pr) "aligned"
          || is_tool (activeTool pr) "angular" then
    match dimensionStart render with
    | None => setDimensionStart (Some p)
    | Some _ => setDimensionEnd (Some p);; createDimension now p
    end
  else if is_tool (activeTool pr) "radius"
          || is_tool (activeTool pr) "diameter" then
    createCircleDimension now p
  else if is_tool (activeTool pr) "leader"
          || is_tool (activeTool pr) "multileader" then
    createLeader now p
  else if is_tool (activeTool pr) "centerline" then
    match dimensionStart render with
    | None => setDimensionStart (Some p)
    | Some _ => createCenterline now p
    end
  else if is_tool (activeTool pr) "revision-cloud" then
    setIsDrawing true;;
    setDrawingPoints (fun _ => [p])
  else if is_tool (activeTool pr) "hatch" then
    createHatchPattern now p
  else ret tt.

(** [handleCanvasMouseMove]. *)
Definition handleCanvasMouseMove (p : point) : M unit :=
  if negb (isDrawing render) || negb (truthy (activeTool pr)) then ret tt
  else if is_tool (activeTool pr) "revision-cloud" then
    setDrawingPoints (fun prev => prev ++ [p])%list;;
    drawRevisionCloud
  else ret tt.

(** [handleCanvasMouseUp]. *)
Definition handleCanvasMouseUp (now : Z) : M unit :=
  if is_tool (activeTool pr) "revision-cloud" then
    setIsDrawing false;;
    finalizeRevisionCloud now
  else ret tt.

End Handlers.

(** The pointer events fabric delivers to the component. *)
Inductive event : Type :=
| MouseDown (now : Z) (p : point)
| MouseMove (p : point)
| MouseUp (now : Z)
| ObjectModified (target : fabricObject)
| ObjectRemoved (target : fabricObject).

(** The handlers fabric calls.  The "Initialize Fabric.js canvas" effect
    hands the five handlers to [fabricCanvasRef.current.on] when it creates
    the canvas; its dependency list is [[imageUrl]], so it runs when the
    component mounts.  Fabric keeps the functions it was given: the closures
    of the render in which the canvas was created, with the props and the
    state cells of that render, whatever the component renders later. *)
Record listeners := mkListeners {
  creation_props : props;
  creation_render : canvasState
}.

(** A component that mounts with the props [pr]: the closures are those of
    the first render, whose state cells have their [useState] initial
    values. *)
Definition mounted (pr : props) : listeners := mkListeners pr initial.

(** An event runs the registered handler on the current state: the handler
    reads the props and the state cells of the render it was created in, and
    its [setX] calls and its calls of fabric write the current state. *)
Definition dispatch (Number_toString : float -> string) (l : listeners)
           (s : canvasState) (ev : event)
  : completion unit * canvasState * list emission :=
  match ev with
  | MouseDown now p =>
      handleCanvasMouseDown Number_toString (creation_props l)
                            (creation_render l) now p s
  | MouseMove p =>
      handleCanvasMouseMove (creation_props l) (creation_render l) p s
  | MouseUp now =>
      handleCanvasMouseUp (creation_props l) (creation_render l) now s
  | ObjectModified o => handleObjectModified (creation_render l) o s
  | ObjectRemoved o => handleObjectRemoved (creation_render l) o s
  end.

(** A sequence of events on one canvas: the final state, every callback
    call made on the way and every error thrown out of a handler.  A handler
    that throws leaves the writes it made. *)
Fixpoint dispatch_all (Number_toString : float -> string) (l : listeners)
         (s : canvasState) (evs : list event)
  : canvasState * list emission * list string :=
  match evs with
  | [] => (s, [], [])
  | ev :: evs =>
      let '(r, s1, out1) := dispatch Number_toString l s ev in
      let '(s2, out2, errs) := dispatch_all Number_toString l s1 evs in
      (s2, (out1 ++ out2)%list,
       match r with
       | Normal _ => errs
       | Throw e => e :: errs
       end)
  end.

(** The annotation records among the callback calls. *)
Definition produced (out : list emission) : list annotation :=
  omap (fun e => match e with EmitAdd a => Some a | _ => None end) out.

End AnnotationCanvas.

(* ================================================================== *)
(** * The wrapper, its canvas and its manager together                 *)
(* ================================================================== *)

Module AnnotationSystem.
Import JS.
Module W := AnnotationWrapper.
Module C := AnnotationCanvas.

Local Open Scope string_scope.

(** [currentStyles] as [AnnotationWrapper] initialises it. *)
Definition defaultStyles : Styles :=
  {| textSize := Some 12; textColor := Some "#000000";
     lineColor := Some "#FF0000"; lineWidth := Some 2;
     arrowSize := Some 8; dimensionPrecision := Some 2 |}.

(** An [AnnotationCanvas] the wrapper has mounted: the props of its first
    render, the wrapper state that the callback props of that render close
    over ([handleAnnotationAdd] and the others are memoised on the cells
    they read), and the state of the component with its fabric canvas. *)
Record instance := mkInstance {
  first_props : C.props;
  first_wrapper : W.state;
  cells : C.canvasState
}.

(** The state of [AnnotationWrapper] and of the canvas it renders.  The
    canvas is rendered inside [{!isMinimized && ...}]: there is none while
    the wrapper is minimised.  [nextObject] is the identity the next new
    JavaScript object gets while no canvas is mounted. *)
Record system := mkSystem {
  wrapper : W.state;
  activeTool : option string;
  currentStyles : Styles;
  showManager : bool;
  showToolbar : bool;
  isMinimized : bool;
  canvas : option instance;
  nextObject : nat
}.

(** The props [AnnotationWrapper] passes to [AnnotationCanvas]. *)
Definition canvasProps (sys : system) : C.props :=
  {| C.activeTool := activeTool sys; C.styles := currentStyles sys;
     C.isReadOnly := false |}.

(** The "Load existing annotations" effect of the canvas: every object of
    every annotation is cloned and the clone is added to the canvas.  The
    objects the tools build all carry a [type].  Reading [obj.type] of an
    [undefined] entry throws, which ends the effect there. *)
Fixpoint cloneAll (objs : list (option fabricObject)) (s : C.canvasState)
  : C.canvasState :=
  match objs with
  | [] => s
  | None :: _ => s
  | Some obj :: objs =>
      cloneAll objs
        (C.mkCanvas (C.isDrawing s) (C.drawingPoints s) (C.dimensionStart s)
           (C.dimensionEnd s) (C.currentAnnotation s)
           (C.canvasObjects s ++ [mkObject (C.nextRef s) (shape obj)])%list
           (S (C.nextRef s)))
  end.

Definition loadExisting (anns : list annotation) (s : C.canvasState)
  : C.canvasState :=
  if (0 <? length anns)%nat
  then cloneAll (concat (map ann_objects anns)) s
  else s.

(** An [AnnotationCanvas] mounts: its state cells are initial, its fabric
    canvas is new and empty, its listeners are the closures of this first
    render, and the "Load existing annotations" effect runs on the
    annotations of the store. *)
Definition mountCanvas (pr : C.props) (w : W.state) (next : nat) : instance :=
  {| first_props := pr;
     first_wrapper := w;
     cells := loadExisting (W.annotations w)
                (C.mkCanvas false [] None None None [] next) |}.

(** The wrapper mounts without initial annotations, expanded, with the
    toolbar shown and the manager hidden. *)
Definition initial : system :=
  {| wrapper := W.mount []; activeTool := None;
     currentStyles := defaultStyles;
     showManager := false; showToolbar := true; isMinimized := false;
     canvas := Some (mountCanvas (C.mkProps None defaultStyles false)
                                 (W.mount []) 0);
     nextObject := 0 |}.

(** A callback prop runs a handler of the wrapper: it computes from the
    state of the render it closes over, and the last [setX] wins. *)
Definition callback (w : W.state) (e : C.emission) : W.state :=
  match e with
  | C.EmitAdd a => W.handleAnnotationAdd w a
  | C.EmitUpdate i a => W.handleAnnotationUpdate w i a
  | C.EmitDelete i => W.handleAnnotationDelete w i
  end.

(** The calls made by one handler of a child that rendered with the
    wrapper state [w]. *)
Definition callbacks (w : W.state) (out : list C.emission) : W.state :=
  fold_left (fun _ e => callback w e) out w.

(** The calls made by a listener of the canvas: the callback props are
    those of the canvas's first render, which close over [closure], while the
    wrapper is in the state [now]. *)
Definition staleCallbacks (closure now : W.state) (out : list C.emission)
  : W.state :=
  fold_left (fun _ e => callback closure e) out now.

(** What the user does.  The toolbar is rendered when [showToolbar] is set
    and shows its buttons unless the wrapper is minimised; the canvas, the
    manager and the undo and redo buttons are rendered unless the wrapper is
    minimised, the manager when [showManager] is set besides. *)
Inductive event : Type :=
| SelectTool (toolId : string)
| StyleChange (newStyles : Styles)
| ToggleToolbar
| ToggleManager
| ToggleMinimized
| OnCanvas (ev : C.event)
| ManagerDelete (annotationId : Z)   (* deleteAnnotation, confirmed *)
| Undo
| Redo.

Section Step.
Variable Number_toString : float -> string.

(** The wrapper renders again with the state [w]; when it stored a new
    [annotations] array, the "Load existing annotations" effect of the
    mounted canvas runs on it. *)
Definition rerender (sys : system) (w : W.state) (changed : bool) : system :=
  {| wrapper := w; activeTool := activeTool sys;
     currentStyles := currentStyles sys;
     showManager := showManager sys; showToolbar := showToolbar sys;
     isMinimized := isMinimized sys;
     canvas :=
       match canvas sys with
       | Some c =>
           Some (mkInstance (first_props c) (first_wrapper c)
                   (if changed then loadExisting (W.annotations w) (cells c)
                    else cells c))
       | None => None
       end;
     nextObject := nextObject sys |}.

Definition with_canvas (sys : system) (c : option instance) : system :=
  mkSystem (wrapper sys) (activeTool sys) (currentStyles sys)
           (showManager sys) (showToolbar sys) (isMinimized sys) c
           (nextObject sys).

(** One event.  The result is [None] when the control that fires the event
    is not rendered, or when a handler reads [undefined] from the
    history. *)
Definition step (sys : system) (ev : event) : option system :=
  match ev with
  | SelectTool t =>
      if showToolbar sys && negb (isMinimized sys) then
        Some (mkSystem (wrapper sys) (Some t) (currentStyles sys)
                (showManager sys) (showToolbar sys) (isMinimized sys)
                (canvas sys) (nextObject sys))
      else None
  | StyleChange st =>
      if showToolbar sys && negb (isMinimized sys) then
        Some (mkSystem (wrapper sys) (activeTool sys) st
                (showManager sys) (showToolbar sys) (isMinimized sys)
                (canvas sys) (nextObject sys))
      else None
  | ToggleToolbar =>
      Some (mkSystem (wrapper sys) (activeTool sys) (currentStyles sys)
              (showManager sys) (negb (showToolbar sys)) (isMinimized sys)
              (canvas sys) (nextObject sys))
  | ToggleManager =>
      Some (mkSystem (wrapper sys) (activeTool sys) (currentStyles sys)
              (negb (showManager sys)) (showToolbar sys) (isMinimized sys)
              (canvas sys) (nextObject sys))
  | ToggleMinimized =>
      if isMinimized sys then
        (* the content is rendered again: a new canvas mounts *)
        Some (mkSystem (wrapper sys) (activeTool sys) (currentStyles sys)
                (showManager sys) (showToolbar sys) false
                (Some (mountCanvas (canvasProps sys) (wrapper sys)
                                   (nextObject sys)))
                (nextObject sys))
      else
        (* the canvas unmounts and its fabric canvas is disposed of *)
        Some (mkSystem (wrapper sys) (activeTool sys) (currentStyles sys)
                (showManager sys) (showToolbar sys) true None
                (match canvas sys with
                 | Some c => C.nextRef (cells c)
                 | None => nextObject sys
                 end))
  | OnCanvas cev =>
      c ← canvas sys;
      let '(_, s, out) :=
        C.dispatch Number_toString (C.mounted (first_props c)) (cells c) cev in
      Some (rerender
              (with_canvas sys
                 (Some (mkInstance (first_props c) (first_wrapper c) s)))
              (staleCallbacks (first_wrapper c) (wrapper sys) out)
              (negb (Nat.eqb (length out) 0)))
  | ManagerDelete i =>
      if showManager sys && negb (isMinimized sys) then
        Some (rerender sys (W.handleAnnotationDelete (wrapper sys) i) true)
      else None
  | Undo =>
      if isMinimized sys then None
      else
        w ← W.handleUndo (wrapper sys);
        Some (rerender sys w (0 <? W.historyIndex (wrapper sys))%Z)
  | Redo =>
      if isMinimized sys then None
      else
        w ← W.handleRedo (wrapper sys);
        Some (rerender sys w
                (W.historyIndex (wrapper sys)
                 <? Z.of_nat (length (W.annotationHistory (wrapper sys))) - 1)%Z)
  end.

Fixpoint run (sys : system) (evs : list event) : option system :=
  match evs with
  | [] => Some sys
  | ev :: evs => sys' ← step sys ev; run sys' evs
  end.
End Step.

(** The objects on the fabric canvas; none when no canvas is mounted. *)
Definition canvasObjects (sys : system) : list fabricObject :=
  match canvas sys with
  | Some c => C.canvasObjects (cells c)
  | None => []
  end.

(** The render shapes of a record are all on the canvas. *)
Definition shapes_on_canvas (sys : system) (a : annotation) : bool :=
  forallb (fun o => match o with
                    | Some o => C.on_canvas o (canvasObjects sys)
                    | None => false
                    end) (ann_objects a).

(** The object belongs to a record of the store. *)
Definition owned (sys : system) (o : fabricObject) : bool :=
  existsb (fun a => C.includes (ann_objects a) o)
          (W.annotations (wrapper sys)).

(** Store and canvas agree: no record without its shapes, no shape without
    its record. *)
Definition consistent (sys : system) : bool :=
  forallb (shapes_on_canvas sys) (W.annotations (wrapper sys))
  && forallb (owned sys) (canvasObjects sys).

End AnnotationSystem.

(* ================================================================== *)
(** * ImageProcessing.js: the history of processed images              *)
(* ================================================================== *)

Module ImageProcessing.

Section History.
(** The image objects kept in the history. *)
Variable image : Type.

Record state := mkState {
  processedImage : option image;
  imageHistory : list image;
  historyIndex : Z
}.

Definition initial : state :=
  {| processedImage := None; imageHistory := []; historyIndex := -1 |}.

Definition addToHistory (s : state) (img : image) : state :=
  let newHistory := JS.slice0 (imageHistory s) (historyIndex s + 1) in
  let newHistory := newHistory ++ [img] in
  {| processedImage := processedImage s;
     imageHistory := newHistory;
     historyIndex := Z.of_nat (length newHistory) - 1 |}.

(** [setProcessedImage(imageHistory[newIndex])]: an index outside the
    history stores [undefined], that is [None]. *)
Definition undo (s : state) : state :=
  if 0 <? historyIndex s then
    let newIndex := historyIndex s - 1 in
    {| processedImage := JS.index (imageHistory s) newIndex;
       imageHistory := imageHistory s;
       historyIndex := newIndex |}
  else s.

Definition redo (s : state) : state :=
  if historyIndex s <? Z.of_nat (length (imageHistory s)) - 1 then
    let newIndex := historyIndex s + 1 in
    {| processedImage := JS.index (imageHistory s) newIndex;
       imageHistory := imageHistory s;
       historyIndex := newIndex |}
  else s.
End History.

Arguments mkState {image}.
Arguments processedImage {image}.
Arguments imageHistory {image}.
Arguments historyIndex {image}.
Arguments addToHistory {image}.
Arguments undo {image}.
Arguments redo {image}.

End ImageProcessing.

(* ================================================================== *)
(** * imageProcessor.js: the pixel filters                             *)
(* ================================================================== *)

Module ImageProcessor.
Import JS.

(** The [ImageData] of the processor's canvas: RGBA bytes, row by row.
    [getImageData] and [putImageData] are taken to copy the bytes between
    the canvas and the buffer unchanged. *)
Record ImageData := mkImageData {
  data : list Z;
  width : Z;
  height : Z
}.

(** [data[i]] read as a number ([undefined] outside the buffer). *)
Definition rd (d : list Z) (i : Z) : float := num_opt (index d i).

(** [data[i] = v]: a write outside the buffer is ignored. *)
Definition store (d : list Z) (i : Z) (v : float) : list Z :=
  if i <? 0 then d else <[Z.to_nat i := ToUint8Clamp v]> d.

(** The three writes [d[idx] = r; d[idx + 1] = g; d[idx + 2] = b]. *)
Definition store_rgb (d : list Z) (idx : Z) (r g b : float) : list Z :=
  let d := store d idx r in
  let d := store d (idx + 1) g in
  store d (idx + 2) b.

(** [for (let i = 0; i < data.length; i += 4) body]. *)
Definition each_pixel (body : list Z -> Z -> list Z) (d : list Z) : list Z :=
  fold_left body (range_step 0 (Z.of_nat (length d)) 4) d.

(** Two nested [for] loops, the outer over [ys] and the inner over [xs]. *)
Definition for2 {S : Type} (ys xs : list Z) (body : S -> Z -> Z -> S) (s : S)
  : S :=
  fold_left (fun s y => fold_left (fun s x => body s y x) xs s) ys s.

Definition with_data (img : ImageData) (d : list Z) : ImageData :=
  {| data := d; width := width img; height := height img |}.

(** ** Point operations *)

Definition adjustBrightnessContrast (brightness contrast : float)
           (img : ImageData) : ImageData :=
  let channel (d : list Z) (i : Z) : list Z :=
    store d i (Math_max 0 (Math_min 255
                 ((rd d i - 128) * contrast + 128 + brightness)))%float in
  with_data img
    (each_pixel (fun d i =>
                   let d := channel d i in
                   let d := channel d (i + 1) in
                   channel d (i + 2))
                (data img)).

#[warnings="-inexact-float"]
Definition luminance (d : list Z) (i : Z) : float :=
  (rd d i * 0.299 + rd d (i + 1) * 0.587 + rd d (i + 2) * 0.114)%float.

Definition grayscale (img : ImageData) : ImageData :=
  with_data img
    (each_pixel (fun d i =>
                   let gray := luminance d i in
                   store_rgb d i gray gray gray)
                (data img)).

Definition invert (img : ImageData) : ImageData :=
  let channel (d : list Z) (i : Z) : list Z :=
    store d i (255 - rd d i)%float in
  with_data img
    (each_pixel (fun d i =>
                   let d := channel d i in
                   let d := channel d (i + 1) in
                   channel d (i + 2))
                (data img)).

Definition threshold (value : float) (img : ImageData) : ImageData :=
  with_data img
    (each_pixel (fun d i =>
                   let gray := luminance d i in
                   let binary : float :=
                     if PrimFloat.ltb value gray then 255%float else 0%float in
                   store_rgb d i binary binary binary)
                (data img)).

(** ** Neighbourhood operations *)

(** [(y * width + x) * 4]. *)
Definition offset (img : ImageData) (y x : Z) : Z := (y * width img + x) * 4.

(** [values.sort((a, b) => a - b)] on bytes read from the buffer: numbers
    in ascending order, then the [undefined] entries. *)
Fixpoint insert_sorted (v : Z) (l : list Z) : list Z :=
  match l with
  | [] => [v]
  | w :: l' => if v <=? w then v :: l else w :: insert_sorted v l'
  end.

Definition sort_numbers (values : list (option Z)) : list (option Z) :=
  map Some (fold_right insert_sorted [] (omap (fun v => v) values))
  ++ filter (fun v => v = None) values.

Definition medianFilter (kernelSize : Z) (img : ImageData) : ImageData :=
  let d := data img in
  let halfKernel := kernelSize / 2 in
  let ks := range (- halfKernel) (halfKernel + 1) in
  let newData :=
    for2 (range halfKernel (height img - halfKernel))
         (range halfKernel (width img - halfKernel))
         (fun newData y x =>
            let idx := offset img y x in
            let '(rValues, gValues, bValues) :=
              for2 ks ks
                (fun '(rs, gs, bs) ky kx =>
                   let kIdx := offset img (y + ky) (x + kx) in
                   (rs ++ [index d kIdx], gs ++ [index d (kIdx + 1)],
                    bs ++ [index d (kIdx + 2)]))
                ([], [], []) in
            let rValues := sort_numbers rValues in
            let gValues := sort_numbers gValues in
            let bValues := sort_numbers bValues in
            let medianIdx := Z.of_nat (length rValues) / 2 in
            let at_ (vs : list (option Z)) : float :=
              num_opt (mjoin (index vs medianIdx)) in
            store_rgb newData idx (at_ rValues) (at_ gValues) (at_ bValues))
         d in
  with_data img newData.

(** [kernel[ky][kx]]; a missing entry is [undefined]. *)
Definition kernel_at (kernel : list (list float)) (ky kx : Z) : float :=
  match index kernel ky with
  | Some row => default PrimFloat.nan (index row kx)
  | None => PrimFloat.nan
  end.

Definition sobelX : list (list float) :=
  [[-1; 0; 1]; [-2; 0; 2]; [-1; 0; 1]]%float.
Definition sobelY : list (list float) :=
  [[-1; -2; -1]; [0; 0; 0]; [1; 2; 1]]%float.

Definition sobelEdgeDetection (img : ImageData) : ImageData :=
  let d := data img in
  (* Convert to grayscale first *)
  let grayData := data (grayscale img) in
  let newData :=
    for2 (range 1 (height img - 1)) (range 1 (width img - 1))
         (fun newData y x =>
            let idx := offset img y x in
            let '(gx, gy) :=
              for2 (range (-1) 2) (range (-1) 2)
                (fun '(gx, gy) ky kx =>
                   let kIdx := offset img (y + ky) (x + kx) in
                   let pixel := rd grayData kIdx in
                   (gx + pixel * kernel_at sobelX (ky + 1) (kx + 1),
                    gy + pixel * kernel_at sobelY (ky + 1) (kx + 1))%float)
                (0, 0)%float in
            let magnitude := Math_sqrt (gx * gx + gy * gy)%float in
            let edgeValue := Math_min 255 magnitude in
            store_rgb newData idx edgeValue edgeValue edgeValue)
         d in
  with_data img newData.

(** [histogram[v]++]. *)
Definition increment (histogram : list Z) (v : Z) : list Z :=
  alter (fun c => c + 1) (Z.to_nat v) histogram.

(** The running sums [cdf[i] = cdf[i - 1] + histogram[i]]. *)
Fixpoint cumulative (acc : Z) (histogram : list Z) : list Z :=
  match histogram with
  | [] => []
  | h :: histogram => (acc + h) :: cumulative (acc + h) histogram
  end.

Definition histogramEqualization (img : ImageData) : ImageData :=
  (* Convert to grayscale first *)
  let grayData := data (grayscale img) in
  let histogram :=
    fold_left (fun h i => match index grayData i with
                          | Some v => increment h v
                          | None => h
                          end)
              (range_step 0 (Z.of_nat (length grayData)) 4)
              (replicate 256 0) in
  let cdf := cumulative 0 histogram in
  let cdfMin := num_opt (head (filter (fun val => 0 < val) cdf)) in
  let cdfMax := num_opt (index cdf 255) in
  let cdf := map (fun c => ((num c - cdfMin) / (cdfMax - cdfMin) * 255)%float)
                 cdf in
  with_data img
    (each_pixel (fun d i =>
                   let newValue :=
                     match index grayData i with
                     | Some gray =>
                         Math_round (default PrimFloat.nan (index cdf gray))
                     | None => PrimFloat.nan
                     end in
                   store_rgb d i newValue newValue newValue)
                (data img)).

Definition noiseReduction (img : ImageData) : ImageData :=
  let d := data img in
  let newData :=
    for2 (range 1 (height img - 1)) (range 1 (width img - 1))
         (fun newData y x =>
            let idx := offset img y x in
            let '(r, g, b) :=
              for2 (range (-1) 2) (range (-1) 2)
                (fun '(r, g, b) ky kx =>
                   let kIdx := offset img (y + ky) (x + kx) in
                   (r + rd d kIdx, g + rd d (kIdx + 1),
                    b + rd d (kIdx + 2))%float)
                (0, 0, 0)%float in
            store_rgb newData idx (Math_round (r / 9)) (Math_round (g / 9))
                      (Math_round (b / 9)))
         d in
  with_data img newData.

Definition applyConvolution (kernel : list (list float)) (img : ImageData)
  : ImageData :=
  let d := data img in
  let kernelSize := Z.of_nat (length kernel) in
  let halfKernel := kernelSize / 2 in
  let newData :=
    for2 (range halfKernel (height img - halfKernel))
         (range halfKernel (width img - halfKernel))
         (fun newData y x =>
            let idx := offset img y x in
            let '(r, g, b) :=
              for2 (range 0 kernelSize) (range 0 kernelSize)
                (fun '(r, g, b) ky kx =>
                   let kIdx :=
                     offset img (y + ky - halfKernel) (x + kx - halfKernel) in
                   let weight := kernel_at kernel ky kx in
                   (r + rd d kIdx * weight, g + rd d (kIdx + 1) * weight,
                    b + rd d (kIdx + 2) * weight)%float)
                (0, 0, 0)%float in
            let clamp (v : float) : float :=
              Math_max 0 (Math_min 255 (Math_round v)) in
            store_rgb newData idx (clamp r) (clamp g) (clamp b))
         d in
  with_data img newData.

Definition sharpen (img : ImageData) : ImageData :=
  let kernel := [[0; -1; 0]; [-1; 5; -1]; [0; -1; 0]]%float in
  applyConvolution kernel img.

Section Gaussian.
(** [Math.exp], which the kernel's floats do not provide. *)
Variable Math_exp : float -> float.

(** [createGaussianKernel(size, sigma)]: the weights, then each divided
    by their sum (accumulated row by row). *)
Definition createGaussianKernel (size : Z) (sigma : float)
  : list (list float) :=
  let center := size / 2 in
  let value (i j : Z) : float :=
    let x := num (i - center) in
    let y := num (j - center) in
    Math_exp (- (x * x + y * y) / (2 * sigma * sigma))%float in
  let kernel :=
    map (fun i => map (fun j => value i j) (range 0 size)) (range 0 size) in
  let sum :=
    fold_left (fun sum row => fold_left PrimFloat.add row sum) kernel
              0%float in
  map (fun row => map (fun v => (v / sum)%float) row) kernel.

Definition gaussianBlur (kernelSize : Z) (sigma : float) (img : ImageData)
  : ImageData :=
  let kernel := createGaussianKernel kernelSize sigma in
  applyConvolution kernel img.
End Gaussian.

(** ** Morphology *)

Definition morphologicalOperation (operation : string) (kernelSize : Z)
           (img : ImageData) : ImageData :=
  let d := data img in
  let halfKernel := kernelSize / 2 in
  (* Convert to binary first *)
  let binaryData := data (threshold 128 img) in
  let ks := range (- halfKernel) (halfKernel + 1) in
  let newData :=
    for2 (range halfKernel (height img - halfKernel))
         (range halfKernel (width img - halfKernel))
         (fun newData y x =>
            let idx := offset img y x in
            (* the two loops leave at the first hit *)
            let any (v : Z) : bool :=
              existsb (fun ky =>
                         existsb (fun kx =>
                                    let kIdx := offset img (y + ky) (x + kx) in
                                    match index binaryData kIdx with
                                    | Some b => b =? v
                                    | None => false
                                    end) ks) ks in
            let result : float :=
              if String.eqb operation "erosion"
              then (if any 0 then 0%float else 255%float)
              else (if any 255 then 255%float else 0%float) in
            store_rgb newData idx result result result)
         d in
  with_data img newData.

Definition erosion (kernelSize : Z) (img : ImageData) : ImageData :=
  morphologicalOperation "erosion" kernelSize img.

Definition dilation (kernelSize : Z) (img : ImageData) : ImageData :=
  morphologicalOperation "dilation" kernelSize img.

End ImageProcessor.

(* ================================================================== *)
(** * captureManager.js: the persisted capture list                    *)
(* ================================================================== *)

Module CaptureManager.
Import JS.

Local Open Scope string_scope.

Section Store.
(** What [JSON.parse] can return: the stored capture list when the text
    is one, any other JSON value otherwise. *)
Variable value : Type.
(** The empty array [[]]. *)
Variable empty : value.

(** [localStorage] and [JSON], as far as the manager uses them: each
    call completes normally or throws. *)
Record environment := mkEnvironment {
  getItem : string -> completion (option string);
  setItem : string -> string -> completion unit;
  JSON_parse : string -> completion value;
  JSON_stringify : value -> completion string
}.

Record manager := mkManager {
  storageKey : string;
  captures : value;
  console : list string          (* the [console.error] lines *)
}.

(** [loadCaptures()]. *)
Definition loadCaptures (env : environment) (m : manager) : manager :=
  let attempt : completion value :=
    match getItem env (storageKey m) with
    | Normal (Some EmptyString) => Normal empty
    | Normal (Some stored) => JSON_parse env stored
    | Normal None => Normal empty
    | Throw e => Throw e
    end in
  match attempt with
  | Normal v => mkManager (storageKey m) v (console m)
  | Throw e =>
      mkManager (storageKey m) empty
                (console m ++ ["Error loading captures:"])%list
  end.

(** [saveCaptures()]: the completion is the one the caller sees. *)
Definition saveCaptures (env : environment) (m : manager)
  : completion unit * manager :=
  let attempt : completion unit :=
    match JSON_stringify env (captures m) with
    | Normal text => setItem env (storageKey m) text
    | Throw e => Throw e
    end in
  match attempt with
  | Normal _ => (Normal tt, m)
  | Throw e =>
      (Normal tt,
       mkManager (storageKey m) (captures m)
                 (console m ++ ["Error saving captures:"])%list)
  end.

(** The constructor: [storageKey] is set, then the list is loaded. *)
Definition create (env : environment) : manager :=
  loadCaptures env (mkManager "envision_captures" empty []).

End Store.

Arguments mkEnvironment {value}.
Arguments getItem {value}.
Arguments setItem {value}.
Arguments JSON_parse {value}.
Arguments JSON_stringify {value}.
Arguments mkManager {value}.
Arguments storageKey {value}.
Arguments captures {value}.
Arguments console {value}.
Arguments loadCaptures {value}.
Arguments saveCaptures {value}.
Arguments create {value}.

(** The [id] of a new capture in [addCapture]:
    [Date.now().toString() + Math.random().toString(36).substr(2, 9)];
    [now] is the clock value and [random36] the text
    [Math.random().toString(36)]. *)
Definition captureId (now : Z) (random36 : string) : string :=
  digits now ++ String.substring 2 9 random36.

End CaptureManager.

(* ================================================================== *)
(** * JavaScript values and objects used as maps                       *)
(* ================================================================== *)

Module Obj.

(** The values the sources put in a capture's metadata. *)
Inductive jsValue : Type :=
| VUndefined
| VNull
| VBool (b : bool)
| VNumber (n : float)
| VString (s : string)
| VArray (items : list string).

(** [ToBoolean]: [undefined], [null], [false], [0], [-0], [NaN] and the
    empty string are falsy. *)
Definition truthy (v : jsValue) : bool :=
  match v with
  | VUndefined => false
  | VNull => false
  | VBool b => b
  | VNumber n => negb (PrimFloat.is_nan n || PrimFloat.eqb n 0)
  | VString EmptyString => false
  | VString _ => true
  | VArray _ => true
  end.

Section Obj.
Context {V : Type}.

(** The own properties of an object, in insertion order.  (Keys that are
    array indices, which JavaScript lists first, do not occur in the
    sources.) *)
Definition object : Type := list (string * V).

(** [o[k]] on the own properties: [None] is [undefined]. *)
Fixpoint get (o : object) (k : string) : option V :=
  match o with
  | [] => None
  | (k', v) :: o => if String.eqb k' k then Some v else get o k
  end.

(** [o[k] = v]: an existing property keeps its place, a new one goes
    last. *)
Fixpoint set (o : object) (k : string) (v : V) : object :=
  match o with
  | [] => [(k, v)]
  | (k', v') :: o =>
      if String.eqb k' k then (k', v) :: o else (k', v') :: set o k v
  end.

(** [Object.keys(o)]. *)
Definition keys (o : object) : list string := map fst o.

(** [{ ...o, ...src }]: the properties of [src] are assigned in order. *)
Definition spread (o src : object) : object :=
  fold_left (fun acc kv => set acc kv.1 kv.2) src o.

End Obj.

Arguments object : clear implicits.

(** [metadata.k || d]. *)
Definition get_or (metadata : object jsValue) (k : string) (d : jsValue)
  : jsValue :=
  match get metadata k with
  | Some v => if truthy v then v else d
  | None => d
  end.

End Obj.

(* ================================================================== *)
(** * captureManager.js: the captures and the calls on the list        *)
(* ================================================================== *)

Module Captures.
Import JS Obj.

Local Open Scope string_scope.

(** [{ id, timestamp, imageData, metadata }]. *)
Record capture := mkCapture {
  id : string;
  timestamp : string;
  imageData : string;
  metadata : object jsValue
}.

Definition environment : Type := CaptureManager.environment (list capture).
Definition manager : Type := CaptureManager.manager (list capture).

(** [this.captures = l], the other fields as they are. *)
Definition with_captures (m : manager) (l : list capture) : manager :=
  CaptureManager.mkManager (CaptureManager.storageKey m) l
                           (CaptureManager.console m).

(** [addCapture(imageData, metadata)].  [now] is [Date.now()], [random36]
    the text [Math.random().toString(36)] and [iso] the text
    [new Date().toISOString()]. *)
Definition addCapture (env : environment) (m : manager)
           (now : Z) (random36 iso : string)
           (imageData : string) (metadata : object jsValue)
  : capture * manager :=
  let capture :=
    {| id := CaptureManager.captureId now random36;
       timestamp := iso;
       imageData := imageData;
       metadata :=
         spread
           [("resolution", get_or metadata "resolution" (VString "Unknown"));
            ("magnification",
             get_or metadata "magnification" (VString "Unknown"));
            ("camera", get_or metadata "camera" (VString "Unknown"));
            ("notes", get_or metadata "notes" (VString EmptyString));
            ("tags", get_or metadata "tags" (VArray []));
            ("analysisType",
             get_or metadata "analysisType" (VString "general"))]
           metadata |} in
  let m := with_captures m (capture :: CaptureManager.captures m) in
  (capture, (CaptureManager.saveCaptures env m).2).

(** [getCaptures()]. *)
Definition getCaptures (m : manager) : list capture :=
  CaptureManager.captures m.

(** [capture.metadata.analysisType === analysisType] for a string
    [analysisType]. *)
Definition has_type (analysisType : string) (c : capture) : bool :=
  match get (metadata c) "analysisType" with
  | Some (VString s) => String.eqb s analysisType
  | _ => false
  end.

(** [getCapturesByType(analysisType)]. *)
Definition getCapturesByType (m : manager) (analysisType : string)
  : list capture :=
  List.filter (has_type analysisType) (CaptureManager.captures m).

(** [getRecentCaptures(limit = 10)]: [None] is a call without argument. *)
Definition getRecentCaptures (m : manager) (limit : option Z) : list capture :=
  slice0 (CaptureManager.captures m) (default 10 limit).

(** [arr.findIndex(p)]: the first index where [p] holds, or -1. *)
Fixpoint findIndex_from {A} (p : A -> bool) (arr : list A) (i : Z) : Z :=
  match arr with
  | [] => -1
  | x :: arr => if p x then i else findIndex_from p arr (i + 1)
  end.

Definition findIndex {A} (p : A -> bool) (arr : list A) : Z :=
  findIndex_from p arr 0.

(** [deleteCapture(id)]: the value returned and the manager afterwards. *)
Definition deleteCapture (env : environment) (m : manager) (id_ : string)
  : bool * manager :=
  let index :=
    findIndex (fun capture => String.eqb (id capture) id_)
              (CaptureManager.captures m) in
  if (-1 <? index)%Z then
    let m := with_captures m (delete (Z.to_nat index)
                                     (CaptureManager.captures m)) in
    (true, (CaptureManager.saveCaptures env m).2)
  else (false, m).

(** [clearAllCaptures()]. *)
Definition clearAllCaptures (env : environment) (m : manager) : manager :=
  (CaptureManager.saveCaptures env (with_captures m [])).2.

End Captures.

(* ================================================================== *)
(** * AnnotationManager.js: the list of annotations and its actions    *)
(* ================================================================== *)

Module AnnotationManager.
Import JS Obj.
Module W := AnnotationWrapper.

Local Open Scope string_scope.

(** The property names an object literal inherits from
    [Object.prototype]: [groups[type]] finds them when [groups] has no own
    property of that name. *)
Definition Object_prototype : list string :=
  ["constructor"; "__defineGetter__"; "__defineSetter__"; "hasOwnProperty";
   "__lookupGetter__"; "__lookupSetter__"; "isPrototypeOf";
   "propertyIsEnumerable"; "toString"; "valueOf"; "__proto__";
   "toLocaleString"].

Definition inherited (k : string) : bool :=
  existsb (String.eqb k) Object_prototype.

(** [arr.reduce(f, init)] with a callback that may throw. *)
Fixpoint reduce {A B} (f : B -> A -> completion B) (arr : list A) (init : B)
  : completion B :=
  match arr with
  | [] => Normal init
  | x :: arr =>
      match f init x with
      | Normal acc => reduce f arr acc
      | Throw e => Throw e
      end
  end.

(** The callback of the [reduce] of [groupedAnnotations].  An own property
    of [groups] is an array, which is truthy; an inherited one is a function
    or an object, truthy too and without [push]. *)
Definition group (groups : object (list annotation)) (ann : annotation)
  : completion (object (list annotation)) :=
  let type := or_str (Some (ann_type ann)) "other" in
  let groups :=
    if negb (bool_decide (is_Some (get groups type)) || inherited type)
    then set groups type []
    else groups in
  match get groups type with
  | Some members => Normal (set groups type (members ++ [ann])%list)
  | None => Throw "TypeError"
  end.

(** [groupedAnnotations], computed at every render. *)
Definition groupedAnnotations (annotations : list annotation)
  : completion (object (list annotation)) :=
  reduce group annotations [].

(** A [Set] of annotation ids: its elements in insertion order. *)
Definition Set_has (s : list Z) (x : Z) : bool := existsb (Z.eqb x) s.
Definition Set_add (s : list Z) (x : Z) : list Z :=
  if Set_has s x then s else (s ++ [x])%list.
Definition Set_delete (s : list Z) (x : Z) : list Z :=
  filter (fun y => y <> x) s.
(** [new Set(iterable)]. *)
Definition Set_of (l : list Z) : list Z := fold_left Set_add l [].

(** The state cells the actions below write. *)
Record state := mkState {
  visibleAnnotations : list Z;
  selectedAnnotation : option annotation
}.

Definition initial : state :=
  {| visibleAnnotations := []; selectedAnnotation := None |}.

(** The "Initialize visible annotations" effect, run after a render with a
    new [annotations] array. *)
Definition initializeVisible (st : state) (annotations : list annotation)
  : state :=
  {| visibleAnnotations := Set_of (map ann_id annotations);
     selectedAnnotation := selectedAnnotation st |}.

(** [toggleAnnotationVisibility(annotationId)]. *)
Definition toggleAnnotationVisibility (st : state) (annotationId : Z) : state :=
  let prev := visibleAnnotations st in
  let newSet := Set_of prev in
  {| visibleAnnotations :=
       if Set_has newSet annotationId then Set_delete newSet annotationId
       else Set_add newSet annotationId;
     selectedAnnotation := selectedAnnotation st |}.

(** [toggleAllAnnotations(visible)]. *)
Definition toggleAllAnnotations (st : state) (annotations : list annotation)
           (visible : bool) : state :=
  {| visibleAnnotations :=
       if visible then Set_of (map ann_id annotations) else Set_of [];
     selectedAnnotation := selectedAnnotation st |}.

(** [deleteAnnotation(annotationId)]; [confirmed] is the answer of
    [window.confirm], and [onAnnotationDelete] is the wrapper's
    [handleAnnotationDelete] of the render the manager belongs to. *)
Definition deleteAnnotation (confirmed : bool) (st : state) (w : W.state)
           (annotationId : Z) : state * W.state :=
  if confirmed then
    ({| visibleAnnotations := visibleAnnotations st;
        selectedAnnotation :=
          match selectedAnnotation st with
          | Some sel => if (ann_id sel =? annotationId)%Z then None else Some sel
          | None => None
          end |},
     W.handleAnnotationDelete w annotationId)
  else (st, w).

(** [deleteAllAnnotations()]: the [forEach] calls [onAnnotationDelete] once
    for every annotation of the [annotations] prop, which is the wrapper's
    list; every call runs the same handler, the one of the current render. *)
Definition deleteAllAnnotations (confirmed : bool) (st : state) (w : W.state)
  : state * W.state :=
  if confirmed then
    ({| visibleAnnotations := visibleAnnotations st;
        selectedAnnotation := None |},
     AnnotationSystem.callbacks w
       (map (fun ann => AnnotationCanvas.EmitDelete (ann_id ann))
            (W.annotations w)))
  else (st, w).

End AnnotationManager.

(* ================================================================== *)
(** * AnnotationToolbar.js and the wrapper's handler of its actions    *)
(* ================================================================== *)

Module AnnotationToolbar.
Import JS.
Module W := AnnotationWrapper.

Local Open Scope string_scope.

(** The ids of [toolCategories], category by category. *)
Definition toolCategories : list (string * list string) :=
  [("text", ["single-text"; "multiline-text"; "field"]);
   ("dimensions", ["linear"; "aligned"; "angular"; "radius"; "diameter";
                   "arc-length"; "ordinate"; "baseline"; "continue"]);
   ("leaders", ["leader"; "multileader"]);
   ("tables", ["table"; "bom"]);
   ("patterns", ["hatch"; "gradient"]);
   ("symbols", ["centerline"; "center-mark"; "surface-texture"; "welding";
                "datum"]);
   ("revision", ["revision-cloud"])].

(** Every tool a button of the toolbar selects. *)
Definition tools : list string := concat (map snd toolCategories).

(** The object handed to [onAnnotationAdd]: [{ type }] from the header
    buttons, [{ type, tool, content, position, styles }] from the text
    dialog. *)
Record action := mkAction {
  action_type : string;
  action_tool : option string;
  action_content : option string;
  action_position : option point;
  action_styles : option Styles
}.

Definition button (type : string) : action :=
  mkAction type None None None None.

Record state := mkState {
  activeTool : option string;
  showTextInput : bool;
  textInput : string;
  textPosition : point;
  annotationStyles : Styles
}.

(** [s.includes(sub)]. *)
Fixpoint includes (s sub : string) : bool :=
  String.prefix sub s
  || match s with
     | EmptyString => false
     | String _ s' => includes s' sub
     end.

(** [handleToolSelect(toolId)]: the new state and the argument of
    [onToolSelect]. *)
Definition handleToolSelect (st : state) (toolId : string) : state * string :=
  ({| activeTool := Some toolId;
      showTextInput :=
        if includes toolId "text" || String.eqb toolId "field" then true
        else showTextInput st;
      textInput := textInput st;
      textPosition := textPosition st;
      annotationStyles := annotationStyles st |},
   toolId).

Section Text.
(** [String.prototype.trim]. *)
Variable trim : string -> string.

(** [handleTextSubmit()]: the new state and the calls of
    [onAnnotationAdd]. *)
Definition handleTextSubmit (st : state) : state * list action :=
  match trim (textInput st) with
  | EmptyString => (st, [])
  | _ =>
      ({| activeTool := activeTool st;
          showTextInput := false;
          textInput := EmptyString;
          textPosition := textPosition st;
          annotationStyles := annotationStyles st |},
       [mkAction "text" (activeTool st) (Some (textInput st))
                 (Some (textPosition st)) (Some (annotationStyles st))])
  end.
End Text.

(** The calls [AnnotationWrapper] makes on its own props. *)
Inductive external : Type :=
| OnSave (annotationsToSave : list annotation)
| OnExport (annotations : list annotation).

(** [handleToolbarAction(action)] of [AnnotationWrapper], the function the
    toolbar is given as [onAnnotationAdd]. *)
Definition handleToolbarAction (s : W.state) (a : action)
  : option W.state * list external :=
  if String.eqb (action_type a) "undo" then (W.handleUndo s, [])
  else if String.eqb (action_type a) "redo" then (W.handleRedo s, [])
  else if String.eqb (action_type a) "save" then
    (Some s, [OnSave (W.annotations s)])
  else if String.eqb (action_type a) "export" then
    (Some s, [OnExport (W.annotations s)])
  else (Some s, []).

End AnnotationToolbar.

(* ================================================================== *)
(** * ImageProcessing.js: the page, its filters and its handlers       *)
(* ================================================================== *)

Module ImageProcessingPage.
Import JS.
Module H := ImageProcessing.
Module P := ImageProcessor.

Local Open Scope string_scope.

(** [v || d] on an optional number: [undefined], [0], [-0] and [NaN] are
    falsy. *)
Definition or_float (v : option float) (d : float) : float :=
  match v with
  | Some n => if PrimFloat.is_nan n || PrimFloat.eqb n 0 then d else n
  | None => d
  end.

(** The parameter object of a filter; a field that is not there is
    [None].  (Every field is a number in the page, [kernel_size] an
    integral one: the loops of the processor are modelled for integral
    sizes.) *)
Record params := mkParams {
  angle : option float;
  direction : option string;
  brightness : option float;
  contrast : option float;
  kernel_size : option Z;
  sigma : option float;
  value : option float
}.

(** [{}]. *)
Definition no_params : params := mkParams None None None None None None None.

(** [{ ...a, ...b }]. *)
Definition merge (a b : params) : params :=
  let pick {A} (x y : option A) : option A :=
    match y with Some _ => y | None => x end in
  {| angle := pick (angle a) (angle b);
     direction := pick (direction a) (direction b);
     brightness := pick (brightness a) (brightness b);
     contrast := pick (contrast a) (contrast b);
     kernel_size := pick (kernel_size a) (kernel_size b);
     sigma := pick (sigma a) (sigma b);
     value := pick (value a) (value b) |}.

(** An entry of [availableFilters]: [{ id, name, params, apply }]; [apply]
    is given the pixels of the processor's canvas and returns the pixels it
    leaves there. *)
Record filter := mkFilter {
  filter_id : string;
  filter_name : string;
  filter_params : params;
  apply : params -> P.ImageData -> P.ImageData
}.

(** The image objects of the page: [{ src, file, width, height, name }];
    [processImage] adds [filters]. *)
Record image := mkImage {
  src : string;
  file : option string;
  image_width : Z;
  image_height : Z;
  name : string;
  filters : option (list string)
}.

(** [{ ...img, src: newSrc }]. *)
Definition with_src (img : image) (newSrc : string) : image :=
  mkImage newSrc (file img) (image_width img) (image_height img) (name img)
          (filters img).

Record page := mkPage {
  currentImage : option image;
  history : H.state image;
  selectedFilters : list string;
  filterParams : Obj.object params;
  isProcessing : bool;
  zoom : float;
  recentCaptures : list Captures.capture
}.

(** The [useState] initial values. *)
Definition initial : page :=
  {| currentImage := None;
     history := H.initial image;
     selectedFilters := [];
     filterParams := [];
     isProcessing := false;
     zoom := 1;
     recentCaptures := [] |}.

Section Page.
(** The browser calls of the processor: decoding an image source into the
    canvas ([loadImage], which may fail), encoding the canvas
    ([toDataURL]), the canvas transformations behind [rotate] and [flip],
    and [Math.exp]. *)
Variable loadImage : string -> completion P.ImageData.
Variable toDataURL : P.ImageData -> string.
Variable rotate : float -> P.ImageData -> P.ImageData.
Variable flip : string -> P.ImageData -> P.ImageData.
Variable Math_exp : float -> float.
(** [new Date(timestamp).toLocaleDateString()]. *)
Variable toLocaleDateString : string -> string.

(** [availableFilters], category by category. *)
Definition availableFilters : list (string * list filter) :=
  [("basic",
    [mkFilter "rotate" "Image Rotation"
       (mkParams (Some 90%float) None None None None None None)
       (fun params => rotate (or_float (angle params) 90));
     mkFilter "flip" "Image Flipping"
       (mkParams None (Some "horizontal") None None None None None)
       (fun params => flip (or_str (direction params) "horizontal"));
     mkFilter "brightness" "Brightness/Contrast"
       (mkParams None None (Some 0%float) (Some 1%float) None None None)
       (fun params =>
          P.adjustBrightnessContrast (or_float (brightness params) 0)
                                     (or_float (contrast params) 1));
     mkFilter "invert" "Image Inversion" no_params (fun _ => P.invert);
     mkFilter "grayscale" "Grayscale Conversion" no_params
       (fun _ => P.grayscale)]);
   ("spatial",
    [mkFilter "gaussian_blur" "Gaussian Blur"
       (mkParams None None None None (Some 5%Z) (Some 1%float) None)
       (fun params =>
          P.gaussianBlur Math_exp (or_num (kernel_size params) 5)
                         (or_float (sigma params) 1));
     mkFilter "median_filter" "Median Filter"
       (mkParams None None None None (Some 5%Z) None None)
       (fun params => P.medianFilter (or_num (kernel_size params) 5));
     mkFilter "sharpen" "Image Sharpening" no_params (fun _ => P.sharpen)]);
   ("morphological",
    [mkFilter "erosion" "Erosion"
       (mkParams None None None None (Some 3%Z) None None)
       (fun params => P.erosion (or_num (kernel_size params) 3));
     mkFilter "dilation" "Dilation"
       (mkParams None None None None (Some 3%Z) None None)
       (fun params => P.dilation (or_num (kernel_size params) 3))]);
   ("edge",
    [mkFilter "sobel" "Sobel Edge Detection" no_params
       (fun _ => P.sobelEdgeDetection)]);
   ("enhancement",
    [mkFilter "histogram_equalization" "Histogram Equalization" no_params
       (fun _ => P.histogramEqualization);
     mkFilter "threshold" "Threshold"
       (mkParams None None None None None None (Some 128%float))
       (fun params => P.threshold (or_float (value params) 128));
     mkFilter "noise_reduction" "Noise Reduction" no_params
       (fun _ => P.noiseReduction)])].

(** [findFilterById(filterId)]: the first match, category by category. *)
Fixpoint find_in (categories : list (list filter)) (filterId : string)
  : option filter :=
  match categories with
  | [] => None
  | category :: categories =>
      match List.find (fun f => String.eqb (filter_id f) filterId) category with
      | Some f => Some f
      | None => find_in categories filterId
      end
  end.

Definition findFilterById (filterId : string) : option filter :=
  find_in (map snd availableFilters) filterId.

(** [filterParams[filterId] || {}]. *)
Definition params_of (pg : page) (filterId : string) : params :=
  default no_params (Obj.get (filterParams pg) filterId).

(** [setProcessedImage(img); addToHistory(img)] in a handler of the render
    [pg]. *)
Definition show (pg : page) (img : image) : page :=
  {| currentImage := currentImage pg;
     history :=
       H.addToHistory
         (H.mkState (Some img) (H.imageHistory (history pg))
                    (H.historyIndex (history pg)))
         img;
     selectedFilters := selectedFilters pg;
     filterParams := filterParams pg;
     isProcessing := isProcessing pg;
     zoom := zoom pg;
     recentCaptures := recentCaptures pg |}.

Definition with_history (pg : page) (h : H.state image) : page :=
  mkPage (currentImage pg) h (selectedFilters pg) (filterParams pg)
         (isProcessing pg) (zoom pg) (recentCaptures pg).

Definition with_current (pg : page) (img : image) : page :=
  mkPage (Some img) (history pg) (selectedFilters pg) (filterParams pg)
         (isProcessing pg) (zoom pg) (recentCaptures pg).

(** [onDrop], once the file is read as [dataURL].  The callback is
    memoised with an empty dependency list, so its [addToHistory] is the
    one of the first render, whose history is empty. *)
Definition onDrop (pg : page) (dataURL fileName : string) : page :=
  match loadImage dataURL with
  | Normal canvas =>
      let newImage :=
        mkImage dataURL (Some fileName) (P.width canvas) (P.height canvas)
                fileName None in
      with_history (with_current pg newImage)
        (H.addToHistory
           (H.mkState (Some newImage) (H.imageHistory (history initial))
                      (H.historyIndex (history initial)))
           newImage)
  | Throw _ => pg
  end.

(** [undo()] and [redo()]. *)
Definition undo (pg : page) : page := with_history pg (H.undo (history pg)).
Definition redo (pg : page) : page := with_history pg (H.redo (history pg)).

(** [toggleFilter(filterId)]. *)
Definition toggleFilter (pg : page) (filterId : string) : page :=
  let prev := selectedFilters pg in
  mkPage (currentImage pg) (history pg)
         (if existsb (String.eqb filterId) prev
          then List.filter (fun id => negb (String.eqb id filterId)) prev
          else (prev ++ [filterId])%list)
         (filterParams pg) (isProcessing pg) (zoom pg) (recentCaptures pg).

(** [updateFilterParams(filterId, params)]. *)
Definition updateFilterParams (pg : page) (filterId : string) (ps : params)
  : page :=
  let prev := filterParams pg in
  mkPage (currentImage pg) (history pg) (selectedFilters pg)
         (Obj.set prev filterId
                  (merge (default no_params (Obj.get prev filterId)) ps))
         (isProcessing pg) (zoom pg) (recentCaptures pg).

(** [applyFilter(filterId)]. *)
Definition applyFilter (pg : page) (filterId : string) : page :=
  match H.processedImage (history pg) with
  | None => pg
  | Some processedImage =>
      match findFilterById filterId with
      | None => pg
      | Some filter =>
          match loadImage (src processedImage) with
          | Normal canvas =>
              let canvas := apply filter (params_of pg filterId) canvas in
              show pg (with_src processedImage (toDataURL canvas))
          | Throw _ => pg
          end
      end
  end.

(** The loop of [processImage] over the selected filters. *)
Definition applySelected (pg : page) (canvas : P.ImageData) : P.ImageData :=
  fold_left (fun canvas filterId =>
               match findFilterById filterId with
               | Some filter => apply filter (params_of pg filterId) canvas
               | None => canvas
               end)
            (selectedFilters pg) canvas.

(** [processImage()]; [isProcessing] is set during the call and reset in
    the [finally] block. *)
Definition processImage (pg : page) : page :=
  match currentImage pg with
  | None => pg
  | Some current =>
      if (length (selectedFilters pg) =? 0)%nat then pg
      else
        match loadImage (src current) with
        | Normal canvas =>
            let canvas := applySelected pg canvas in
            let processed :=
              mkImage (toDataURL canvas) (file current) (image_width current)
                      (image_height current) (name current)
                      (Some (selectedFilters pg)) in
            let pg := show pg processed in
            mkPage (currentImage pg) (history pg) (selectedFilters pg)
                   (filterParams pg) false (zoom pg) (recentCaptures pg)
        | Throw _ =>
            mkPage (currentImage pg) (history pg) (selectedFilters pg)
                   (filterParams pg) false (zoom pg) (recentCaptures pg)
        end
  end.

(** [rotateImage(angle)] and [flipImage(direction)]. *)
Definition rotateImage (pg : page) (angle : float) : page :=
  match H.processedImage (history pg) with
  | None => pg
  | Some processedImage =>
      match loadImage (src processedImage) with
      | Normal canvas =>
          let canvas := rotate angle canvas in
          show pg (mkImage (toDataURL canvas) (file processedImage)
                           (P.width canvas) (P.height canvas)
                           (name processedImage) (filters processedImage))
      | Throw _ => pg
      end
  end.

Definition flipImage (pg : page) (direction : string) : page :=
  match H.processedImage (history pg) with
  | None => pg
  | Some processedImage =>
      match loadImage (src processedImage) with
      | Normal canvas =>
          show pg (with_src processedImage (toDataURL (flip direction canvas)))
      | Throw _ => pg
      end
  end.

(** [adjustZoom(delta)] and [resetZoom()]. *)
#[warnings="-inexact-float"]
Definition adjustZoom (pg : page) (delta : float) : page :=
  let newZoom := Math_max 0.1 (Math_min 5 (zoom pg + delta)) in
  mkPage (currentImage pg) (history pg) (selectedFilters pg) (filterParams pg)
         (isProcessing pg) newZoom (recentCaptures pg).

Definition resetZoom (pg : page) : page :=
  mkPage (currentImage pg) (history pg) (selectedFilters pg) (filterParams pg)
         (isProcessing pg) 1 (recentCaptures pg).

(** [clearImage()]. *)
Definition clearImage (pg : page) : page :=
  mkPage None (H.mkState None [] (-1)) [] [] (isProcessing pg) 1
         (recentCaptures pg).

(** [resetToOriginal()]. *)
Definition resetToOriginal (pg : page) : page :=
  match currentImage pg with
  | Some current => show pg current
  | None => pg
  end.

(** The "Load recent captures" effect, run once after the first render. *)
Definition loadRecentCaptures (pg : page) (m : Captures.manager) : page :=
  let captures := Captures.getCapturesByType m "image_processing" in
  mkPage (currentImage pg) (history pg) (selectedFilters pg) (filterParams pg)
         (isProcessing pg) (zoom pg) (slice0 captures 6).

(** [loadCapture(capture)]. *)
Definition loadCapture (pg : page) (capture : Captures.capture) : page :=
  let newImage :=
    mkImage (Captures.imageData capture) None 800 600
            ("Capture_" ++ toLocaleDateString (Captures.timestamp capture))
            None in
  show (with_current pg newImage) newImage.

(** [testImageProcessor()]. *)
#[warnings="-inexact-float"]
Definition testImageProcessor (pg : page) : page :=
  match currentImage pg with
  | None => pg
  | Some current =>
      match loadImage (src current) with
      | Normal canvas =>
          let canvas := P.grayscale canvas in
          let canvas := P.adjustBrightnessContrast 20 1.2 canvas in
          let canvas := P.noiseReduction canvas in
          show pg (with_src current (toDataURL canvas))
      | Throw _ => pg
      end
  end.

(** What the user does on the page. *)
Inductive event : Type :=
| Drop (dataURL fileName : string)
| Undo
| Redo
| ToggleFilter (filterId : string)
| UpdateFilterParams (filterId : string) (ps : params)
| ApplyFilter (filterId : string)
| ProcessImage
| RotateImage (angle : float)
| FlipImage (direction : string)
| AdjustZoom (delta : float)
| ResetZoom
| ClearImage
| ResetToOriginal
| LoadCapture (capture : Captures.capture)
| TestImageProcessor.

(** One event, handled to its end: when the handler waits for an image, the
    image loads (or fails to load) before anything else happens.
    [session_step] below lets other events come in between. *)
Definition step (pg : page) (ev : event) : page :=
  match ev with
  | Drop dataURL fileName => onDrop pg dataURL fileName
  | Undo => undo pg
  | Redo => redo pg
  | ToggleFilter filterId => toggleFilter pg filterId
  | UpdateFilterParams filterId ps => updateFilterParams pg filterId ps
  | ApplyFilter filterId => applyFilter pg filterId
  | ProcessImage => processImage pg
  | RotateImage angle => rotateImage pg angle
  | FlipImage direction => flipImage pg direction
  | AdjustZoom delta => adjustZoom pg delta
  | ResetZoom => resetZoom pg
  | ClearImage => clearImage pg
  | ResetToOriginal => resetToOriginal pg
  | LoadCapture capture => loadCapture pg capture
  | TestImageProcessor => testImageProcessor pg
  end.

(** The page after the events, from the first render. *)
Definition run (evs : list event) : page := fold_left step evs initial.

(** [step] handles an event to its end.  [onDrop], [applyFilter],
    [processImage], [rotateImage], [flipImage] and [testImageProcessor] are
    [async]: they return at [await loadImage(...)], and what follows runs when
    the image has loaded, with the values of the render in which the handler
    was called; other events may be handled in between.  The image is drawn
    on the processor's canvas in its [onload] handler and the rest of the
    handler runs right after it, before any other event. *)

(** The image source the handler called in the render [pg] waits for;
    [None] when the handler does not wait: it is not [async], or it returns
    before [await]. *)
Definition awaited (pg : page) (ev : event) : option string :=
  match ev with
  | Drop dataURL _ => Some dataURL
  | ApplyFilter filterId =>
      match H.processedImage (history pg), findFilterById filterId with
      | Some processedImage, Some _ => Some (src processedImage)
      | _, _ => None
      end
  | ProcessImage =>
      match currentImage pg with
      | Some current =>
          if (length (selectedFilters pg) =? 0)%nat then None
          else Some (src current)
      | None => None
      end
  | RotateImage _ | FlipImage _ =>
      match H.processedImage (history pg) with
      | Some processedImage => Some (src processedImage)
      | None => None
      end
  | TestImageProcessor =>
      match currentImage pg with
      | Some current => Some (src current)
      | None => None
      end
  | _ => None
  end.

(** What the handler writes before it waits: [processImage] sets
    [isProcessing]. *)
Definition called (pg : page) (ev : event) : page :=
  match ev with
  | ProcessImage =>
      mkPage (currentImage pg) (history pg) (selectedFilters pg)
             (filterParams pg) true (zoom pg) (recentCaptures pg)
  | _ => pg
  end.

(** A handler that waits: the render it was called in, and the call. *)
Record job := mkJob { caller : page; call : event }.

(** The rest of the handler [j], run when its image has loaded or failed to
    load, while the page is in the state [now].  The values come from the
    render of the call: they are those of [step] on that render.  The writes
    go to the state of now: [setProcessedImage], [setImageHistory] and
    [setHistoryIndex] after a successful load ([onDrop] also calls
    [setCurrentImage]); [processImage] resets [isProcessing] in its [finally]
    block. *)
Definition finished (now : page) (j : job) : page :=
  let busy := match call j with
              | ProcessImage => false
              | _ => isProcessing now
              end in
  match awaited (caller j) (call j) with
  | Some source =>
      match loadImage source with
      | Normal _ =>
          let result := step (caller j) (call j) in
          mkPage (match call j with
                  | Drop _ _ => currentImage result
                  | _ => currentImage now
                  end)
                 (history result) (selectedFilters now) (filterParams now)
                 busy (zoom now) (recentCaptures now)
      | Throw _ =>
          mkPage (currentImage now) (history now) (selectedFilters now)
                 (filterParams now) busy (zoom now) (recentCaptures now)
      end
  | None => now
  end.

(** The page and the handlers that are waiting for their image. *)
Record session := mkSession { shown : page; waiting : list job }.

(** What happens on the page: the user does something, or the image the
    [k]-th waiting handler waits for has loaded or failed to load. *)
Inductive input : Type :=
| User (ev : event)
| Loaded (k : nat).

Definition session_step (s : session) (i : input) : session :=
  match i with
  | User ev =>
      match awaited (shown s) ev with
      | Some _ =>
          mkSession (called (shown s) ev)
                    (waiting s ++ [mkJob (shown s) ev])%list
      | None => mkSession (step (shown s) ev) (waiting s)
      end
  | Loaded k =>
      match waiting s !! k with
      | Some j => mkSession (finished (shown s) j) (delete k (waiting s))
      | None => s
      end
  end.

Definition session_run (inputs : list input) : session :=
  fold_left session_step inputs (mkSession initial []).

End Page.

End ImageProcessingPage.

(* ================================================================== *)
(** * Properties stated about the model                                *)
(* ================================================================== *)

(** The pointer of the wrapper's history is -1 before the first snapshot
    and names an entry from then on. *)
Definition pointer_ok (s : AnnotationWrapper.state) : Prop :=
  -1 <= AnnotationWrapper.historyIndex s
     < Z.of_nat (length (AnnotationWrapper.annotationHistory s))
  /\ (0 < Z.of_nat (length (AnnotationWrapper.annotationHistory s)) ->
      0 <= AnnotationWrapper.historyIndex s).

(** The entry under the pointer is the current annotation list. *)
Definition current_is_entry (s : AnnotationWrapper.state) : Prop :=
  0 <= AnnotationWrapper.historyIndex s ->
  JS.index (AnnotationWrapper.annotationHistory s)
           (AnnotationWrapper.historyIndex s)
  = Some (AnnotationWrapper.annotations s).




(** The clock value ([Date.now()]) an event hands to its handler. *)
Definition event_clock (ev : AnnotationCanvas.event) : option Z :=
  match ev with
  | AnnotationCanvas.MouseDown now _ => Some now
  | AnnotationCanvas.MouseUp now => Some now
  | _ => None
  end.

(** Every record a handler body hands to [onAnnotationAdd] has the id
    [now]. *)
Definition ids_are {A} (now : Z) (m : AnnotationCanvas.M A) : Prop :=
  forall s a, a ∈ AnnotationCanvas.produced (m s).2 -> ann_id a = now.

(** The events handled one after the other by the closures of the latest
    render, as they would be if the component registered its handlers again
    after every render.  The component does not do that (see
    [AnnotationCanvas.dispatch_all]); this reading of the handler bodies
    serves to tell what they are written to do. *)
Fixpoint handled_afresh (Number_toString : float -> string)
         (pr : AnnotationCanvas.props) (s : AnnotationCanvas.canvasState)
         (evs : list AnnotationCanvas.event)
  : AnnotationCanvas.canvasState * list AnnotationCanvas.emission
    * list string :=
  match evs with
  | [] => (s, [], [])
  | ev :: evs =>
      let '(r, s1, out1) :=
        AnnotationCanvas.dispatch Number_toString
          (AnnotationCanvas.mkListeners pr s) s ev in
      let '(s2, out2, errs) := handled_afresh Number_toString pr s1 evs in
      (s2, (out1 ++ out2)%list,
       match r with
       | JS.Normal _ => errs
       | JS.Throw e => e :: errs
       end)
  end.

(** The two buffers have the same alpha bytes (every fourth byte, from
    index 3). *)
Definition same_alpha (d d' : list Z) : Prop :=
  forall j : nat, (j mod 4 = 3)%nat -> d' !! j = d !! j.

(** One pass of the loop of [grayscale], and the index the loop variable has
    in pass [k]. *)
Definition gray_body (d : list Z) (i : Z) : list Z :=
  let gray := ImageProcessor.luminance d i in
  ImageProcessor.store_rgb d i gray gray gray.

Definition pixel_index (k : nat) : Z := 0 + 4 * Z.of_nat k.

(** ** Inputs of the examples *)

Definition plain_toString (_ : float) : string := EmptyString.

Definition no_styles : Styles := mkStyles None None None None None None.

Definition leader_at (now : Z) : annotation :=
  mkAnnotation now "leader" (Some "leader"%string) []
               (LeaderData (mkPoint 0 0)) no_styles.

Definition leader_props : AnnotationCanvas.props :=
  AnnotationCanvas.mkProps (Some "leader"%string)
                           AnnotationSystem.defaultStyles false.

Definition linear_props (st : Styles) : AnnotationCanvas.props :=
  AnnotationCanvas.mkProps (Some "linear"%string) st false.

Definition cloud_props : AnnotationCanvas.props :=
  AnnotationCanvas.mkProps (Some "revision-cloud"%string)
                           AnnotationSystem.defaultStyles false.

(** The default styles with [dimensionPrecision] set to 0. *)
Definition precision_zero : Styles :=
  {| textSize := Some 12; textColor := Some "#000000"%string;
     lineColor := Some "#FF0000"%string; lineWidth := Some 2;
     arrowSize := Some 8; dimensionPrecision := Some 0 |}.

(** A storage whose reads throw, and a storage that holds corrupted JSON
    and refuses writes; the capture list is a list of numbers here. *)
Definition broken_storage : CaptureManager.environment (list Z) :=
  CaptureManager.mkEnvironment
    (fun _ => JS.Throw "SecurityError")
    (fun _ _ => JS.Throw "QuotaExceededError")
    (fun _ => JS.Throw "SyntaxError")
    (fun _ => JS.Normal "[]"%string).

Definition corrupted_storage : CaptureManager.environment (list Z) :=
  CaptureManager.mkEnvironment
    (fun _ => JS.Normal (Some "{not json"%string))
    (fun _ _ => JS.Throw "QuotaExceededError")
    (fun _ => JS.Throw "SyntaxError")
    (fun _ => JS.Normal "[]"%string).

Definition two_pixels : ImageProcessor.ImageData :=
  ImageProcessor.mkImageData [200; 100; 50; 255; 10; 20; 30; 40] 2 1.

(** The two clicks of a linear dimension from (0,0) to (3,4), and the shapes
    and the record they build when the label reads [label]. *)
Definition clicks_3_4 : list AnnotationCanvas.event :=
  [AnnotationCanvas.MouseDown 1000 (mkPoint 0 0);
   AnnotationCanvas.MouseDown 2000 (mkPoint 3 4)].

Definition line_3_4 : fabricObject :=
  mkObject 0 (Line 0 0 3 4 "#FF0000" 2 []).

Definition text_3_4 (label : string) : fabricObject :=
  mkObject 1 (Text label 1.5 (-8) 12 "#000000").

Definition dimension_3_4 (label : string) (st : Styles) : annotation :=
  mkAnnotation 2000 "dimension" (Some "linear"%string)
               [Some line_3_4; Some (text_3_4 label)]
               (DimensionData (mkPoint 0 0) (mkPoint 3 4) 5) st.

(** The leader a click at (10,20) builds at the clock value 2000 with the
    default styles, when its shapes are the first two objects created. *)
Definition leader_line_10_20 : fabricObject :=
  mkObject 0 (Line (-40) 20 10 20 "#FF0000" 2 []).

Definition leader_arrow_10_20 : fabricObject :=
  mkObject 1 (Triangle 5 15 10 10 "#FF0000").

Definition leader_10_20 : annotation :=
  mkAnnotation 2000 "leader" (Some "leader"%string)
               [Some leader_line_10_20; Some leader_arrow_10_20]
               (LeaderData (mkPoint 10 20)) AnnotationSystem.defaultStyles.

(** A press, four moves and a release, and a press, one move and a
    release. *)
Definition five_points : list point :=
  [mkPoint 0 0; mkPoint 1 0; mkPoint 2 1; mkPoint 3 1; mkPoint 4 0].

Definition drag (points : list point) : list AnnotationCanvas.event :=
  match points with
  | [] => []
  | p0 :: ps =>
      AnnotationCanvas.MouseDown 100 p0
      :: map AnnotationCanvas.MouseMove ps ++ [AnnotationCanvas.MouseUp 200]
  end.

(** The defaults [addCapture] gives to the metadata fields a caller leaves
    out. *)
Definition metadata_defaults : Obj.object Obj.jsValue :=
  [("resolution"%string, Obj.VString "Unknown");
   ("magnification"%string, Obj.VString "Unknown");
   ("camera"%string, Obj.VString "Unknown");
   ("notes"%string, Obj.VString EmptyString);
   ("tags"%string, Obj.VArray []);
   ("analysisType"%string, Obj.VString "general")].

(** A storage that accepts every write, and a capture with the given id
    and no metadata. *)
Definition working_storage : Captures.environment :=
  CaptureManager.mkEnvironment
    (fun _ => JS.Normal None)
    (fun _ _ => JS.Normal tt)
    (fun _ => JS.Normal [])
    (fun _ => JS.Normal "[]"%string).

Definition failing_storage : Captures.environment :=
  CaptureManager.mkEnvironment
    (fun _ => JS.Throw "SecurityError")
    (fun _ _ => JS.Throw "QuotaExceededError")
    (fun _ => JS.Throw "SyntaxError")
    (fun _ => JS.Normal "[]"%string).

Definition capture_with_id (i : string) : Captures.capture :=
  Captures.mkCapture i "2024-01-01T00:00:00.000Z" "data:image/png;base64,"
                     [].

(** A capture the image page saved: its type is ['image_processing']. *)
Definition page_capture (i : string) : Captures.capture :=
  Captures.mkCapture i "2024-01-01T00:00:00.000Z" "data:image/png;base64,"
                     [("analysisType"%string,
                       Obj.VString "image_processing")].

Definition manager_of (l : list Captures.capture) : Captures.manager :=
  CaptureManager.mkManager "envision_captures"%string l [].

(** The group an annotation is listed under: its type, or ['other'] when
    the type is empty. *)
Definition group_key (a : annotation) : string :=
  JS.or_str (Some (ann_type a)) "other".

(** The annotations of a list that are listed under [t], in list order. *)
Definition listed_under (t : string) (anns : list annotation)
  : list annotation :=
  List.filter (fun a => String.eqb (group_key a) t) anns.

Definition dimension_at (now : Z) : annotation :=
  mkAnnotation now "dimension" (Some "linear"%string) []
               (DimensionData (mkPoint 0 0) (mkPoint 3 4) 5) no_styles.

(** The toolbar with the text dialog open and a text typed in. *)
Definition typing (text : string) : AnnotationToolbar.state :=
  AnnotationToolbar.mkState (Some "single-text"%string) true text
                            (mkPoint 0 0) AnnotationSystem.defaultStyles.

(** What a mouse press may do to store and canvas: it produces no record,
    or exactly one record [a]; then [a] is the current annotation, the
    shapes of [a] are the objects the press added to the canvas, in order,
    and no entry of [a]'s object list is [undefined]. *)
Definition draws_record (s : AnnotationCanvas.canvasState)
           (res : JS.completion unit * AnnotationCanvas.canvasState
                  * list AnnotationCanvas.emission) : Prop :=
  res.2 = []
  \/ exists a,
       res.2 = [AnnotationCanvas.EmitAdd a]
       /\ AnnotationCanvas.currentAnnotation res.1.2 = Some a
       /\ AnnotationCanvas.canvasObjects res.1.2
          = (AnnotationCanvas.canvasObjects s
             ++ omap (fun o => o) (ann_objects a))%list
       /\ Forall is_Some (ann_objects a).

(** The ten tools [handleCanvasMouseDown] has a case for. *)
Definition canvas_tools : list string :=
  ["linear"; "aligned"; "angular"; "radius"; "diameter"; "leader";
   "multileader"; "centerline"; "revision-cloud"; "hatch"]%string.

Definition is_canvas_tool (t : string) : bool :=
  existsb (String.eqb t) canvas_tools.

Definition is_mouse (ev : AnnotationCanvas.event) : bool :=
  match ev with
  | AnnotationCanvas.MouseDown _ _ => true
  | AnnotationCanvas.MouseMove _ => true
  | AnnotationCanvas.MouseUp _ => true
  | _ => false
  end.

(** What the groups hold after the annotations [anns] went through the reduce
    of [groupedAnnotations]: every group is listed once, the group of [t]
    holds the annotations listed under [t], and the groups together hold
    every annotation once. *)
Definition groups_of (groups : Obj.object (list annotation))
           (anns : list annotation) : Prop :=
  NoDup (Obj.keys groups)
  /\ (forall t, Obj.get groups t = match listed_under t anns with
                                   | [] => None
                                   | l => Some l
                                   end)
  /\ concat (map snd groups) ≡ₚ anns.

(** The three edits of the wrapper: the actions that push a snapshot. *)
Definition is_edit (act : AnnotationWrapper.action) : bool :=
  match act with
  | AnnotationWrapper.Add _ | AnnotationWrapper.Update _ _
  | AnnotationWrapper.Delete _ => true
  | AnnotationWrapper.Undo | AnnotationWrapper.Redo => false
  end.

(** The history of the image page is well formed: the pointer is -1 with an
    empty history and no processed image, or it names an entry of the
    history and that entry is the processed image shown. *)
Definition history_ok (h : ImageProcessing.state ImageProcessingPage.image)
  : Prop :=
  -1 <= ImageProcessing.historyIndex h
     < Z.of_nat (length (ImageProcessing.imageHistory h))
  /\ (ImageProcessing.imageHistory h = [] ->
      ImageProcessing.processedImage h = None)
  /\ (ImageProcessing.imageHistory h <> [] ->
      0 <= ImageProcessing.historyIndex h
      /\ is_Some (ImageProcessing.processedImage h)
      /\ ImageProcessing.processedImage h
         = JS.index (ImageProcessing.imageHistory h)
                    (ImageProcessing.historyIndex h)).

(** A filter leaves the size of the image and its alpha bytes as they
    are. *)
Definition keeps_size_and_alpha
           (f : ImageProcessor.ImageData -> ImageProcessor.ImageData) : Prop :=
  forall img,
    same_alpha (ImageProcessor.data img) (ImageProcessor.data (f img))
    /\ length (ImageProcessor.data (f img)) = length (ImageProcessor.data img)
    /\ ImageProcessor.width (f img) = ImageProcessor.width img
    /\ ImageProcessor.height (f img) = ImageProcessor.height img.

(** A decoder that reads every source as the same two pixels, and the
    other browser calls as far as the examples need them. *)
Definition decode_two_pixels (_ : string)
  : JS.completion ImageProcessor.ImageData :=
  JS.Normal two_pixels.

Definition encode_size (img : ImageProcessor.ImageData) : string :=
  JS.digits (Z.of_nat (length (ImageProcessor.data img))).

Definition no_rotate (_ : float) (img : ImageProcessor.ImageData)
  : ImageProcessor.ImageData := img.

Definition no_flip (_ : string) (img : ImageProcessor.ImageData)
  : ImageProcessor.ImageData := img.

Definition no_exp (_ : float) : float := 1%float.

Definition plain_date (timestamp : string) : string := timestamp.

(** The bounds of the zoom factor in [adjustZoom]. *)
#[warnings="-inexact-float"]
Definition min_zoom : float := 0.1%float.
Definition max_zoom : float := 5%float.

(** The buffer with [px] applied to the colour bytes of every pixel; the
    alpha byte of the pixel stays. *)
Fixpoint map_pixels (px : Z -> Z -> Z -> Z * Z * Z) (d : list Z) : list Z :=
  match d with
  | r :: g :: b :: a :: rest =>
      let '(r', g', b') := px r g b in
      r' :: g' :: b' :: a :: map_pixels px rest
  | _ => d
  end.

(** An [ImageData] as [getImageData] returns it: four bytes for every
    pixel. *)
Definition well_formed (img : ImageProcessor.ImageData) : Prop :=
  (exists n : nat, length (ImageProcessor.data img) = (4 * n)%nat)
  /\ Forall (fun v => 0 <= v <= 255) (ImageProcessor.data img).

(** The luminance of a pixel, as [grayscale] and [threshold] compute it. *)
Definition luminance_of (r g b : Z) : float :=
  ImageProcessor.luminance [r; g; b] 0.

(** What the point filters do to the colour bytes of one pixel. *)
Definition invert_pixel (r g b : Z) : Z * Z * Z :=
  (JS.ToUint8Clamp (255 - JS.num r), JS.ToUint8Clamp (255 - JS.num g),
   JS.ToUint8Clamp (255 - JS.num b)).

Definition gray_pixel (r g b : Z) : Z * Z * Z :=
  let gray := JS.ToUint8Clamp (luminance_of r g b) in (gray, gray, gray).

Definition threshold_pixel (value : float) (r g b : Z) : Z * Z * Z :=
  let binary := if PrimFloat.ltb value (luminance_of r g b) then 255 else 0 in
  (binary, binary, binary).

Definition adjust_pixel (brightness contrast : float) (r g b : Z) : Z * Z * Z :=
  let channel v :=
    JS.ToUint8Clamp
      (JS.Math_max 0 (JS.Math_min 255
         ((JS.num v - 128) * contrast + 128 + brightness))) in
  (channel r, channel g, channel b).

(** A loop body of [each_pixel] that reads and writes the pixel at its index
    only, and does to its colour bytes what [px] says. *)
Definition pixel_local (body : list Z -> Z -> list Z)
           (px : Z -> Z -> Z -> Z * Z * Z) : Prop :=
  (forall p d i, length p = 4%nat -> 0 <= i ->
                 body (p ++ d)%list (i + 4) = (p ++ body d i)%list)
  /\ (forall r g b a rest,
         body (r :: g :: b :: a :: rest) 0
         = let '(r', g', b') := px r g b in r' :: g' :: b' :: a :: rest).

(** [f] after [g], on the colour bytes of a pixel. *)
Definition then_pixel (g f : Z -> Z -> Z -> Z * Z * Z) (r0 g0 b0 : Z)
  : Z * Z * Z :=
  let '(r1, g1, b1) := g r0 g0 b0 in f r1 g1 b1.

Definition is_byte (v : Z) : bool := (0 <=? v) && (v <=? 255).

(** The pixel in column [x] and row [y] is less than [h] pixels away from
    an edge of the image. *)
Definition on_border (img : ImageProcessor.ImageData) (h x y : Z) : Prop :=
  x < h \/ ImageProcessor.width img - h <= x
  \/ y < h \/ ImageProcessor.height img - h <= y.

(** A 3 x 3 image, every byte 7. *)
Definition nine_pixels : ImageProcessor.ImageData :=
  ImageProcessor.mkImageData (replicate 36 7) 3 3.

(** Clicks on the canvas, each with its clock value and its position. *)
Definition clicks_at (clicks : list (Z * point)) : list AnnotationSystem.event :=
  map (fun click => AnnotationSystem.OnCanvas
                      (AnnotationCanvas.MouseDown click.1 click.2))
      clicks.

(* ================================================================== *)
(** * The wrapper's history                                            *)
(* ================================================================== *)

Section WrapperHistory.
Import AnnotationWrapper.

Lemma slice0_take {A} (l : list A) (e : Z) :
  0 <= e <= Z.of_nat (length l) -> JS.slice0 l e = take (Z.to_nat e) l.
Proof.
  intros He. unfold JS.slice0.
  destruct (e <? 0) eqn:E; [lia|].
  rewrite Z.min_l by lia. reflexivity.
Qed.

Lemma index_lookup {A} (l : list A) (i : Z) :
  0 <= i -> JS.index l i = l !! Z.to_nat i.
Proof. intros Hi. unfold JS.index. destruct (i <? 0) eqn:E; [lia|done]. Qed.

Lemma pushHistory_spec s new :
  pointer_ok s ->
  annotationHistory (pushHistory s new)
    = take (Z.to_nat (historyIndex s + 1)) (annotationHistory s) ++ [new]
  /\ historyIndex (pushHistory s new) = historyIndex s + 1
  /\ annotations (pushHistory s new) = new.
Proof.
  intros Hp. unfold pushHistory; cbn.
  rewrite slice0_take by (unfold pointer_ok in Hp; lia).
  split; [done|]. split; [|done].
  rewrite length_app, length_take. cbn. unfold pointer_ok in Hp. lia.
Qed.

Lemma pushHistory_ok s new :
  pointer_ok s ->
  pointer_ok (pushHistory s new) /\ current_is_entry (pushHistory s new).
Proof.
  intros Hp. destruct (pushHistory_spec s new Hp) as (Hh & Hi & Ha).
  unfold pointer_ok, current_is_entry in *.
  rewrite Hh, Hi, Ha. rewrite length_app, length_take. cbn.
  split; [lia|]. intros _.
  rewrite index_lookup by lia.
  rewrite lookup_app_r by (rewrite length_take; lia).
  rewrite length_take.
  replace (Z.to_nat (historyIndex s + 1) - _)%nat with 0%nat by lia.
  done.
Qed.

Lemma handleUndo_spec s :
  pointer_ok s -> current_is_entry s ->
  exists s', handleUndo s = Some s'
    /\ annotationHistory s' = annotationHistory s
    /\ historyIndex s' = (if 0 <? historyIndex s then historyIndex s - 1
                          else historyIndex s)
    /\ (historyIndex s <= 0 -> s' = s)
    /\ pointer_ok s' /\ current_is_entry s'.
Proof.
  intros Hp Hc. unfold handleUndo.
  destruct (0 <? historyIndex s) eqn:E.
  - apply Z.ltb_lt in E.
    destruct (lookup_lt_is_Some_2 (annotationHistory s)
                (Z.to_nat (historyIndex s - 1))) as [snap Hs].
    { unfold pointer_ok in Hp. lia. }
    rewrite index_lookup by lia. rewrite Hs. cbn.
    eexists; split; [reflexivity|]. cbn.
    repeat split; try done; try (unfold pointer_ok in *; cbn; lia).
    intros _. cbn. rewrite index_lookup by lia. done.
  - apply Z.ltb_ge in E. exists s. repeat split; auto; unfold pointer_ok in *; lia.
Qed.

Lemma handleRedo_spec s :
  pointer_ok s -> current_is_entry s ->
  exists s', handleRedo s = Some s'
    /\ annotationHistory s' = annotationHistory s
    /\ historyIndex s' =
         (if historyIndex s <? Z.of_nat (length (annotationHistory s)) - 1
          then historyIndex s + 1 else historyIndex s)
    /\ (Z.of_nat (length (annotationHistory s)) - 1 <= historyIndex s -> s' = s)
    /\ pointer_ok s' /\ current_is_entry s'.
Proof.
  intros Hp Hc. unfold handleRedo.
  destruct (historyIndex s <? _) eqn:E.
  - apply Z.ltb_lt in E.
    destruct (lookup_lt_is_Some_2 (annotationHistory s)
                (Z.to_nat (historyIndex s + 1))) as [snap Hs].
    { unfold pointer_ok in Hp. lia. }
    rewrite index_lookup by (unfold pointer_ok in Hp; lia). rewrite Hs. cbn.
    eexists; split; [reflexivity|]. cbn.
    repeat split; try done; try (unfold pointer_ok in *; cbn; lia).
    intros _. cbn. rewrite index_lookup by (unfold pointer_ok in Hp; lia). done.
  - apply Z.ltb_ge in E. exists s. repeat split; auto; unfold pointer_ok in *; lia.
Qed.

Lemma mount_ok init : pointer_ok (mount init) /\ current_is_entry (mount init).
Proof.
  unfold mount, pointer_ok, current_is_entry.
  destruct (0 <? _) eqn:E; cbn; split; try lia; try done.
Qed.

Lemma step_ok s act s' :
  pointer_ok s -> current_is_entry s -> step s act = Some s' ->
  pointer_ok s' /\ current_is_entry s'.
Proof.
  intros Hp Hc Hs. destruct act; cbn in Hs.
  - inversion Hs; subst. by apply pushHistory_ok.
  - inversion Hs; subst. by apply pushHistory_ok.
  - inversion Hs; subst. by apply pushHistory_ok.
  - destruct (handleUndo_spec s Hp Hc) as (s1 & H1 & _ & _ & _ & ? & ?).
    rewrite H1 in Hs. by inversion Hs; subst.
  - destruct (handleRedo_spec s Hp Hc) as (s1 & H1 & _ & _ & _ & ? & ?).
    rewrite H1 in Hs. by inversion Hs; subst.
Qed.

Lemma reachable_ok s : reachable s -> pointer_ok s /\ current_is_entry s.
Proof.
  induction 1 as [init | s act s' Hr [Hp Hc] Hs].
  - apply mount_ok.
  - eapply step_ok; eauto.
Qed.

(** Every handler returns on a reachable state. *)
Lemma reachable_step_total s act : reachable s -> is_Some (step s act).
Proof.
  intros Hr. destruct (reachable_ok s Hr) as [Hp Hc].
  destruct act; cbn; try done.
  - destruct (handleUndo_spec s Hp Hc) as (s1 & -> & _). done.
  - destruct (handleRedo_spec s Hp Hc) as (s1 & -> & _). done.
Qed.

Lemma run_app s l1 l2 :
  run s (l1 ++ l2) = s1 ← run s l1; run s1 l2.
Proof.
  revert s. induction l1 as [|act l1 IH]; intros s; cbn; [done|].
  destruct (step s act) as [s1|]; cbn; [apply IH|done].
Qed.

Lemma run_adds s l :
  run s (map Add l) = Some (fold_left handleAnnotationAdd l s).
Proof. revert s. induction l as [|a l IH]; intros s; cbn; [done|apply IH]. Qed.

Lemma adds_spec l s :
  pointer_ok s ->
  let s' := fold_left handleAnnotationAdd l s in
  pointer_ok s'
  /\ historyIndex s' = historyIndex s + Z.of_nat (length l)
  /\ annotations s' = annotations s ++ l
  /\ (0 <= historyIndex s ->
      annotationHistory s' !! 0%nat = annotationHistory s !! 0%nat)
  /\ (l <> [] -> current_is_entry s').
Proof.
  revert s. induction l as [|a l IH]; intros s Hp; cbn.
  - rewrite app_nil_r. repeat split; try done; try lia; apply Hp.
  - destruct (pushHistory_spec s (annotations s ++ [a]) Hp) as (Hh & Hi & Ha).
    destruct (pushHistory_ok s (annotations s ++ [a]) Hp) as [Hp' Hc'].
    destruct (IH _ Hp') as (H1 & H2 & H3 & H4 & H5).
    unfold handleAnnotationAdd in *.
    split; [done|]. split; [rewrite H2, Hi; lia|].
    split; [rewrite H3, Ha, <- app_assoc; done|].
    split.
    + intros H0. rewrite H4 by lia. rewrite Hh.
      rewrite lookup_app_l by (rewrite length_take; unfold pointer_ok in Hp; lia).
      apply lookup_take_lt. lia.
    + intros _. destruct l as [|b l]; [done|]. by apply H5.
Qed.

Lemma run_undos k s :
  pointer_ok s -> current_is_entry s -> 0 <= historyIndex s ->
  exists s', run s (replicate k Undo) = Some s'
    /\ annotationHistory s' = annotationHistory s
    /\ historyIndex s' = Z.max (historyIndex s - Z.of_nat k) 0
    /\ pointer_ok s' /\ current_is_entry s'.
Proof.
  revert s. induction k as [|k IH]; intros s Hp Hc H0.
  - exists s. cbn. split; [done|]. split; [done|]. split; [lia|done].
  - cbn [replicate run].
    destruct (handleUndo_spec s Hp Hc) as (s1 & H1 & Hh1 & Hi1 & _ & Hp1 & Hc1).
    cbn [step]. rewrite H1. cbn.
    assert (H01 : 0 <= historyIndex s1).
    { rewrite Hi1. destruct (Z.ltb_spec 0 (historyIndex s)); lia. }
    destruct (IH s1 Hp1 Hc1 H01) as (s' & Hr & Hh & Hi & Hp' & Hc').
    exists s'. split; [done|]. split; [congruence|]. split; [|done].
    rewrite Hi, Hi1. destruct (Z.ltb_spec 0 (historyIndex s)); lia.
Qed.

(** C1.  Evaluation of the code where the claim fails.  A wrapper mounted
    with no annotations has an empty history; after the N >= 1 additions
    [a :: rest] and N undos the store holds the first annotation [a] and is
    not empty: the empty list was never pushed on the history, so the pointer
    stops at the snapshot taken after the first addition. *)
Theorem empty_store_add_undo_keeps_first
        (a : annotation) (rest : list annotation) :
  exists s',
    run (mount []) (map Add (a :: rest) ++ replicate (length (a :: rest)) Undo)
      = Some s'
    /\ annotations s' = [a].
Proof.
  rewrite run_app, run_adds. cbn [mbind option_bind].
  set (s0 := handleAnnotationAdd (mount []) a).
  assert (Hp0 : pointer_ok s0) by (unfold pointer_ok; cbn; lia).
  cbn [fold_left]. fold s0.
  destruct (adds_spec rest s0 Hp0) as (Hp & Hi & Ha & H0 & Hc).
  set (s1 := fold_left handleAnnotationAdd rest s0) in *.
  assert (Hc1 : current_is_entry s1).
  { destruct rest as [|b rest]; [|by apply Hc].
    subst s1. cbn. unfold current_is_entry. cbn. done. }
  assert (Hi0 : historyIndex s0 = 0) by done.
  destruct (run_undos (length (a :: rest)) s1 Hp Hc1 ltac:(lia))
    as (s' & Hr & Hh & Hi' & Hp' & Hc').
  exists s'. split; [done|].
  assert (Hidx : historyIndex s' = 0).
  { rewrite Hi', Hi, Hi0. cbn [length]. lia. }
  unfold current_is_entry in Hc'. rewrite Hidx, Hh in Hc'.
  specialize (Hc' ltac:(lia)). rewrite index_lookup in Hc' by lia.
  change (Z.to_nat 0) with 0%nat in Hc'.
  rewrite H0 in Hc' by (rewrite Hi0; lia). 
  assert (Hh0 : annotationHistory s0 = [[a]]) by reflexivity.
  rewrite Hh0 in Hc'. cbn in Hc'. congruence.
Qed.

(** With a seeded history the same sequence gives back the initial list. *)
Lemma seeded_store_add_undo_restores (init : list annotation) (l : list annotation) :
  init <> [] ->
  exists s', run (mount init) (map Add l ++ replicate (length l) Undo) = Some s'
    /\ annotations s' = init.
Proof.
  intros Hne.
  rewrite run_app, run_adds. cbn [mbind option_bind].
  destruct (mount_ok init) as [Hp0 Hc0].
  destruct (adds_spec l (mount init) Hp0) as (Hp & Hi & Ha & H0 & Hc).
  set (s1 := fold_left handleAnnotationAdd l (mount init)) in *.
  assert (Hm : mount init = mkState init [init] 0).
  { unfold mount. destruct init; [done|]. done. }
  assert (Hc1 : current_is_entry s1).
  { destruct l as [|b l]; [|by apply Hc]. subst s1. cbn. done. }
  rewrite Hm in Hi, H0. cbn in Hi, H0.
  destruct (run_undos (length l) s1 Hp Hc1 ltac:(lia))
    as (s' & Hr & Hh & Hi' & Hp' & Hc').
  exists s'. split; [done|].
  assert (Hidx : historyIndex s' = 0).
  { rewrite Hi', Hi. lia. }
  unfold current_is_entry in Hc'. rewrite Hidx, Hh in Hc'.
  specialize (Hc' ltac:(lia)). rewrite index_lookup in Hc' by lia.
  change (Z.to_nat 0) with 0%nat in Hc'.
  rewrite H0 in Hc' by lia. cbn in Hc'. congruence.
Qed.

End WrapperHistory.

Section ImageHistory.
Import ImageProcessing.
Context {image : Type}.
Implicit Type s : state image.




End ImageHistory.

Section HistoryStack.
Import AnnotationWrapper.



(** C2 (amended).  In every reachable state with a non-empty history, undo
    followed by redo both return; when the pointer is above 0, or the history
    has a single entry, they give back the very same state, hence the same
    annotation list.  When the pointer is 0 and the history is longer, undo
    changes nothing and redo moves to the entry at index 1. *)
Theorem undo_redo_identity_above_zero (s : state) :
  reachable s -> annotationHistory s <> [] ->
  exists s1 s2,
    handleUndo s = Some s1 /\ handleRedo s1 = Some s2
    /\ (0 < historyIndex s \/ length (annotationHistory s) = 1%nat ->
        annotations s2 = annotations s /\ s2 = s)
    /\ (historyIndex s = 0 -> (1 < length (annotationHistory s))%nat ->
        s1 = s /\ JS.index (annotationHistory s) 1 = Some (annotations s2)).
Proof.
  intros Hr Hne. destruct (reachable_ok s Hr) as [Hp Hc].
  assert (Hlen : (0 < length (annotationHistory s))%nat)
    by (destruct (annotationHistory s); [done|cbn; lia]).
  assert (H0 : 0 <= historyIndex s) by (unfold pointer_ok in Hp; lia).
  assert (Hlt : historyIndex s < Z.of_nat (length (annotationHistory s)))
    by (unfold pointer_ok in Hp; lia).
  unfold handleUndo.
  destruct (Z.ltb_spec 0 (historyIndex s)) as [Hpos|Hzero].
  - (* the pointer moves down, then back up *)
    destruct (lookup_lt_is_Some_2 (annotationHistory s)
                (Z.to_nat (historyIndex s - 1))) as [snap Hsnap]; [lia|].
    rewrite index_lookup by lia. rewrite Hsnap. cbn [mbind option_bind].
    exists (mkState snap (annotationHistory s) (historyIndex s - 1)).
    unfold handleRedo. cbn [historyIndex annotationHistory].
    destruct (Z.ltb_spec (historyIndex s - 1)
                (Z.of_nat (length (annotationHistory s)) - 1)); [|lia].
    cbv zeta.
    replace (historyIndex s - 1 + 1) with (historyIndex s) by lia.
    rewrite (Hc H0). cbn [mbind option_bind].
    eexists. split; [reflexivity|]. split; [reflexivity|].
    split; [|lia]. intros _. cbn. split; [done|]. by destruct s.
  - (* undo does nothing *)
    assert (Hz : historyIndex s = 0) by lia.
    exists s. unfold handleRedo.
    destruct (Z.ltb_spec (historyIndex s)
                (Z.of_nat (length (annotationHistory s)) - 1)) as [Hmore|Hlast].
    + destruct (lookup_lt_is_Some_2 (annotationHistory s)
                  (Z.to_nat (historyIndex s + 1))) as [snap Hsnap]; [lia|].
      rewrite index_lookup by lia. rewrite Hsnap. cbn [mbind option_bind].
      eexists. split; [reflexivity|]. split; [reflexivity|].
      split; [intros [?|?]; lia|].
      intros _ _. split; [done|]. cbn [annotations].
      rewrite index_lookup by lia. rewrite Hz in Hsnap. exact Hsnap.
    + exists s. split; [reflexivity|]. split; [reflexivity|].
      split; [done|]. intros _ ?. lia.
Qed.

Lemma undo_redo_identity_above_zero_witness :
  let s := handleAnnotationAdd (handleAnnotationAdd (mount []) (leader_at 1))
                               (leader_at 2) in
  historyIndex s = 1 /\
  exists s1 s2,
    handleUndo s = Some s1 /\ handleRedo s1 = Some s2
    /\ (0 < historyIndex s \/ length (annotationHistory s) = 1%nat ->
        annotations s2 = annotations s /\ s2 = s)
    /\ (historyIndex s = 0 -> (1 < length (annotationHistory s))%nat ->
        s1 = s /\ JS.index (annotationHistory s) 1 = Some (annotations s2)).
Proof.
  intros s. split; [reflexivity|].
  apply (undo_redo_identity_above_zero s).
  - apply (reach_step (handleAnnotationAdd (mount []) (leader_at 1))
             (Add (leader_at 2))); [|reflexivity].
    apply (reach_step (mount []) (Add (leader_at 1))); [|reflexivity].
    apply (reach_mount []).
  - discriminate.
Defined.

(** C2 as stated fails: after two additions and one undo the state is
    reachable, its history has two entries and its pointer is 0; undo then
    redo return, and the annotation list they leave is not the list before
    them. *)
Lemma undo_redo_changes_list_at_pointer_zero :
  exists s s1 s2 : state,
    reachable s
    /\ run (mount []) [Add (leader_at 1); Add (leader_at 2); Undo] = Some s
    /\ annotationHistory s <> []
    /\ historyIndex s = 0
    /\ handleUndo s = Some s1
    /\ handleRedo s1 = Some s2
    /\ annotations s2 <> annotations s.
Proof.
  pose (a1 := leader_at 1). pose (a2 := leader_at 2).
  exists (mkState [a1] [[a1]; [a1; a2]] 0),
         (mkState [a1] [[a1]; [a1; a2]] 0),
         (mkState [a1; a2] [[a1]; [a1; a2]] 1).
  split.
  { apply (reach_step (mkState [a1; a2] [[a1]; [a1; a2]] 1) Undo);
      [|reflexivity].
    apply (reach_step (mkState [a1] [[a1]] 0) (Add a2)); [|reflexivity].
    apply (reach_step (mount []) (Add a1)); [|reflexivity].
    apply (reach_mount []). }
  repeat split; try reflexivity; discriminate.
Qed.

End HistoryStack.

(* ================================================================== *)
(** * The canvas tools                                                 *)
(* ================================================================== *)

Section CanvasTools.
Import JS AnnotationCanvas.
Local Open Scope string_scope.

Variable Number_toString : float -> string.

Lemma produced_app out1 out2 :
  produced (out1 ++ out2) = (produced out1 ++ produced out2)%list.
Proof. apply omap_app. Qed.

Lemma dispatch_all_app l evs1 evs2 : forall s,
  dispatch_all Number_toString l s (evs1 ++ evs2) =
    let '(s1, out1, errs1) := dispatch_all Number_toString l s evs1 in
    let '(s2, out2, errs2) := dispatch_all Number_toString l s1 evs2 in
    (s2, (out1 ++ out2)%list, (errs1 ++ errs2)%list).
Proof.
  induction evs1 as [|ev evs1 IH]; intros s.
  - cbn. by destruct (dispatch_all Number_toString l s evs2) as [[? ?] ?].
  - cbn [app dispatch_all].
    destruct (dispatch Number_toString l s ev) as [[r sa] outa].
    rewrite IH.
    destruct (dispatch_all Number_toString l sa evs1) as [[sb outb] errb].
    destruct (dispatch_all Number_toString l sb evs2) as [[sc outc] errc].
    rewrite app_assoc. by destruct r.
Qed.

Lemma handled_afresh_app pr evs1 evs2 : forall s,
  handled_afresh Number_toString pr s (evs1 ++ evs2) =
    let '(s1, out1, errs1) := handled_afresh Number_toString pr s evs1 in
    let '(s2, out2, errs2) := handled_afresh Number_toString pr s1 evs2 in
    (s2, (out1 ++ out2)%list, (errs1 ++ errs2)%list).
Proof.
  induction evs1 as [|ev evs1 IH]; intros s.
  - cbn. by destruct (handled_afresh Number_toString pr s evs2) as [[? ?] ?].
  - cbn [app handled_afresh].
    destruct (dispatch Number_toString (mkListeners pr s) s ev)
      as [[r sa] outa].
    rewrite IH.
    destruct (handled_afresh Number_toString pr sa evs1) as [[sb outb] errb].
    destruct (handled_afresh Number_toString pr sb evs2) as [[sc outc] errc].
    rewrite app_assoc. by destruct r.
Qed.

(** Drawing the cloud in progress changes the canvas only, and produces no
    record. *)
Lemma drawRevisionCloud_spec pr render s0 :
  exists s1 out,
    drawRevisionCloud pr render s0 = (Normal tt, s1, out)
    /\ isDrawing s1 = isDrawing s0
    /\ drawingPoints s1 = drawingPoints s0
    /\ produced out = [].
Proof.
  unfold drawRevisionCloud.
  destruct (length (drawingPoints render) <? 2)%nat; [by eexists _, _|].
  destruct (currentAnnotation render) as [cur|] eqn:Ecur;
    [destruct (ann_objects cur) as [|[first|] rest] eqn:Eobjs|];
    try (by eexists _, _).
  unfold canvas_remove, handleObjectRemoved, bind, canvas_getObjects, modify,
    new, canvas_add, emit, ret. rewrite Ecur.
  destruct (on_canvas first (canvasObjects s0)); [|by eexists _, _].
  destruct (includes (ann_objects cur) first); by eexists _, _.
Qed.

(** A move of the pointer runs the closure of the first render, in which
    [isDrawing] is false: it returns at once. *)
Lemma mounted_moves_idle pr ps : forall s,
  dispatch_all Number_toString (mounted pr) s (map MouseMove ps) = (s, [], []).
Proof.
  induction ps as [|p ps IH]; intros s; [done|].
  cbn [map dispatch_all dispatch mounted creation_props creation_render].
  unfold handleCanvasMouseMove. cbn [isDrawing initial negb orb ret].
  by rewrite IH.
Qed.

Section Cloud.
Variable pr : props.
Hypothesis Htool : activeTool pr = Some "revision-cloud".
Hypothesis Hrw : isReadOnly pr = false.

(** The registered closures: the press starts the drawing with its point,
    and the release finds no point in [drawingPoints] of the first render. *)
Lemma mounted_cloud_press s now p :
  dispatch Number_toString (mounted pr) s (MouseDown now p)
  = (Normal tt,
     mkCanvas true [p] (dimensionStart s) (dimensionEnd s)
              (currentAnnotation s) (canvasObjects s) (nextRef s),
     []).
Proof.
  cbn [dispatch mounted creation_props creation_render].
  unfold handleCanvasMouseDown. by rewrite Htool, Hrw.
Qed.

Lemma mounted_cloud_release s now :
  dispatch Number_toString (mounted pr) s (MouseUp now)
  = (Normal tt,
     mkCanvas false (drawingPoints s) (dimensionStart s) (dimensionEnd s)
              (currentAnnotation s) (canvasObjects s) (nextRef s),
     []).
Proof.
  cbn [dispatch mounted creation_props creation_render].
  unfold handleCanvasMouseUp. by rewrite Htool.
Qed.

(** The closures of the latest render. *)
Lemma cloud_mouse_down s now p :
  exists s1,
    dispatch Number_toString (mkListeners pr s) s (MouseDown now p)
    = (Normal tt, s1, [])
    /\ isDrawing s1 = true /\ drawingPoints s1 = [p].
Proof.
  cbn [dispatch creation_props creation_render].
  unfold handleCanvasMouseDown. rewrite Htool, Hrw. cbn.
  by eexists.
Qed.

Lemma cloud_mouse_move s p :
  isDrawing s = true ->
  exists s1 out,
    dispatch Number_toString (mkListeners pr s) s (MouseMove p)
    = (Normal tt, s1, out)
    /\ isDrawing s1 = true
    /\ drawingPoints s1 = (drawingPoints s ++ [p])%list
    /\ produced out = [].
Proof.
  intros Hd. cbn [dispatch creation_props creation_render].
  unfold handleCanvasMouseMove.
  rewrite Htool, Hd. cbn [negb orb truthy is_tool String.eqb Ascii.eqb Bool.eqb].
  unfold bind at 1. unfold setDrawingPoints, modify at 1.
  match goal with
  | |- context [drawRevisionCloud pr s ?s0] =>
      destruct (drawRevisionCloud_spec pr s s0) as (s1 & out & -> & H1 & H2 & H3)
  end.
  exists s1, out. cbn in H1, H2. rewrite H1, H2, Hd. done.
Qed.

Lemma cloud_mouse_moves ps : forall s,
  isDrawing s = true ->
  exists s1 out,
    handled_afresh Number_toString pr s (map MouseMove ps) = (s1, out, [])
    /\ isDrawing s1 = true
    /\ drawingPoints s1 = (drawingPoints s ++ ps)%list
    /\ produced out = [].
Proof.
  induction ps as [|p ps IH]; intros s Hd.
  - exists s, []. cbn. by rewrite app_nil_r.
  - destruct (cloud_mouse_move s p Hd) as (s1 & out1 & E1 & Hd1 & Hp1 & Ho1).
    destruct (IH s1 Hd1) as (s2 & out2 & E2 & Hd2 & Hp2 & Ho2).
    exists s2, (out1 ++ out2)%list.
    cbn [map handled_afresh]. rewrite E1, E2.
    split; [done|]. split; [done|].
    split; [by rewrite Hp2, Hp1, <- app_assoc|].
    by rewrite produced_app, Ho1, Ho2.
Qed.

Lemma cloud_mouse_up s now :
  exists s1 out,
    dispatch Number_toString (mkListeners pr s) s (MouseUp now)
    = (Normal tt, s1, out)
    /\ ((length (drawingPoints s) < 3)%nat -> out = [])
    /\ ((3 <= length (drawingPoints s))%nat ->
        exists a, out = [EmitAdd a]
                  /\ ann_id a = now
                  /\ ann_type a = "revision-cloud"
                  /\ ann_data a = RevisionCloudData (drawingPoints s)).
Proof.
  cbn [dispatch creation_props creation_render].
  unfold handleCanvasMouseUp. rewrite Htool.
  cbn [is_tool String.eqb Ascii.eqb Bool.eqb].
  unfold finalizeRevisionCloud.
  destruct (Nat.ltb_spec (length (drawingPoints s)) 3) as [Hlt|Hge].
  - eexists _, _. split; [reflexivity|]. split; [done|]. lia.
  - eexists _, _. split; [reflexivity|]. split; [lia|].
    intros _. eexists. split; [reflexivity|]. done.
Qed.

(** What the three handler bodies are written to do: were every event
    handled by the closure of the latest render, a press, the moves and a
    release would throw nothing, produce no record for fewer than 3 collected
    points, and for 3 points or more produce one record that holds every
    collected point. *)
Lemma latest_closures_collect_the_drag
      (s : canvasState) (t0 t1 : Z) (p0 : point) (ps : list point) :
  let collected := p0 :: ps in
  let result :=
    handled_afresh Number_toString pr s
      (MouseDown t0 p0 :: map MouseMove ps ++ [MouseUp t1]) in
  result.2 = []
  /\ ((length collected < 3)%nat -> produced result.1.2 = [])
  /\ ((3 <= length collected)%nat ->
      exists a, produced result.1.2 = [a]
                /\ ann_type a = "revision-cloud"
                /\ ann_data a = RevisionCloudData collected).
Proof.
  intros collected result. subst result.
  destruct (cloud_mouse_down s t0 p0) as (s1 & E1 & Hd1 & Hp1).
  destruct (cloud_mouse_moves ps s1 Hd1) as (s2 & out2 & E2 & Hd2 & Hp2 & Ho2).
  destruct (cloud_mouse_up s2 t1) as (s3 & out3 & E3 & Hfew & Henough).
  assert (Hall : handled_afresh Number_toString pr s1
                   (map MouseMove ps ++ [MouseUp t1])
                 = (s3, (out2 ++ out3)%list, [])).
  { rewrite handled_afresh_app, E2. cbn [handled_afresh]. rewrite E3.
    by rewrite app_nil_r. }
  cbn [handled_afresh]. rewrite E1, Hall. cbn [fst snd app].
  rewrite Hp2, Hp1 in Hfew, Henough. change ([p0] ++ ps)%list with collected in *.
  split; [done|]. rewrite produced_app, Ho2. cbn [app].
  split.
  - intros Hlt. by rewrite (Hfew Hlt).
  - intros Hge. destruct (Henough Hge) as (a & -> & _ & Ht & Hdata).
    exists a. done.
Qed.

End Cloud.

(** C7.  Evaluation of the code where the claim fails.  On a canvas that
    mounted with the revision-cloud tool, a press at [p0], any moves and a
    release throw nothing and call no callback: no record is produced,
    however many points the pointer went through (5, for instance).  The
    moves are ignored by the registered move handler, in whose render
    [isDrawing] is false, so the component collects the point of the press
    only, and the registered release handler reads the empty point list of
    its render.  Nothing is drawn either. *)
Theorem revision_cloud_drag_collects_only_the_press
        (st : Styles) (s : canvasState) (t0 t1 : Z) (p0 : point)
        (ps : list point) :
  dispatch_all Number_toString
    (mounted (mkProps (Some "revision-cloud") st false)) s
    (MouseDown t0 p0 :: map MouseMove ps ++ [MouseUp t1])
  = (mkCanvas false [p0] (dimensionStart s) (dimensionEnd s)
              (currentAnnotation s) (canvasObjects s) (nextRef s),
     [], []).
Proof.
  set (pr := mkProps (Some "revision-cloud") st false).
  cbn [dispatch_all].
  rewrite (mounted_cloud_press pr eq_refl eq_refl).
  rewrite dispatch_all_app, mounted_moves_idle.
  cbn [dispatch_all]. by rewrite (mounted_cloud_release pr eq_refl).
Qed.

Lemma ids_are_bind {A B} now (m : M A) (k : A -> M B) :
  ids_are now m -> (forall v, ids_are now (k v)) -> ids_are now (bind m k).
Proof.
  intros Hm Hk s a. unfold bind.
  specialize (Hm s a).
  destruct (m s) as [[[v|e] s1] out1]; cbn in *; [|done].
  specialize (Hk v s1 a).
  destruct (k v s1) as [[r s2] out2]; cbn in *.
  rewrite produced_app, elem_of_app. intros [?|?]; auto.
Qed.

Lemma ids_are_silent {A} now (m : M A) :
  (forall s, produced (m s).2 = []) -> ids_are now m.
Proof. intros H s a. rewrite H. by intros ?%elem_of_nil. Qed.

Lemma ids_are_emit_add now a : ann_id a = now -> ids_are now (emit (EmitAdd a)).
Proof. intros H s b. cbn. by intros ->%list_elem_of_singleton. Qed.

Ltac silent := apply ids_are_silent; intros; reflexivity.

Ltac ids :=
  repeat first
    [ apply ids_are_bind; [|intros ?]
    | apply ids_are_emit_add; reflexivity
    | silent ].

Lemma ids_are_for_each {A} now (body : A -> Z -> M A) idxs :
  (forall acc i, ids_are now (body acc i)) ->
  forall acc, ids_are now (for_each body acc idxs).
Proof.
  intros Hb. induction idxs as [|i idxs IH]; intros acc; cbn [for_each].
  - silent.
  - apply ids_are_bind; [apply Hb|apply IH].
Qed.

Lemma ids_are_lift {A} now (c : completion A) : ids_are now (lift c).
Proof. silent. Qed.

Section Tools.
Variables (pr : props) (render : canvasState) (now : Z) (p : point).

Lemma createDimension_ids :
  ids_are now (createDimension Number_toString pr render now p).
Proof.
  unfold createDimension. destruct (dimensionStart render); [|silent].
  cbv zeta. ids.
Qed.

Lemma createCircleDimension_ids :
  ids_are now (createCircleDimension pr now p).
Proof. unfold createCircleDimension. cbv zeta. ids. Qed.

Lemma createLeader_ids : ids_are now (createLeader pr now p).
Proof. unfold createLeader. cbv zeta. ids. Qed.

Lemma createCenterline_ids : ids_are now (createCenterline pr render now p).
Proof.
  unfold createCenterline. destruct (dimensionStart render); [|silent].
  cbv zeta. ids.
Qed.

Lemma hatch_line_ids coords acc i : ids_are now (hatch_line pr coords acc i).
Proof.
  unfold hatch_line. destruct (coords i) as [[[? ?] ?] ?]. ids.
Qed.

Lemma createHatchPattern_ids : ids_are now (createHatchPattern pr now p).
Proof.
  unfold createHatchPattern. cbv zeta.
  apply ids_are_bind.
  { apply ids_are_for_each. intros acc i. apply hatch_line_ids. }
  intros lines. apply ids_are_bind.
  { apply ids_are_for_each. intros acc i. apply hatch_line_ids. }
  intros lines'. ids.
Qed.

Lemma finalizeRevisionCloud_ids :
  ids_are now (finalizeRevisionCloud pr render now).
Proof.
  unfold finalizeRevisionCloud.
  destruct (_ <? _)%nat; [silent|]. cbv zeta. ids.
Qed.

Lemma handleCanvasMouseDown_ids :
  ids_are now (handleCanvasMouseDown Number_toString pr render now p).
Proof.
  unfold handleCanvasMouseDown.
  repeat match goal with
         | |- ids_are _ (if ?c then _ else _) => destruct c
         | |- ids_are _ (match dimensionStart render with _ => _ end) =>
             destruct (dimensionStart render) eqn:?
         end;
    first [ silent
          | apply createCircleDimension_ids
          | apply createLeader_ids
          | apply createCenterline_ids
          | apply createHatchPattern_ids
          | apply ids_are_bind; [silent|intros _; apply createDimension_ids] ].
Qed.

Lemma handleCanvasMouseUp_ids : ids_are now (handleCanvasMouseUp pr render now).
Proof.
  unfold handleCanvasMouseUp. destruct (is_tool _ _); [|silent].
  apply ids_are_bind; [silent|intros _; apply finalizeRevisionCloud_ids].
Qed.

End Tools.

Lemma handleCanvasMouseMove_silent pr render p s :
  produced (handleCanvasMouseMove pr render p s).2 = [].
Proof.
  unfold handleCanvasMouseMove.
  destruct (_ || _); [done|]. destruct (is_tool _ _); [|done].
  unfold bind at 1. unfold setDrawingPoints, modify at 1.
  match goal with
  | |- context [drawRevisionCloud pr render ?s0] =>
      destruct (drawRevisionCloud_spec pr render s0) as (s1 & out & -> & _ & _ & H)
  end.
  done.
Qed.

Lemma handleObjectModified_emits render o s e :
  e ∈ (handleObjectModified render o s).2 ->
  exists cur, currentAnnotation render = Some cur
              /\ exists a, e = EmitUpdate (ann_id cur) a
                           /\ ann_id a = ann_id cur
                           /\ ann_data a = ann_data cur.
Proof.
  unfold handleObjectModified.
  destruct (currentAnnotation render) as [cur|]; [|by intros ?%elem_of_nil].
  destruct (includes _ _); [|by intros ?%elem_of_nil].
  cbn. intros ->%list_elem_of_singleton. eauto 6.
Qed.

Lemma handleObjectRemoved_silent render o s :
  produced (handleObjectRemoved render o s).2 = [].
Proof.
  unfold handleObjectRemoved.
  destruct (currentAnnotation render) as [cur|]; [|done].
  by destruct (includes _ _).
Qed.

Lemma handleObjectModified_silent render o s :
  produced (handleObjectModified render o s).2 = [].
Proof.
  unfold handleObjectModified.
  destruct (currentAnnotation render) as [cur|]; [|done].
  by destruct (includes _ _).
Qed.

Lemma dispatch_ids l s ev a :
  a ∈ produced (dispatch Number_toString l s ev).2 ->
  event_clock ev = Some (ann_id a).
Proof.
  destruct ev as [now p|p|now|o|o]; cbn [dispatch event_clock].
  - intros H. by rewrite (handleCanvasMouseDown_ids _ _ now p s a H).
  - rewrite handleCanvasMouseMove_silent. by intros ?%elem_of_nil.
  - intros H. by rewrite (handleCanvasMouseUp_ids _ _ now s a H).
  - rewrite handleObjectModified_silent. by intros ?%elem_of_nil.
  - rewrite handleObjectRemoved_silent. by intros ?%elem_of_nil.
Qed.

End CanvasTools.

Section AnnotationIds.
Import JS AnnotationCanvas.
Local Open Scope string_scope.

Lemma update_keeps_ids (w : AnnotationWrapper.state) (i : Z) (a : annotation) :
  ann_id a = i ->
  map ann_id (AnnotationWrapper.annotations
                (AnnotationWrapper.handleAnnotationUpdate w i a))
  = map ann_id (AnnotationWrapper.annotations w).
Proof.
  intros Ha. cbn. rewrite map_map. apply map_ext. intros b.
  destruct (Z.eqb_spec (ann_id b) i); congruence.
Qed.

(** C4 (amended).  The id of every annotation record a canvas event
    produces is the clock value read at creation, with no suffix; records
    produced at different clock values have different ids; an update coming
    from the canvas carries the id of the record it replaces and leaves the
    ids in the store as they were; the id of a capture starts with the clock
    value (a random suffix follows).  This holds whichever render's closures
    are registered on the canvas. *)
Theorem annotation_id_is_creation_clock
        (Number_toString : float -> string) :
  (forall l s ev a,
      a ∈ produced (dispatch Number_toString l s ev).2 ->
      event_clock ev = Some (ann_id a))
  /\ (forall l1 l2 s1 s2 ev1 ev2 a1 a2,
         a1 ∈ produced (dispatch Number_toString l1 s1 ev1).2 ->
         a2 ∈ produced (dispatch Number_toString l2 s2 ev2).2 ->
         event_clock ev1 <> event_clock ev2 ->
         ann_id a1 <> ann_id a2)
  /\ (forall l s o e w,
         e ∈ (dispatch Number_toString l s (ObjectModified o)).2 ->
         exists cur a,
           currentAnnotation (creation_render l) = Some cur
           /\ e = EmitUpdate (ann_id cur) a
           /\ ann_id a = ann_id cur
           /\ map ann_id (AnnotationWrapper.annotations
                            (AnnotationSystem.callback w e))
              = map ann_id (AnnotationWrapper.annotations w))
  /\ (forall now random36,
         String.prefix (digits now) (CaptureManager.captureId now random36)
         = true).
Proof.
  split; [intros l s ev a; apply dispatch_ids|].
  split.
  { intros l1 l2 s1 s2 ev1 ev2 a1 a2 H1%dispatch_ids H2%dispatch_ids Hne Heq.
    apply Hne. by rewrite H1, H2, Heq. }
  split.
  { intros l s o e w He. cbn [dispatch] in He.
    destruct (handleObjectModified_emits _ o s e He)
      as (cur & Hcur & a & -> & Ha & _).
    exists cur, a. repeat split; try done.
    cbn [AnnotationSystem.callback]. by apply update_keeps_ids. }
  intros now random36. unfold CaptureManager.captureId.
  induction (digits now) as [|c d IH]; cbn.
  - by destruct (String.substring 2 9 random36).
  - destruct (ascii_dec c c); [apply IH|done].
Qed.

Lemma annotation_id_is_creation_clock_witness :
  exists a,
    produced (dispatch plain_toString (mounted leader_props) initial
                (MouseDown 1700000000000 (mkPoint 10 20))).2 = [a]
    /\ event_clock (MouseDown 1700000000000 (mkPoint 10 20))
       = Some (ann_id a).
Proof.
  eexists. split; [reflexivity|].
  apply (proj1 (annotation_id_is_creation_clock plain_toString)
               (mounted leader_props) initial).
  vm_compute. apply list_elem_of_here.
Defined.

(** C4 as stated fails: two leaders placed at the same clock value are
    two records of one session with the same id. *)
Lemma same_clock_value_same_id :
  exists a1 a2 : annotation,
    produced (dispatch_all plain_toString (mounted leader_props) initial
                [MouseDown 1700000000000 (mkPoint 10 20);
                 MouseDown 1700000000000 (mkPoint 30 40)]).1.2 = [a1; a2]
    /\ a1 <> a2
    /\ ann_id a1 = ann_id a2.
Proof.
  eexists _, _. split; [vm_compute; reflexivity|].
  split; [|reflexivity].
  intros H. apply (f_equal ann_objects) in H. discriminate H.
Qed.

End AnnotationIds.

Section Dimensions.
Import JS AnnotationCanvas.
Local Open Scope string_scope.

(** What [createDimension] builds, for a precision [toFixed] accepts. *)
Lemma createDimension_spec (Number_toString : float -> string) (pr : props)
      (render s : canvasState) (now : Z) (start end_ : point) :
  dimensionStart render = Some start ->
  let distance :=
    Math_sqrt (Math_pow2 (point_x end_ - point_x start)
               + Math_pow2 (point_y end_ - point_y start))%float in
  let digits_shown := or_num (dimensionPrecision (styles pr)) 2 in
  forall label,
    toFixed Number_toString distance digits_shown = Normal label ->
    exists s' a line left top size fill,
      createDimension Number_toString pr render now end_ s
      = (Normal tt, s', [EmitAdd a])
      /\ ann_data a = DimensionData start end_ distance
      /\ ann_type a = "dimension"
      /\ ann_objects a
         = [Some line;
            Some (mkObject (S (nextRef s))
                           (Text (label ++ "px") left top size fill))].
Proof.
  intros Hstart distance digits_shown label Hlabel.
  unfold createDimension. rewrite Hstart. cbv zeta.
  fold distance. unfold st. fold digits_shown.
  unfold bind at 1. cbn [new].
  unfold bind at 1. unfold lift at 1. rewrite Hlabel.
  by eexists _, _, _, _, _, _, _.
Qed.

(** What the handler bodies are written to do: were the second click
    handled by the closure of the latest render, the clicks (0,0) and (3,4)
    would produce a dimension of distance 5 whose text reads 5.00px. *)
Lemma latest_closures_measure_3_4 (Number_toString : float -> string) :
  let result :=
    handled_afresh Number_toString
                   (linear_props AnnotationSystem.defaultStyles) initial
                   clicks_3_4 in
  result.1.2
  = [EmitAdd (dimension_3_4 "5.00px" AnnotationSystem.defaultStyles)]
  /\ result.2 = [].
Proof. split; vm_compute; reflexivity. Qed.

(** The press of a dimension tool on a canvas that mounted with the tool:
    the registered closure has no start point, so the press is stored as the
    start. *)
Lemma mounted_dimension_press (Number_toString : float -> string)
      (tool : string) (st : Styles) (s : canvasState) (now : Z) (p : point) :
  tool = "linear" \/ tool = "aligned" \/ tool = "angular" ->
  dispatch Number_toString (mounted (mkProps (Some tool) st false)) s
           (MouseDown now p)
  = (Normal tt,
     mkCanvas (isDrawing s) (drawingPoints s) (Some p) (dimensionEnd s)
              (currentAnnotation s) (canvasObjects s) (nextRef s),
     []).
Proof. by intros [->|[->| ->]]. Qed.

(** C6.  Evaluation of the code where the claim fails.  On a canvas that
    mounted with a dimension tool (linear, aligned or angular), no sequence of
    clicks produces a dimension: every click is handled by the closure of the
    first render, in which [dimensionStart] is [null], so every click, the
    second one too, is stored as a start point.  No callback is called,
    nothing is thrown and nothing is drawn; after the clicks (0,0) and (3,4)
    there is no record with distance 5 and no text 5.00. *)
Theorem dimension_clicks_only_move_the_start
        (Number_toString : float -> string) (tool : string) (st : Styles)
        (s : canvasState) (clicks : list (Z * point)) :
  tool = "linear" \/ tool = "aligned" \/ tool = "angular" ->
  dispatch_all Number_toString (mounted (mkProps (Some tool) st false)) s
               (map (fun click => MouseDown click.1 click.2) clicks)
  = (mkCanvas (isDrawing s) (drawingPoints s)
              (match last clicks with
               | Some click => Some click.2
               | None => dimensionStart s
               end)
              (dimensionEnd s) (currentAnnotation s) (canvasObjects s)
              (nextRef s),
     [], []).
Proof.
  intros Htool. revert s.
  induction clicks as [|[now p] clicks IH]; intros s.
  - by destruct s.
  - cbn [map dispatch_all fst snd].
    rewrite (mounted_dimension_press Number_toString tool st s now p Htool).
    rewrite IH. cbn [isDrawing drawingPoints dimensionStart dimensionEnd
                     currentAnnotation canvasObjects nextRef app].
    destruct clicks as [|click' clicks]; [reflexivity|].
    change (last ((now, p) :: click' :: clicks)) with (last (click' :: clicks)).
    destruct (last (click' :: clicks)) eqn:E; [reflexivity|].
    by apply last_None in E.
Qed.

Lemma dimension_clicks_only_move_the_start_witness :
  dispatch_all plain_toString
               (mounted (linear_props AnnotationSystem.defaultStyles)) initial
               clicks_3_4
  = (mkCanvas false [] (Some (mkPoint 3 4)) None None [] 0, [], []).
Proof.
  exact (dimension_clicks_only_move_the_start plain_toString "linear"
           AnnotationSystem.defaultStyles initial
           [(1000, mkPoint 0 0); (2000, mkPoint 3 4)] (or_introl eq_refl)).
Defined.

End Dimensions.

Section StoreAndCanvas.
Import AnnotationSystem.
Local Open Scope string_scope.

(** C3.  Evaluation of the code where the claim fails.  The leader tool is
    selected and the wrapper is minimised and restored, so that a canvas
    mounts with the tool.  A click at (10,20) creates a leader, and the
    leader is then deleted from the manager's list: the store is empty
    afterwards, but the line and the arrow of the leader are still on the
    fabric canvas (with the copies the "Load existing annotations" effect
    made of them), so the canvas shows shapes that no record owns. *)
Theorem manager_delete_leaves_shapes_on_canvas
        (Number_toString : float -> string) :
  let created :=
    run Number_toString initial
        [SelectTool "leader"; ToggleMinimized; ToggleMinimized;
         OnCanvas (C.MouseDown 2000 (mkPoint 10 20)); ToggleManager] in
  let final :=
    created ≫= fun sys => step Number_toString sys (ManagerDelete 2000) in
  (W.annotations ∘ wrapper) <$> created = Some [leader_10_20]
  /\ (W.annotations ∘ wrapper) <$> final = Some []
  /\ (C.on_canvas leader_line_10_20 ∘ canvasObjects) <$> final = Some true
  /\ (C.on_canvas leader_arrow_10_20 ∘ canvasObjects) <$> final = Some true
  /\ (length ∘ canvasObjects) <$> final = Some 4%nat
  /\ consistent <$> final = Some false.
Proof. repeat split; vm_compute; reflexivity. Qed.

End StoreAndCanvas.

(* ================================================================== *)
(** * The pixel filters                                                *)
(* ================================================================== *)

Section PixelBuffers.
Import JS ImageProcessor.

Lemma store_length d i v : length (store d i v) = length d.
Proof. unfold store. destruct (i <? 0); [done|apply length_insert]. Qed.

Lemma store_lookup_ne d i v (j : nat) :
  Z.of_nat j <> i -> store d i v !! j = d !! j.
Proof.
  intros Hne. unfold store. destruct (Z.ltb_spec i 0); [done|].
  apply list_lookup_insert_ne. lia.
Qed.

Lemma store_lookup_eq d i v (j : nat) :
  Z.of_nat j = i -> (j < length d)%nat ->
  store d i v !! j = Some (ToUint8Clamp v).
Proof.
  intros <- Hlt. unfold store. destruct (Z.ltb_spec (Z.of_nat j) 0); [lia|].
  rewrite Nat2Z.id. by apply list_lookup_insert_eq.
Qed.

Lemma store_rgb_length d i r g b : length (store_rgb d i r g b) = length d.
Proof. unfold store_rgb. by rewrite !store_length. Qed.

Lemma store_rgb_lookup_ne d i r g b (j : nat) :
  Z.of_nat j <> i -> Z.of_nat j <> i + 1 -> Z.of_nat j <> i + 2 ->
  store_rgb d i r g b !! j = d !! j.
Proof.
  intros H0 H1 H2. unfold store_rgb. by rewrite !store_lookup_ne.
Qed.

Lemma store_rgb_lookup d i r g b (j : nat) :
  Z.of_nat j = i -> (j + 2 < length d)%nat ->
  store_rgb d i r g b !! j = Some (ToUint8Clamp r)
  /\ store_rgb d i r g b !! (j + 1)%nat = Some (ToUint8Clamp g)
  /\ store_rgb d i r g b !! (j + 2)%nat = Some (ToUint8Clamp b).
Proof.
  intros Hi Hlt. unfold store_rgb. repeat split.
  - rewrite !store_lookup_ne by lia. apply store_lookup_eq; [done|lia].
  - rewrite store_lookup_ne by lia.
    apply store_lookup_eq; [lia|rewrite store_length; lia].
  - apply store_lookup_eq; [lia|rewrite !store_length; lia].
Qed.

(** ** Alpha bytes *)

Lemma same_alpha_refl d : same_alpha d d.
Proof. by intros j _. Qed.

Lemma same_alpha_trans d1 d2 d3 :
  same_alpha d1 d2 -> same_alpha d2 d3 -> same_alpha d1 d3.
Proof. intros H12 H23 j Hj. by rewrite H23, H12. Qed.

Lemma store_alpha d i v : i mod 4 <> 3 -> same_alpha d (store d i v).
Proof.
  intros Hi j Hj. apply store_lookup_ne. intros <-.
  apply Hi. change 4 with (Z.of_nat 4). by rewrite <- Nat2Z.inj_mod, Hj.
Qed.

Lemma store_rgb_alpha d i r g b :
  i mod 4 = 0 -> same_alpha d (store_rgb d i r g b).
Proof.
  intros Hi. unfold store_rgb.
  eapply same_alpha_trans; [|apply store_alpha; Z.div_mod_to_equations; lia].
  eapply same_alpha_trans; [|apply store_alpha; Z.div_mod_to_equations; lia].
  apply store_alpha. lia.
Qed.

Lemma fold_left_alpha {I} (body : list Z -> I -> list Z) (P : I -> Prop) l :
  (forall d i, P i -> same_alpha d (body d i)) ->
  Forall P l ->
  forall d, same_alpha d (fold_left body l d).
Proof.
  intros Hb HP. induction HP as [|i l Hi _ IH]; intros d; cbn.
  - apply same_alpha_refl.
  - eapply same_alpha_trans; [apply Hb, Hi|apply IH].
Qed.

Lemma range_step_4 n : Forall (fun i => i mod 4 = 0) (range_step 0 n 4).
Proof.
  unfold range_step. apply Forall_map, Forall_forall. intros k _. cbn beta.
  rewrite Z.add_0_l, Z.mul_comm. apply Z.mod_mul. lia.
Qed.

Lemma each_pixel_alpha body :
  (forall d i, i mod 4 = 0 -> same_alpha d (body d i)) ->
  forall d, same_alpha d (each_pixel body d).
Proof.
  intros Hb d. unfold each_pixel.
  eapply fold_left_alpha; [exact Hb|apply range_step_4].
Qed.

Lemma for2_alpha ys xs (body : list Z -> Z -> Z -> list Z) :
  (forall d y x, same_alpha d (body d y x)) ->
  forall d, same_alpha d (for2 ys xs body d).
Proof.
  intros Hb d. unfold for2.
  apply (fold_left_alpha _ (fun _ => True)); [|by apply Forall_true].
  intros d' y _.
  apply (fold_left_alpha _ (fun _ => True)); [|by apply Forall_true].
  intros d'' x _. apply Hb.
Qed.

Lemma offset_mod img y x : offset img y x mod 4 = 0.
Proof. unfold offset. apply Z.mod_mul. lia. Qed.

Lemma channel_alpha (f : list Z -> Z -> float) d i :
  i mod 4 = 0 ->
  same_alpha d
    (let channel d i := store d i (f d i) in
     let d := channel d i in
     let d := channel d (i + 1) in
     channel d (i + 2)).
Proof.
  intros Hi. cbv zeta.
  eapply same_alpha_trans; [|apply store_alpha; Z.div_mod_to_equations; lia].
  eapply same_alpha_trans; [|apply store_alpha; Z.div_mod_to_equations; lia].
  apply store_alpha. lia.
Qed.

Lemma grayscale_alpha img : same_alpha (data img) (data (grayscale img)).
Proof.
  apply each_pixel_alpha. intros d i Hi. by apply store_rgb_alpha.
Qed.

Lemma invert_alpha img : same_alpha (data img) (data (invert img)).
Proof.
  apply each_pixel_alpha. intros d i Hi.
  by apply (channel_alpha (fun d i => (255 - rd d i)%float)).
Qed.

Lemma adjustBrightnessContrast_alpha b c img :
  same_alpha (data img) (data (adjustBrightnessContrast b c img)).
Proof.
  apply each_pixel_alpha. intros d i Hi.
  by apply (channel_alpha
              (fun d i => Math_max 0 (Math_min 255
                            ((rd d i - 128) * c + 128 + b))%float)).
Qed.

Lemma threshold_alpha v img : same_alpha (data img) (data (threshold v img)).
Proof.
  apply each_pixel_alpha. intros d i Hi. by apply store_rgb_alpha.
Qed.

Lemma histogramEqualization_alpha img :
  same_alpha (data img) (data (histogramEqualization img)).
Proof.
  apply each_pixel_alpha. intros d i Hi. by apply store_rgb_alpha.
Qed.

Ltac neighbourhood :=
  apply for2_alpha; intros d y x; cbv zeta;
  repeat match goal with
         | |- context [let '(_, _) := ?e in _] => destruct e
         end;
  apply store_rgb_alpha, offset_mod.

Lemma medianFilter_alpha k img :
  same_alpha (data img) (data (medianFilter k img)).
Proof. unfold medianFilter. cbn [data with_data]. neighbourhood. Qed.

Lemma sobelEdgeDetection_alpha img :
  same_alpha (data img) (data (sobelEdgeDetection img)).
Proof. unfold sobelEdgeDetection. cbn [data with_data]. neighbourhood. Qed.

Lemma noiseReduction_alpha img :
  same_alpha (data img) (data (noiseReduction img)).
Proof. unfold noiseReduction. cbn [data with_data]. neighbourhood. Qed.

Lemma applyConvolution_alpha kernel img :
  same_alpha (data img) (data (applyConvolution kernel img)).
Proof. unfold applyConvolution. cbn [data with_data]. neighbourhood. Qed.

Lemma morphologicalOperation_alpha op k img :
  same_alpha (data img) (data (morphologicalOperation op k img)).
Proof. unfold morphologicalOperation. cbn [data with_data]. neighbourhood. Qed.

(** C10.  Every pixel filter leaves every alpha byte (index 4k + 3) of
    the buffer as it was: grayscale, invert, brightness/contrast, threshold,
    median, Sobel, histogram equalisation, noise reduction, sharpen, any
    convolution, Gaussian blur, erosion and dilation. *)
Theorem filters_keep_alpha (img : ImageData) (j : nat) (Hj : (j mod 4 = 3)%nat) :
  let kept (f : ImageData -> ImageData) := data (f img) !! j = data img !! j in
  kept grayscale
  /\ kept invert
  /\ (forall brightness contrast,
         kept (adjustBrightnessContrast brightness contrast))
  /\ (forall value, kept (threshold value))
  /\ (forall kernelSize, kept (medianFilter kernelSize))
  /\ kept sobelEdgeDetection
  /\ kept histogramEqualization
  /\ kept noiseReduction
  /\ kept sharpen
  /\ (forall kernel, kept (applyConvolution kernel))
  /\ (forall Math_exp kernelSize sigma,
         kept (gaussianBlur Math_exp kernelSize sigma))
  /\ (forall kernelSize, kept (erosion kernelSize))
  /\ (forall kernelSize, kept (dilation kernelSize)).
Proof.
  cbv zeta.
  split; [exact (grayscale_alpha img j Hj)|].
  split; [exact (invert_alpha img j Hj)|].
  split; [intros b c; exact (adjustBrightnessContrast_alpha b c img j Hj)|].
  split; [intros v; exact (threshold_alpha v img j Hj)|].
  split; [intros k; exact (medianFilter_alpha k img j Hj)|].
  split; [exact (sobelEdgeDetection_alpha img j Hj)|].
  split; [exact (histogramEqualization_alpha img j Hj)|].
  split; [exact (noiseReduction_alpha img j Hj)|].
  split; [exact (applyConvolution_alpha _ img j Hj)|].
  split; [intros kernel; exact (applyConvolution_alpha kernel img j Hj)|].
  split; [intros e k sigma; exact (applyConvolution_alpha _ img j Hj)|].
  split; intros k; exact (morphologicalOperation_alpha _ k img j Hj).
Qed.

Lemma filters_keep_alpha_witness :
  (7 mod 4 = 3)%nat
  /\ data (grayscale two_pixels) !! 7%nat = data two_pixels !! 7%nat
  /\ data (invert two_pixels) !! 3%nat = data two_pixels !! 3%nat
  /\ data (erosion 3 two_pixels) !! 7%nat = data two_pixels !! 7%nat.
Proof.
  destruct (filters_keep_alpha two_pixels 7 eq_refl)
    as (Hgray & _ & _ & _ & _ & _ & _ & _ & _ & _ & _ & Herosion & _).
  destruct (filters_keep_alpha two_pixels 3 eq_refl) as (_ & Hinvert & _).
  split; [reflexivity|]. split; [exact Hgray|].
  split; [exact Hinvert|exact (Herosion 3)].
Defined.

(** The luminance of a pixel depends on its three colour bytes only. *)
Lemma luminance_local d1 d2 (k : nat) :
  (forall c, (c < 3)%nat -> d1 !! (4 * k + c)%nat = d2 !! (4 * k + c)%nat) ->
  luminance d1 (Z.of_nat (4 * k)) = luminance d2 (Z.of_nat (4 * k)).
Proof.
  intros H. unfold luminance, rd, index.
  destruct (Z.ltb_spec (Z.of_nat (4 * k)) 0); [lia|].
  destruct (Z.ltb_spec (Z.of_nat (4 * k) + 1) 0); [lia|].
  destruct (Z.ltb_spec (Z.of_nat (4 * k) + 2) 0); [lia|].
  replace (Z.to_nat (Z.of_nat (4 * k))) with (4 * k + 0)%nat by lia.
  replace (Z.to_nat (Z.of_nat (4 * k) + 1)) with (4 * k + 1)%nat by lia.
  replace (Z.to_nat (Z.of_nat (4 * k) + 2)) with (4 * k + 2)%nat by lia.
  by rewrite !H by lia.
Qed.

(** The passes for the pixels from [a] on leave the bytes before pixel [a]
    as they are. *)
Lemma gray_passes_below m : forall a d (j : nat),
  (j < 4 * a)%nat ->
  fold_left gray_body (map pixel_index (seq a m)) d !! j = d !! j.
Proof.
  induction m as [|m IH]; intros a d j Hj; cbn [seq map fold_left]; [done|].
  rewrite IH by lia. unfold gray_body, pixel_index.
  apply store_rgb_lookup_ne; lia.
Qed.

Lemma gray_passes_length l : forall d,
  length (fold_left gray_body l d) = length d.
Proof.
  induction l as [|i l IH]; intros d; cbn; [done|].
  rewrite IH. apply store_rgb_length.
Qed.

Lemma gray_passes_value m : forall a d0 d (k c : nat),
  length d = length d0 ->
  (forall j : nat, (4 * a <= j)%nat -> d !! j = d0 !! j) ->
  (a <= k < a + m)%nat -> (c < 3)%nat -> (4 * k + 2 < length d0)%nat ->
  fold_left gray_body (map pixel_index (seq a m)) d !! (4 * k + c)%nat
  = Some (ToUint8Clamp (luminance d0 (Z.of_nat (4 * k)))).
Proof.
  induction m as [|m IH]; intros a d0 d k c Hlen Hd Hk Hc Hin; [lia|].
  cbn [seq map fold_left].
  destruct (decide (k = a)) as [->|Hne].
  - rewrite gray_passes_below by lia.
    unfold gray_body, pixel_index.
    assert (Hl : luminance d (0 + 4 * Z.of_nat a)
                 = luminance d0 (Z.of_nat (4 * a))).
    { replace (0 + 4 * Z.of_nat a) with (Z.of_nat (4 * a)) by lia.
      apply luminance_local. intros c' _. apply Hd. lia. }
    rewrite Hl.
    destruct (store_rgb_lookup d (0 + 4 * Z.of_nat a)
                (luminance d0 (Z.of_nat (4 * a)))
                (luminance d0 (Z.of_nat (4 * a)))
                (luminance d0 (Z.of_nat (4 * a))) (4 * a)%nat)
      as (Hr & Hg & Hb); [lia|lia|].
    destruct c as [|[|[|c]]]; [|done|done|lia].
    by rewrite Nat.add_0_r.
  - apply IH; [|  |lia|done|done].
    + unfold gray_body. by rewrite store_rgb_length.
    + intros j Hj. rewrite <- Hd by lia. unfold gray_body, pixel_index.
      apply store_rgb_lookup_ne; lia.
Qed.

Lemma range_step_pixels n :
  range_step 0 n 4 = map pixel_index (seq 0 (Z.to_nat ((n - 0 + 4 - 1) / 4))).
Proof. reflexivity. Qed.

(** C8.  For every pixel that lies inside the buffer, [grayscale] stores in
    each of its three colour bytes the luminance
    0.299 R + 0.587 G + 0.114 B of the original pixel, rounded and clamped
    to 0..255; the pixel (200,100,50) becomes (124,124,124) whatever its
    alpha. *)
Theorem grayscale_sets_luminance (img : ImageData) (k c : nat)
        (Hc : (c < 3)%nat) (Hin : (4 * k + 2 < length (data img))%nat) :
  let gray := ToUint8Clamp (luminance (data img) (Z.of_nat (4 * k))) in
  data (grayscale img) !! (4 * k + c)%nat = Some gray
  /\ 0 <= gray <= 255
  /\ (forall alpha,
        data (grayscale (mkImageData [200; 100; 50; alpha] 1 1))
        = [124; 124; 124; alpha]).
Proof.
  cbv zeta. split; [|split].
  - unfold grayscale. cbn [data with_data]. unfold each_pixel.
    rewrite range_step_pixels.
    change (fun d i => let gray := luminance d i in store_rgb d i gray gray gray)
      with gray_body.
    apply gray_passes_value; try done.
    split; [lia|]. cbn [Nat.add].
    assert (Z.of_nat k < (Z.of_nat (length (data img)) - 0 + 4 - 1) / 4).
    { Z.div_mod_to_equations. lia. }
    lia.
  - unfold ToUint8Clamp.
    destruct (Prim2SF _) as [s|s| |[|] m e]; try lia; try (destruct s; lia).
    destruct (magnitude m e) as [n den] eqn:Em.
    assert (Hden : 0 < den /\ 0 <= n).
    { unfold magnitude in Em.
      destruct (Z.ltb_spec e 0); inversion Em; subst.
      - split; [apply Z.pow_pos_nonneg; lia|lia].
      - split; [lia|]. apply Z.mul_nonneg_nonneg; [lia|]. apply Z.pow_nonneg. lia. }
    assert (0 <= n / den) by (apply Z.div_pos; lia).
    repeat match goal with |- context [if ?b then _ else _] => destruct b end; lia.
  - intros alpha. reflexivity.
Qed.

Lemma grayscale_sets_luminance_witness :
  data (grayscale (mkImageData [200; 100; 50; 255; 10; 20; 30; 40] 2 1))
    !! (4 * 1 + 2)%nat = Some 18
  /\ data (grayscale (mkImageData [200; 100; 50; 255; 10; 20; 30; 40] 2 1))
    !! (4 * 0 + 0)%nat = Some 124.
Proof.
  split.
  - apply (grayscale_sets_luminance
             (mkImageData [200; 100; 50; 255; 10; 20; 30; 40] 2 1) 1 2);
      cbn; lia.
  - apply (grayscale_sets_luminance
             (mkImageData [200; 100; 50; 255; 10; 20; 30; 40] 2 1) 0 0);
      cbn; lia.
Defined.

End PixelBuffers.

(* ================================================================== *)
(** * The capture store                                                *)
(* ================================================================== *)

Section CaptureStore.
Import JS CaptureManager.
Local Open Scope string_scope.

(** C9.  When the read from local storage throws, or the stored text is
    not valid JSON, [loadCaptures] logs the error and leaves an empty capture
    list; when the write (or the serialisation before it) throws,
    [saveCaptures] logs the error, completes normally and leaves the capture
    list in memory as it was. *)
Theorem storage_failures_are_contained
        (value : Type) (empty : value) (env : environment value)
        (m : manager value) :
  (* reading *)
  ((exists e, getItem env (storageKey m) = Throw e)
   \/ (exists stored e, getItem env (storageKey m) = Normal (Some stored)
                        /\ stored <> ""
                        /\ JSON_parse env stored = Throw e) ->
   captures (loadCaptures empty env m) = empty
   /\ console (loadCaptures empty env m)
      = (console m ++ ["Error loading captures:"])%list)
  (* writing *)
  /\ ((exists e, JSON_stringify env (captures m) = Throw e)
      \/ (exists text e, JSON_stringify env (captures m) = Normal text
                         /\ setItem env (storageKey m) text = Throw e) ->
      exists m', saveCaptures env m = (Normal tt, m')
                 /\ captures m' = captures m
                 /\ console m'
                    = (console m ++ ["Error saving captures:"])%list).
Proof.
  split.
  - intros [[e He]|(stored & e & Hget & Hne & Hparse)]; unfold loadCaptures.
    + by rewrite He.
    + rewrite Hget. destruct stored as [|c stored]; [done|]. by rewrite Hparse.
  - intros [[e He]|(text & e & Hs & Hset)]; unfold saveCaptures.
    + rewrite He. by eexists.
    + rewrite Hs, Hset. by eexists.
Qed.

Lemma storage_failures_are_contained_witness :
  let m := mkManager "envision_captures" [1; 2; 3] [] in
  captures (loadCaptures [] broken_storage m) = []
  /\ captures (loadCaptures [] corrupted_storage m) = []
  /\ exists m', saveCaptures corrupted_storage m = (Normal tt, m')
                /\ captures m' = [1; 2; 3].
Proof.
  intros m.
  split; [|split].
  - apply (storage_failures_are_contained (list Z) [] broken_storage m).
    left. by exists "SecurityError".
  - apply (storage_failures_are_contained (list Z) [] corrupted_storage m).
    right. exists "{not json", "SyntaxError". by repeat split.
  - destruct (proj2 (storage_failures_are_contained (list Z) []
                       corrupted_storage m)) as (m' & Hs & Hc & _).
    { right. exists "[]", "QuotaExceededError". by split. }
    exists m'. by split.
Defined.

End CaptureStore.

(* ================================================================== *)
(** * Objects and the capture list                                     *)
(* ================================================================== *)

Section ObjectMaps.
Import Obj.
Context {V : Type}.
Implicit Types (o src : object V) (k : string) (v : V).

Lemma get_set o k v k' :
  get (set o k v) k' = if String.eqb k k' then Some v else get o k'.
Proof.
  induction o as [|[k0 v0] o IH]; cbn.
  - by destruct (String.eqb k k').
  - destruct (String.eqb_spec k0 k) as [->|Hne]; cbn.
    + by destruct (String.eqb k k').
    + destruct (String.eqb_spec k0 k') as [->|Hne'].
      * destruct (String.eqb_spec k k'); [congruence|done].
      * apply IH.
Qed.

Lemma get_None o k : k ∉ keys o -> get o k = None.
Proof.
  induction o as [|[k0 v0] o IH]; cbn; [done|].
  intros Hk. destruct (String.eqb_spec k0 k) as [->|Hne].
  - exfalso. apply Hk. left.
  - apply IH. intros Hin. apply Hk. by right.
Qed.

Lemma get_Some_key o k v : get o k = Some v -> k ∈ keys o.
Proof.
  induction o as [|[k0 v0] o IH]; cbn; [done|].
  destruct (String.eqb_spec k0 k) as [->|Hne]; [left|right; auto].
Qed.

Lemma keys_set o k v :
  keys (set o k v) = match get o k with
                     | Some _ => keys o
                     | None => keys o ++ [k]
                     end.
Proof.
  unfold keys. induction o as [|[k0 v0] o IH]; cbn; [done|].
  destruct (String.eqb_spec k0 k) as [->|Hne]; cbn; [done|].
  rewrite IH. by destruct (get o k).
Qed.

Lemma get_spread o src k :
  NoDup (keys src) ->
  get (spread o src) k = match get src k with
                         | Some v => Some v
                         | None => get o k
                         end.
Proof.
  unfold spread. revert o.
  induction src as [|[k0 v0] src IH]; intros o Hnd; cbn; [done|].
  apply NoDup_cons in Hnd as [Hk0 Hnd].
  rewrite IH by done.
  destruct (String.eqb_spec k0 k) as [->|Hne].
  - rewrite get_None by done. rewrite get_set.
    by rewrite String.eqb_refl.
  - destruct (get src k); [done|]. rewrite get_set.
    destruct (String.eqb_spec k0 k); [congruence|done].
Qed.

End ObjectMaps.

(** Membership in a list that is written out. *)
Ltac elems :=
  repeat match goal with
         | H : _ ∈ [] |- _ => inversion H
         | H : _ ∈ _ :: _ |- _ => inversion H; subst; clear H
         end.

Section CaptureList.
Import JS Obj CaptureManager Captures.
Local Open Scope string_scope.
Local Open Scope list_scope.

Lemma saveCaptures_keeps {value} (env : CaptureManager.environment value) m :
  captures (saveCaptures env m).2 = captures m
  /\ storageKey (saveCaptures env m).2 = storageKey m.
Proof.
  unfold saveCaptures.
  destruct (JSON_stringify env (captures m)) as [text|e]; [|done].
  by destruct (setItem env (storageKey m) text).
Qed.

Lemma findIndex_from_none {A} (p : A -> bool) l : forall i,
  (forall x, x ∈ l -> p x = false) -> findIndex_from p l i = -1.
Proof.
  induction l as [|x l IH]; intros i Hl; cbn; [done|].
  rewrite Hl by left. apply IH. intros y Hy. apply Hl. by right.
Qed.

Lemma findIndex_from_first {A} (p : A -> bool) l1 x l2 : forall i,
  (forall y, y ∈ l1 -> p y = false) -> p x = true ->
  findIndex_from p (l1 ++ x :: l2) i = i + Z.of_nat (length l1).
Proof.
  induction l1 as [|y l1 IH]; intros i Hl Hx; cbn.
  - rewrite Hx. lia.
  - rewrite Hl by left. rewrite IH; [lia| |done].
    intros z Hz. apply Hl. by right.
Qed.

(** X1.  [addCapture] stores the new capture in front of the older ones and
    returns it, whether or not the write to [localStorage] succeeds: the list
    in memory is the new capture followed by the old list, the most recent
    capture is the one returned, and its id is the clock value followed by
    the random suffix. *)
Theorem addCapture_puts_newest_first
        (env : environment) (m : manager) (now : Z) (random36 iso img : string)
        (md : object jsValue) :
  let c := (addCapture env m now random36 iso img md).1 in
  let m' := (addCapture env m now random36 iso img md).2 in
  getCaptures m' = c :: getCaptures m
  /\ getRecentCaptures m' (Some 1) = [c]
  /\ head (getRecentCaptures m' None) = Some c
  /\ id c = captureId now random36
  /\ imageData c = img
  /\ storageKey m' = storageKey m.
Proof.
  cbv zeta. unfold addCapture, getRecentCaptures, getCaptures. cbn [fst snd].
  set (c := mkCapture _ _ _ _).
  destruct (saveCaptures_keeps env (with_captures m (c :: captures m)))
    as [-> ->].
  change (default 10 (Some 1)) with 1%Z. change (default 10 None) with 10%Z.
  cbn [captures with_captures storageKey].
  split; [done|]. split.
  { unfold slice0. cbn [length]. destruct (1 <? 0)%Z eqn:E; [done|].
    replace (Z.to_nat (Z.min 1 _)) with 1%nat by lia. done. }
  split; [|done].
  unfold slice0. cbn [length]. destruct (10 <? 0)%Z eqn:E; [done|].
  destruct (Z.to_nat (Z.min 10 _)) eqn:E'; [lia|done].
Qed.

(** X2.  The metadata [addCapture] stores: every field the caller passes is
    stored as passed, also when it is empty, zero or [undefined] (the spread
    of [metadata] comes last and overrides the [||] defaults); the defaults
    ['Unknown'], [''], [[]] and ['general'] are stored only for the fields
    the caller leaves out; no other field is added. *)
Theorem addCapture_metadata_given_fields_win
        (env : environment) (m : manager) (now : Z) (random36 iso img : string)
        (md : object jsValue) (k : string) :
  NoDup (keys md) ->
  get (metadata (addCapture env m now random36 iso img md).1) k
  = match get md k with
    | Some v => Some v
    | None => get metadata_defaults k
    end.
Proof.
  intros Hnd. unfold addCapture. cbn [fst metadata].
  rewrite get_spread by done.
  destruct (get md k) as [v|] eqn:E; [done|].
  unfold metadata_defaults. cbn [get].
  repeat match goal with
         | |- context [String.eqb ?a k] =>
             destruct (String.eqb_spec a k) as [<-|_];
             [unfold get_or; by rewrite E|]
         end.
  done.
Qed.

Lemma addCapture_metadata_given_fields_win_witness :
  let md := [("camera", VString EmptyString); ("notes", VUndefined);
             ("operator", VString "lab 2")] in
  let stored :=
    metadata (addCapture working_storage (manager_of []) 1700000000000
                "0.4fzyo82mvyr" "2023-11-14T22:13:20.000Z" "data:," md).1 in
  get stored "camera" = match get md "camera" with
                        | Some v => Some v
                        | None => get metadata_defaults "camera"
                        end
  /\ get stored "resolution" = match get md "resolution" with
                               | Some v => Some v
                               | None => get metadata_defaults "resolution"
                               end.
Proof.
  cbv zeta.
  assert (Hnd : NoDup (keys [("camera", VString EmptyString);
                             ("notes", VUndefined);
                             ("operator", VString "lab 2")])).
  { cbn. repeat (apply NoDup_cons; split; [intros H; elems; discriminate|]).
    apply NoDup_nil_2. }
  split.
  - exact (addCapture_metadata_given_fields_win working_storage
             (manager_of []) 1700000000000 "0.4fzyo82mvyr"
             "2023-11-14T22:13:20.000Z" "data:,"
             [("camera", VString EmptyString); ("notes", VUndefined);
              ("operator", VString "lab 2")] "camera" Hnd).
  - exact (addCapture_metadata_given_fields_win working_storage
             (manager_of []) 1700000000000 "0.4fzyo82mvyr"
             "2023-11-14T22:13:20.000Z" "data:,"
             [("camera", VString EmptyString); ("notes", VUndefined);
              ("operator", VString "lab 2")] "resolution" Hnd).
Defined.

(** X3.  [deleteCapture] of an id no capture has returns [false] and leaves
    the manager as it is: the list is not changed and nothing is written to
    [localStorage] (no write is attempted, so no error is logged either). *)
Theorem deleteCapture_unknown_id_changes_nothing
        (env : environment) (m : manager) (i : string) :
  (forall c, c ∈ getCaptures m -> id c <> i) ->
  deleteCapture env m i = (false, m).
Proof.
  intros Hno. unfold deleteCapture, findIndex.
  rewrite findIndex_from_none; [done|].
  intros c Hc. apply String.eqb_neq. by apply Hno.
Qed.

Lemma deleteCapture_unknown_id_changes_nothing_witness :
  deleteCapture failing_storage
                (manager_of [capture_with_id "a1"; capture_with_id "b2"]) "c3"
  = (false, manager_of [capture_with_id "a1"; capture_with_id "b2"]).
Proof.
  apply (deleteCapture_unknown_id_changes_nothing failing_storage
           (manager_of [capture_with_id "a1"; capture_with_id "b2"]) "c3").
  intros c Hc. cbn in Hc. elems; cbn; discriminate.
Defined.

(** X4.  [deleteCapture] of an id some capture has returns [true] and takes
    exactly one capture off the list, the first (most recent) one with that
    id; every other capture stays, in the same order, also when the write to
    [localStorage] fails. *)
Theorem deleteCapture_removes_first_match
        (env : environment) (m : manager) (l1 l2 : list capture) (c : capture) :
  getCaptures m = l1 ++ c :: l2 ->
  (forall x, x ∈ l1 -> id x <> id c) ->
  (deleteCapture env m (id c)).1 = true
  /\ getCaptures (deleteCapture env m (id c)).2 = l1 ++ l2.
Proof.
  unfold getCaptures. intros Hl Hno. unfold deleteCapture, findIndex.
  rewrite Hl, findIndex_from_first;
    [|intros y Hy; apply String.eqb_neq; by apply Hno|apply String.eqb_refl].
  destruct (Z.ltb_spec (-1) (0 + Z.of_nat (length l1))); [|lia].
  cbn [fst snd]. split; [done|].
  destruct (saveCaptures_keeps env
              (with_captures m (delete (Z.to_nat (0 + Z.of_nat (length l1)))
                                       (l1 ++ c :: l2)))) as [-> _].
  cbn [captures with_captures].
  replace (Z.to_nat (0 + Z.of_nat (length l1))) with (length l1) by lia.
  apply delete_middle.
Qed.

Lemma deleteCapture_removes_first_match_witness :
  let m := manager_of [capture_with_id "a1"; capture_with_id "b2";
                       capture_with_id "c3"] in
  (deleteCapture failing_storage m "b2").1 = true
  /\ getCaptures (deleteCapture failing_storage m "b2").2
     = [capture_with_id "a1"; capture_with_id "c3"].
Proof.
  cbv zeta.
  apply (deleteCapture_removes_first_match failing_storage
           (manager_of [capture_with_id "a1"; capture_with_id "b2";
                        capture_with_id "c3"])
           [capture_with_id "a1"] [capture_with_id "c3"]
           (capture_with_id "b2")).
  - reflexivity.
  - intros x Hx. elems; cbn; discriminate.
Defined.

(** X5.  Adding a capture and then deleting the capture that [addCapture]
    returned gives back the list of captures as it was before, whatever the
    storage does in the two calls. *)
Theorem addCapture_then_deleteCapture_restores
        (env env' : environment) (m : manager) (now : Z)
        (random36 iso img : string) (md : object jsValue) :
  let c := (addCapture env m now random36 iso img md).1 in
  let m1 := (addCapture env m now random36 iso img md).2 in
  (deleteCapture env' m1 (id c)).1 = true
  /\ getCaptures (deleteCapture env' m1 (id c)).2 = getCaptures m.
Proof.
  cbv zeta. unfold getCaptures.
  set (c := (addCapture env m now random36 iso img md).1).
  set (m1 := (addCapture env m now random36 iso img md).2).
  assert (H1 : captures m1 = c :: captures m).
  { subst m1 c. unfold addCapture. cbn [fst snd].
    by destruct (saveCaptures_keeps env
                   (with_captures m (mkCapture (captureId now random36) iso img
                      (spread
                         [("resolution", get_or md "resolution" (VString "Unknown"));
                          ("magnification", get_or md "magnification" (VString "Unknown"));
                          ("camera", get_or md "camera" (VString "Unknown"));
                          ("notes", get_or md "notes" (VString EmptyString));
                          ("tags", get_or md "tags" (VArray []));
                          ("analysisType", get_or md "analysisType" (VString "general"))]
                         md) :: captures m))) as [-> _]. }
  unfold deleteCapture, findIndex. rewrite H1. cbn [findIndex_from].
  rewrite String.eqb_refl. cbn [fst snd Z.ltb Z.compare].
  split; [done|].
  by destruct (saveCaptures_keeps env'
                 (with_captures m1 (delete (Z.to_nat 0) (c :: captures m))))
    as [-> _].
Qed.

End CaptureList.

(* ================================================================== *)
(** * The annotation manager and the toolbar                           *)
(* ================================================================== *)

Section ManagerGroups.
Import JS Obj AnnotationManager.
Local Open Scope string_scope.
Local Open Scope list_scope.

Lemma get_is_Some {V} (o : object V) k : k ∈ keys o -> is_Some (get o k).
Proof.
  induction o as [|[k0 v0] o IH]; cbn; [by inversion 1|].
  destruct (String.eqb_spec k0 k) as [->|Hne]; [done|].
  inversion 1; subst; [done|auto].
Qed.

Lemma set_new {V} (o : object V) k v :
  get o k = None -> set o k v = o ++ [(k, v)].
Proof.
  induction o as [|[k0 v0] o IH]; cbn; [done|].
  destruct (String.eqb_spec k0 k) as [->|Hne]; [done|].
  intros H. by rewrite IH.
Qed.

Lemma concat_set {V} (o : object (list V)) k m x :
  get o k = Some m ->
  concat (map snd (set o k (m ++ x))) ≡ₚ concat (map snd o) ++ x.
Proof.
  induction o as [|[k0 v0] o IH]; cbn; [done|].
  destruct (String.eqb_spec k0 k) as [->|Hne]; cbn.
  - intros [= ->]. rewrite <- !app_assoc.
    apply Permutation_app_head, Permutation_app_comm.
  - intros H. rewrite IH by done. by rewrite app_assoc.
Qed.

Lemma listed_under_app t l a :
  listed_under t (l ++ [a])
  = listed_under t l ++ (if String.eqb (group_key a) t then [a] else []).
Proof. unfold listed_under. rewrite List.filter_app. done. Qed.

Lemma group_step groups anns a :
  groups_of groups anns -> inherited (group_key a) = false ->
  exists groups', group groups a = Normal groups'
                  /\ groups_of groups' (anns ++ [a]).
Proof.
  intros (Hnd & Hget & Hperm) Hinh. unfold group. fold (group_key a).
  rewrite Hinh, orb_false_r.
  destruct (get groups (group_key a)) as [members|] eqn:E.
  - rewrite bool_decide_eq_true_2 by done. cbn [negb]. rewrite E.
    eexists; split; [reflexivity|]. split; [|split].
    + by rewrite keys_set, E.
    + intros t. rewrite get_set, listed_under_app.
      pose proof (Hget (group_key a)) as Hk. rewrite E in Hk.
      destruct (String.eqb_spec (group_key a) t) as [<-|Hne].
      * destruct (listed_under (group_key a) anns); [done|].
        by injection Hk as ->.
      * rewrite app_nil_r. apply Hget.
    + by rewrite concat_set, Hperm.
  - rewrite bool_decide_eq_false_2 by (by intros [? ?]). cbn [negb].
    rewrite get_set, String.eqb_refl.
    eexists; split; [reflexivity|]. split; [|split].
    + rewrite keys_set, get_set, String.eqb_refl, keys_set, E.
      apply NoDup_app. split; [done|]. split; [|apply NoDup_singleton].
      intros k Hk ->%list_elem_of_singleton.
      apply get_is_Some in Hk. rewrite E in Hk. by destruct Hk.
    + intros t. rewrite !get_set, listed_under_app.
      pose proof (Hget (group_key a)) as Hk. rewrite E in Hk.
      destruct (String.eqb_spec (group_key a) t) as [<-|Hne].
      * by destruct (listed_under (group_key a) anns).
      * rewrite app_nil_r. apply Hget.
    + change ([] ++ [a]) with ([] ++ [a] : list annotation).
      rewrite concat_set by (by rewrite get_set, String.eqb_refl).
      rewrite set_new by done.
      rewrite map_app, concat_app. cbn. rewrite !app_nil_r. by rewrite Hperm.
Qed.

Lemma reduce_groups rest : forall groups anns,
  groups_of groups anns ->
  (forall a, a ∈ rest -> inherited (group_key a) = false) ->
  exists groups', reduce group rest groups = Normal groups'
                  /\ groups_of groups' (anns ++ rest).
Proof.
  induction rest as [|a rest IH]; intros groups anns Hg Hinh; cbn.
  - exists groups. by rewrite app_nil_r.
  - destruct (group_step groups anns a Hg) as (g1 & -> & Hg1);
      [apply Hinh; left|].
    destruct (IH g1 (anns ++ [a]) Hg1) as (g2 & -> & Hg2);
      [intros b Hb; apply Hinh; by right|].
    exists g2. split; [done|]. by rewrite <- app_assoc in Hg2.
Qed.

(** X6.  [groupedAnnotations] partitions the annotation list: when no type
    is the name of a property of [Object.prototype], the reduce returns
    normally, every group is listed once, the group of [t] holds exactly
    the annotations whose type is [t] (['other'] for an empty type) in list
    order, a type without annotation has no group, and the groups together
    hold every annotation once (the group sizes add up to the total). *)
Theorem groupedAnnotations_partitions (anns : list annotation) :
  (forall a, a ∈ anns -> inherited (group_key a) = false) ->
  exists groups,
    groupedAnnotations anns = Normal groups
    /\ NoDup (keys groups)
    /\ (forall t, get groups t = match listed_under t anns with
                                 | [] => None
                                 | l => Some l
                                 end)
    /\ concat (map snd groups) ≡ₚ anns.
Proof.
  intros Hinh.
  destruct (reduce_groups anns [] []) as (g & Hr & Hg); [|done|by exists g].
  split; [apply NoDup_nil_2|]. split; [|done].
  intros t. done.
Qed.

Lemma groupedAnnotations_partitions_witness :
  exists groups,
    groupedAnnotations [leader_at 1; dimension_at 2; leader_at 3]
      = Normal groups
    /\ NoDup (keys groups)
    /\ (forall t, get groups t
                  = match listed_under t
                            [leader_at 1; dimension_at 2; leader_at 3] with
                    | [] => None
                    | l => Some l
                    end)
    /\ concat (map snd groups)
         ≡ₚ [leader_at 1; dimension_at 2; leader_at 3].
Proof.
  apply (groupedAnnotations_partitions
           [leader_at 1; dimension_at 2; leader_at 3]).
  intros a Ha. elems; reflexivity.
Defined.

End ManagerGroups.

Section ManagerActions.
Import JS AnnotationManager.
Local Open Scope string_scope.
Local Open Scope list_scope.

Lemma callbacks_last w out e :
  AnnotationSystem.callbacks w (out ++ [e]) = AnnotationSystem.callback w e.
Proof. unfold AnnotationSystem.callbacks. by rewrite fold_left_app. Qed.

Lemma filter_other_ids (l : list annotation) (i : Z) :
  i ∉ map ann_id l -> filter (fun ann => ann_id ann <> i) l = l.
Proof.
  induction l as [|b l IH]; [done|].
  intros Hi. cbn [map] in Hi. apply not_elem_of_cons in Hi as [Hb Hl].
  rewrite filter_cons_True by done. by rewrite IH.
Qed.

(** X7.  "Delete All" deletes one annotation only.  Every call of
    [onAnnotationDelete] made by the [forEach] runs the handler of the same
    render, which filters the list of that render, and the last [setX] wins:
    with annotations [l ++ [a]] of distinct ids the store is left with [l],
    every annotation but the last, and the history gets one snapshot, the
    one a single delete of [a] pushes. *)
Theorem delete_all_annotations_keeps_all_but_last
        (st : state) (w : W.state) (l : list annotation) (a : annotation) :
  W.annotations w = l ++ [a] ->
  NoDup (map ann_id (l ++ [a])) ->
  (deleteAllAnnotations true st w).2 = W.handleAnnotationDelete w (ann_id a)
  /\ W.annotations (deleteAllAnnotations true st w).2 = l.
Proof.
  intros Hl Hnd. unfold deleteAllAnnotations. cbn [snd].
  rewrite Hl, map_app. cbn [map]. rewrite callbacks_last.
  cbn [AnnotationSystem.callback]. split; [done|].
  unfold W.handleAnnotationDelete, W.pushHistory. cbn [W.annotations].
  rewrite Hl, filter_app, filter_cons_False, filter_nil, app_nil_r
    by (intros H; by apply H).
  apply filter_other_ids.
  rewrite map_app in Hnd. apply NoDup_app in Hnd as (_ & Hd & _).
  intros Hin. apply (Hd _ Hin). left.
Qed.

Lemma delete_all_annotations_keeps_all_but_last_witness :
  let w := W.handleAnnotationAdd
             (W.handleAnnotationAdd (W.mount [leader_at 1]) (leader_at 2))
             (leader_at 3) in
  (deleteAllAnnotations true initial w).2 = W.handleAnnotationDelete w 3
  /\ W.annotations (deleteAllAnnotations true initial w).2
     = [leader_at 1; leader_at 2].
Proof.
  cbv zeta.
  apply (delete_all_annotations_keeps_all_but_last initial
           (W.handleAnnotationAdd
              (W.handleAnnotationAdd (W.mount [leader_at 1]) (leader_at 2))
              (leader_at 3))
           [leader_at 1; leader_at 2] (leader_at 3)).
  - reflexivity.
  - cbn. repeat (apply NoDup_cons; split; [intros H; elems; discriminate|]).
    apply NoDup_nil_2.
Defined.

Lemma Set_has_add s x j :
  Set_has (Set_add s x) j = (j =? x)%Z || Set_has s j.
Proof.
  unfold Set_add. destruct (Set_has s x) eqn:E.
  - destruct (Z.eqb_spec j x) as [->|]; [by rewrite E|done].
  - unfold Set_has. rewrite existsb_app. cbn.
    rewrite orb_false_r. apply orb_comm.
Qed.

Lemma Set_has_delete s x j :
  Set_has (Set_delete s x) j = negb (j =? x)%Z && Set_has s j.
Proof.
  unfold Set_delete, Set_has. induction s as [|y s IH].
  - cbn. by rewrite andb_false_r.
  - destruct (decide (y <> x)) as [Hy|Hy].
    + rewrite filter_cons_True by done. cbn [existsb]. rewrite IH.
      destruct (Z.eqb_spec j y) as [->|]; cbn; [|done].
      destruct (Z.eqb_spec y x); [done|]. done.
    + rewrite filter_cons_False by done. rewrite IH. cbn [existsb].
      assert (y = x) as -> by lia.
      by destruct (Z.eqb_spec j x).
Qed.

Lemma Set_has_fold l : forall s j,
  Set_has (fold_left Set_add l s) j = Set_has l j || Set_has s j.
Proof.
  induction l as [|x l IH]; intros s j; [done|].
  cbn [fold_left]. rewrite IH, Set_has_add.
  change (Set_has (x :: l) j) with ((j =? x)%Z || Set_has l j).
  by destruct (j =? x)%Z, (Set_has l j).
Qed.

Lemma Set_has_of l j : Set_has (Set_of l) j = Set_has l j.
Proof. unfold Set_of. rewrite Set_has_fold. cbn. apply orb_false_r. Qed.

(** X8.  [toggleAnnotationVisibility] flips the visibility of the given
    annotation and of no other; toggling the same annotation twice shows
    exactly the annotations that were shown before. *)
Theorem toggle_visibility_flips_one_id (st : state) (i j : Z) :
  let shown st j := Set_has (visibleAnnotations st) j in
  shown (toggleAnnotationVisibility st i) j
  = (if (j =? i)%Z then negb (shown st i) else shown st j)
  /\ shown (toggleAnnotationVisibility (toggleAnnotationVisibility st i) i) j
     = shown st j.
Proof.
  cbv zeta.
  assert (H1 : forall st j,
             Set_has (visibleAnnotations (toggleAnnotationVisibility st i)) j
             = if (j =? i)%Z then negb (Set_has (visibleAnnotations st) i)
               else Set_has (visibleAnnotations st) j).
  { clear. intros st j. unfold toggleAnnotationVisibility.
    cbn [visibleAnnotations]. rewrite Set_has_of.
    destruct (Set_has (visibleAnnotations st) i) eqn:E.
    - rewrite Set_has_delete, Set_has_of.
      destruct (Z.eqb_spec j i) as [->|]; [done|done].
    - rewrite Set_has_add, Set_has_of.
      destruct (Z.eqb_spec j i) as [->|]; [done|done]. }
  split; [apply H1|].
  rewrite !H1, Z.eqb_refl.
  destruct (Z.eqb_spec j i) as [->|]; [apply negb_involutive|done].
Qed.

End ManagerActions.

Section Toolbar.
Import JS AnnotationToolbar.
Local Open Scope string_scope.
Local Open Scope list_scope.

(** X9.  A text typed in the toolbar's text dialog is never stored.  The
    toolbar hands the text annotation to [onAnnotationAdd], which the
    wrapper wires to [handleToolbarAction]; that handler knows the types
    ['undo'], ['redo'], ['save'] and ['export'] only, so for the type
    ['text'] the annotation list, the history and the pointer stay as they
    are and neither [onSave] nor [onExport] is called. *)
Theorem toolbar_text_is_never_stored
        (trim : string -> string) (st : state) (s : W.state) (a : action) :
  a ∈ (handleTextSubmit trim st).2 ->
  action_content a = Some (textInput st)
  /\ handleToolbarAction s a = (Some s, []).
Proof.
  unfold handleTextSubmit.
  destruct (trim (textInput st)); cbn [snd]; [by inversion 1|].
  intros ->%list_elem_of_singleton. done.
Qed.

Lemma toolbar_text_is_never_stored_witness :
  let st := typing "weld seam" in
  let s := W.handleAnnotationAdd (W.mount []) (leader_at 1) in
  let a := mkAction "text" (Some "single-text") (Some "weld seam")
                    (Some (mkPoint 0 0)) (Some AnnotationSystem.defaultStyles) in
  a ∈ (handleTextSubmit (fun t => t) st).2
  /\ action_content a = Some "weld seam"
  /\ handleToolbarAction s a = (Some s, []).
Proof.
  cbv zeta.
  assert (Hin : mkAction "text" (Some "single-text") (Some "weld seam")
                  (Some (mkPoint 0 0)) (Some AnnotationSystem.defaultStyles)
                ∈ (handleTextSubmit (fun t => t) (typing "weld seam")).2)
    by (cbn; left).
  split; [exact Hin|].
  exact (toolbar_text_is_never_stored (fun t => t) (typing "weld seam")
           (W.handleAnnotationAdd (W.mount []) (leader_at 1)) _ Hin).
Defined.

End Toolbar.

(* ================================================================== *)
(** * The canvas: what the tools draw                                  *)
(* ================================================================== *)

Section CanvasDrawing.
Import JS AnnotationCanvas.
Local Open Scope string_scope.
Local Open Scope list_scope.

Variable Number_toString : float -> string.

Lemma omap_Some {A} (l : list A) : omap (fun o => o) (map Some l) = l.
Proof. induction l as [|x l IH]; cbn; [done|by rewrite IH]. Qed.

Lemma Forall_is_Some {A} (l : list A) : Forall is_Some (map Some l).
Proof. induction l; cbn; constructor; done. Qed.

Lemma created_dimension pr render s0 s now p :
  canvasObjects s0 = canvasObjects s ->
  draws_record s0 (createDimension Number_toString pr render now p s).
Proof.
  intros Hs. unfold createDimension.
  destruct (dimensionStart render) as [start|]; [|by left].
  unfold bind at 1. cbn [new]. unfold bind at 1. unfold lift at 1.
  destruct (toFixed _ _ _) as [label|e]; [|by left].
  right. eexists. split; [reflexivity|]. cbn. rewrite Hs.
  split; [done|]. split; [by rewrite <- !app_assoc|].
  repeat constructor; done.
Qed.

Lemma created_circle pr s now p :
  draws_record s (createCircleDimension pr now p s).
Proof.
  right. eexists. split; [reflexivity|]. cbn.
  split; [done|]. split; [by rewrite <- !app_assoc|].
  repeat constructor; done.
Qed.

Lemma created_leader pr s now p : draws_record s (createLeader pr now p s).
Proof.
  right. eexists. split; [reflexivity|]. cbn.
  split; [done|]. split; [by rewrite <- !app_assoc|].
  repeat constructor; done.
Qed.

Lemma created_centerline pr render s now p :
  draws_record s (createCenterline pr render now p s).
Proof.
  unfold createCenterline.
  destruct (dimensionStart render) as [start|]; [|by left].
  right. eexists. split; [reflexivity|]. cbn.
  split; [done|]. split; [done|].
  repeat constructor; done.
Qed.

Lemma hatch_lines pr coords idxs : forall lines s,
  exists new s',
    for_each (hatch_line pr coords) lines idxs s = (Normal (lines ++ new), s', [])
    /\ canvasObjects s' = canvasObjects s ++ new.
Proof.
  induction idxs as [|i idxs IH]; intros lines s.
  - exists [], s. cbn. by rewrite !app_nil_r.
  - cbn [for_each]. unfold bind at 1. unfold hatch_line at 1.
    destruct (coords i) as [[[x1 y1] x2] y2]. cbn [bind new canvas_add modify ret].
    match goal with
    | |- context [for_each _ ?l idxs ?s1] =>
        destruct (IH l s1) as (new & s' & -> & Hc)
    end.
    eexists (_ :: new), s'. cbn [app].
    split; [by rewrite <- app_assoc|].
    rewrite Hc. cbn [canvasObjects]. by rewrite <- app_assoc.
Qed.

Lemma created_hatch pr s now p : draws_record s (createHatchPattern pr now p s).
Proof.
  unfold createHatchPattern. cbv zeta.
  unfold bind at 1.
  match goal with
  | |- context [for_each ?b [] ?idxs s] =>
      destruct (hatch_lines pr
                  (fun i => (point_x p, point_y p + num i,
                             point_x p + num 50, point_y p + num i)%float)
                  idxs [] s) as (new1 & s1 & -> & Hc1)
  end.
  unfold bind at 1.
  match goal with
  | |- context [for_each ?b ?l ?idxs s1] =>
      destruct (hatch_lines pr
                  (fun i => (point_x p + num i, point_y p,
                             point_x p + num i, point_y p + num 50)%float)
                  idxs l s1) as (new2 & s2 & -> & Hc2)
  end.
  right. eexists. split; [reflexivity|]. cbn.
  split; [done|]. rewrite omap_Some, Hc2, Hc1. split; [|apply Forall_is_Some].
  by rewrite <- app_assoc.
Qed.

(** X10.  A mouse press never leaves a record without its shapes.  Whatever
    the tool, the styles, the render whose closures are registered and the
    state of the canvas, one press produces at most one record; when it
    produces the record [a], the shapes listed in [a] are exactly the objects
    the press added to the fabric canvas, in order, none of them is
    [undefined], and [a] is the component's current annotation. *)
Theorem mouse_press_draws_the_shapes_of_its_record
        (l : listeners) (s : canvasState) (now : Z) (p : point) :
  draws_record s (dispatch Number_toString l s (MouseDown now p)).
Proof.
  cbn [dispatch]. unfold handleCanvasMouseDown.
  set (pr := creation_props l). set (render := creation_render l).
  destruct (isReadOnly pr || negb (truthy (activeTool pr))); [by left|].
  destruct (is_tool (activeTool pr) "linear" || is_tool (activeTool pr) "aligned"
            || is_tool (activeTool pr) "angular").
  { destruct (dimensionStart render) eqn:E; [|by left].
    unfold bind, setDimensionEnd, modify.
    match goal with
    | |- context [createDimension _ pr render now p ?s1] =>
        pose proof (created_dimension pr render s s1 now p eq_refl) as H
    end.
    destruct (createDimension _ _ _ _ _ _) as [[r s2] out].
    destruct H as [H|(a & H1 & H2 & H3 & H4)]; cbn in *.
    - left. by rewrite H.
    - right. exists a. by rewrite H1. }
  destruct (is_tool (activeTool pr) "radius" || is_tool (activeTool pr) "diameter");
    [apply created_circle|].
  destruct (is_tool (activeTool pr) "leader" || is_tool (activeTool pr) "multileader");
    [apply created_leader|].
  destruct (is_tool (activeTool pr) "centerline").
  { destruct (dimensionStart render) eqn:E; [|by left].
    by apply created_centerline. }
  destruct (is_tool (activeTool pr) "revision-cloud"); [by left|].
  destruct (is_tool (activeTool pr) "hatch"); [apply created_hatch|by left].
Qed.

Lemma not_canvas_tool t name :
  is_canvas_tool t = false -> name ∈ canvas_tools -> String.eqb t name = false.
Proof.
  unfold is_canvas_tool. intros H Hin.
  destruct (String.eqb t name) eqn:E; [|done].
  rewrite <- H. symmetry. apply existsb_exists. exists name.
  split; [|done]. by apply list_elem_of_In.
Qed.

Ltac in_list := repeat first [ by left | right ].

(** X11.  The canvas has a case for ten tools only.  When the registered
    closures are those of a render with any other tool, a press, a move and a
    release change nothing and call no callback, whatever the state of the
    canvas; fourteen of the twenty-four tools the toolbar offers are such
    tools. *)
Theorem tools_without_a_case_draw_nothing :
  (forall (t : string) (st : Styles) (readOnly : bool)
          (render s : canvasState) (ev : event),
      is_canvas_tool t = false -> is_mouse ev = true ->
      dispatch Number_toString
               (mkListeners (mkProps (Some t) st readOnly) render) s ev
      = (Normal tt, s, []))
  /\ List.filter (fun t => negb (is_canvas_tool t)) AnnotationToolbar.tools
     = ["single-text"; "multiline-text"; "field"; "arc-length"; "ordinate";
        "baseline"; "continue"; "table"; "bom"; "gradient"; "center-mark";
        "surface-texture"; "welding"; "datum"].
Proof.
  split; [|reflexivity].
  intros t st readOnly render s ev Ht Hev.
  assert (Hno : forall name, name ∈ canvas_tools ->
                             is_tool (Some t) name = false).
  { intros name Hin. cbn [is_tool]. by apply not_canvas_tool. }
  destruct ev as [now p|p|now| |]; try discriminate;
    cbn [dispatch creation_props creation_render].
  - unfold handleCanvasMouseDown. cbn [activeTool isReadOnly].
    rewrite !Hno by (unfold canvas_tools; in_list). cbn [orb].
    by destruct (readOnly || negb (truthy (Some t))).
  - unfold handleCanvasMouseMove. cbn [activeTool].
    rewrite !Hno by (unfold canvas_tools; in_list).
    by destruct (negb (isDrawing render) || negb (truthy (Some t))).
  - unfold handleCanvasMouseUp. cbn [activeTool].
    by rewrite !Hno by (unfold canvas_tools; in_list).
Qed.

Lemma mouse_events_idle l s evs :
  (forall ev, ev ∈ evs -> dispatch Number_toString l s ev = (Normal tt, s, [])) ->
  dispatch_all Number_toString l s evs = (s, [], []).
Proof.
  induction evs as [|ev evs IH]; intros Hstep; [done|].
  cbn [dispatch_all]. rewrite Hstep by left.
  rewrite IH; [done|].
  intros ev' Hin. apply Hstep. by right.
Qed.

(** X12.  A read-only canvas is not changed by the mouse.  When the
    registered closures are those of a render with [isReadOnly] set and no
    drawing in progress, and no drawing is in progress now, any sequence of
    presses, moves and releases, with any tool, leaves the state of the
    component and the fabric canvas as they are, calls no callback and throws
    nothing.  (Only the press checks [isReadOnly]; the move and the release
    are idle because their render has no drawing in progress.) *)
Theorem read_only_canvas_ignores_the_mouse
        (l : listeners) (s : canvasState) (evs : list event) :
  isReadOnly (creation_props l) = true ->
  isDrawing (creation_render l) = false ->
  (length (drawingPoints (creation_render l)) < 3)%nat ->
  isDrawing s = false ->
  Forall (fun ev => is_mouse ev = true) evs ->
  dispatch_all Number_toString l s evs = (s, [], []).
Proof.
  intros Hro Hd Hp Hs Hevs. apply mouse_events_idle.
  intros ev Hin.
  rewrite Forall_forall in Hevs. specialize (Hevs ev Hin).
  destruct ev as [now p|p|now| |]; try discriminate; cbn [dispatch].
  - unfold handleCanvasMouseDown. by rewrite Hro.
  - unfold handleCanvasMouseMove. by rewrite Hd.
  - unfold handleCanvasMouseUp.
    destruct (is_tool (activeTool (creation_props l)) "revision-cloud");
      [|done].
    unfold finalizeRevisionCloud.
    destruct (Nat.ltb_spec (length (drawingPoints (creation_render l))) 3);
      [|lia].
    destruct s; cbn in *; by subst.
Qed.

End CanvasDrawing.

Section CanvasDrawingExamples.
Import JS AnnotationCanvas.
Local Open Scope string_scope.
Local Open Scope list_scope.

Lemma tools_without_a_case_draw_nothing_witness :
  dispatch plain_toString
           (mounted (mkProps (Some "table") AnnotationSystem.defaultStyles
                             false))
           initial (MouseDown 1700000000000 (mkPoint 10 20))
  = (Normal tt, initial, []).
Proof.
  destruct (tools_without_a_case_draw_nothing plain_toString) as [H _].
  exact (H "table" AnnotationSystem.defaultStyles false initial initial
           (MouseDown 1700000000000 (mkPoint 10 20)) eq_refl eq_refl).
Defined.

Lemma read_only_canvas_ignores_the_mouse_witness :
  dispatch_all plain_toString
    (mounted (mkProps (Some "revision-cloud") AnnotationSystem.defaultStyles
                      true))
    initial (drag five_points)
  = (initial, [], []).
Proof.
  apply (read_only_canvas_ignores_the_mouse plain_toString
           (mounted (mkProps (Some "revision-cloud")
                             AnnotationSystem.defaultStyles true))
           initial (drag five_points)).
  - reflexivity.
  - reflexivity.
  - cbn. lia.
  - reflexivity.
  - repeat constructor.
Defined.

End CanvasDrawingExamples.

(* ================================================================== *)
(** * Edits, undo and redo in the wrapper                              *)
(* ================================================================== *)

Section WrapperEdits.
Import AnnotationWrapper.
Local Open Scope list_scope.

Lemma edit_pushes s act :
  is_edit act = true ->
  exists new, step s act = Some (pushHistory s new).
Proof. destruct act; try discriminate; intros _; by eexists. Qed.

Lemma run_ok init acts :
  exists s, run (mount init) acts = Some s /\ reachable s.
Proof.
  induction acts as [|act acts IH] using rev_ind.
  - exists (mount init). split; [done|constructor].
  - destruct IH as (s & Hr & Hs). rewrite run_app, Hr. cbn.
    destruct (reachable_step_total s act Hs) as [s' Hs'].
    exists s'. rewrite Hs'. split; [done|]. by apply (reach_step s act).
Qed.

(** X14.  The wrapper never gets stuck and always shows a snapshot.  From
    any initial annotations, every sequence of additions, updates, deletions,
    undos and redos runs to the end (no handler reads [undefined] from the
    history); afterwards the pointer is -1 with an empty history or names an
    entry of the history, and the entry it names is the annotation list
    shown. *)
Theorem wrapper_always_shows_the_entry_under_the_pointer
        (init : list annotation) (acts : list action) :
  exists s,
    run (mount init) acts = Some s
    /\ -1 <= historyIndex s < Z.of_nat (length (annotationHistory s))
    /\ (annotationHistory s <> [] ->
        JS.index (annotationHistory s) (historyIndex s) = Some (annotations s)).
Proof.
  destruct (run_ok init acts) as (s & Hr & Hs).
  destruct (reachable_ok s Hs) as [[Hp Hp'] Hc].
  exists s. split; [done|]. split; [done|].
  intros Hne. apply Hc. apply Hp'. destruct (annotationHistory s); [done|].
  cbn. lia.
Qed.

Lemma undo_after_push (s : state) (new : list annotation) :
  pointer_ok s -> current_is_entry s -> 0 <= historyIndex s ->
  handleUndo (pushHistory s new)
  = Some (mkState (annotations s) (annotationHistory (pushHistory s new))
                  (historyIndex s)).
Proof.
  intros Hp Hc H0.
  destruct (pushHistory_spec s new Hp) as (Hh & Hi & Ha).
  assert (Hlen : Z.of_nat (length (annotationHistory s)) > historyIndex s)
    by (destruct Hp; lia).
  assert (Hprev : annotationHistory (pushHistory s new)
                    !! Z.to_nat (historyIndex s) = Some (annotations s)).
  { rewrite Hh, lookup_app_l by (rewrite length_take; lia).
    rewrite lookup_take_lt by lia.
    rewrite <- index_lookup by lia. by apply Hc. }
  unfold handleUndo. rewrite Hi.
  destruct (Z.ltb_spec 0 (historyIndex s + 1)); [|lia].
  replace (historyIndex s + 1 - 1) with (historyIndex s) by lia.
  by rewrite index_lookup, Hprev by lia.
Qed.





(** X17.  Deleting or updating an annotation that is not in the store
    still takes a history entry.  When no annotation has the given id the
    list shown is unchanged, yet a snapshot equal to it is pushed and the
    pointer moves up, so the next undo changes nothing that can be seen. *)
Theorem edit_of_unknown_id_pushes_an_equal_snapshot
        (s : state) (i : Z) (a : annotation) :
  reachable s -> annotationHistory s <> [] ->
  i ∉ map ann_id (annotations s) ->
  let unchanged s1 :=
    annotations s1 = annotations s
    /\ historyIndex s1 = historyIndex s + 1
    /\ exists s2, handleUndo s1 = Some s2 /\ annotations s2 = annotations s1 in
  unchanged (handleAnnotationDelete s i)
  /\ unchanged (handleAnnotationUpdate s i a).
Proof.
  intros Hs Hne Hi unchanged.
  destruct (reachable_ok s Hs) as [Hp Hc].
  assert (Hd : filter (fun ann => ann_id ann <> i) (annotations s) = annotations s)
    by (by apply filter_other_ids).
  assert (Hu : map (fun ann => if ann_id ann =? i then a else ann) (annotations s)
               = annotations s).
  { clear -Hi. induction (annotations s) as [|b l IH]; [done|].
    cbn [map] in *. apply not_elem_of_cons in Hi as [Hb Hl].
    destruct (Z.eqb_spec (ann_id b) i); [congruence|]. by rewrite IH. }
  assert (H : forall act s1, is_edit act = true -> step s act = Some s1 ->
                             annotations s1 = annotations s -> unchanged s1).
  { intros act s1 Hact Hstep Hsame. subst unchanged. cbv beta.
    destruct (edit_pushes s act Hact) as (new & Hpush).
    assert (E : s1 = pushHistory s new) by congruence.
    destruct (pushHistory_spec s new Hp) as (_ & Hidx & _).
    assert (H0 : 0 <= historyIndex s).
    { apply Hp. destruct (annotationHistory s); [done|]. cbn. lia. }
    split; [done|]. split; [by rewrite E|].
    rewrite E, (undo_after_push s new Hp Hc H0).
    eexists. split; [reflexivity|]. cbn [annotations].
    rewrite <- E. by rewrite Hsame. }
  split.
  - apply (H (Delete i)); [done|done|].
    unfold handleAnnotationDelete. cbn. by rewrite Hd.
  - apply (H (Update i a)); [done|done|].
    unfold handleAnnotationUpdate. cbn. by rewrite Hu.
Qed.

Lemma edit_of_unknown_id_pushes_an_equal_snapshot_witness :
  let s := handleAnnotationAdd (mount []) (leader_at 1) in
  let unchanged s1 :=
    annotations s1 = annotations s
    /\ historyIndex s1 = historyIndex s + 1
    /\ exists s2, handleUndo s1 = Some s2 /\ annotations s2 = annotations s1 in
  unchanged (handleAnnotationDelete s 7)
  /\ unchanged (handleAnnotationUpdate s 7 (leader_at 7)).
Proof.
  apply (edit_of_unknown_id_pushes_an_equal_snapshot
           (handleAnnotationAdd (mount []) (leader_at 1)) 7 (leader_at 7)).
  - apply (reach_step (mount []) (Add (leader_at 1))); [constructor|done].
  - discriminate.
  - intros H. vm_compute in H. inversion H as [|? ? ? H']. inversion H'.
Defined.

End WrapperEdits.

(* ================================================================== *)
(** * The image processing page                                        *)
(* ================================================================== *)

Section ImagePage.
Import JS ImageProcessingPage.
Local Open Scope list_scope.

Variable loadImage : string -> completion P.ImageData.
Variable toDataURL : P.ImageData -> string.
Variable rotate : float -> P.ImageData -> P.ImageData.
Variable flip : string -> P.ImageData -> P.ImageData.
Variable Math_exp : float -> float.
Variable toLocaleDateString : string -> string.

Local Abbreviation step := (step loadImage toDataURL rotate flip Math_exp
                       toLocaleDateString).
Local Abbreviation run := (run loadImage toDataURL rotate flip Math_exp
                     toLocaleDateString).

Lemma page_run_snoc evs ev : run (evs ++ [ev]) = step (run evs) ev.
Proof. unfold ImageProcessingPage.run. by rewrite fold_left_app. Qed.

Local Abbreviation awaited := (awaited rotate flip Math_exp).
Local Abbreviation finished := (finished loadImage toDataURL rotate flip Math_exp
                                   toLocaleDateString).
Local Abbreviation session_step :=
  (session_step loadImage toDataURL rotate flip Math_exp toLocaleDateString).
Local Abbreviation session_run :=
  (session_run loadImage toDataURL rotate flip Math_exp toLocaleDateString).

Lemma session_run_snoc inputs i :
  session_run (inputs ++ [i]) = session_step (session_run inputs) i.
Proof. unfold ImageProcessingPage.session_run. by rewrite fold_left_app. Qed.

(** [setProcessedImage(img); addToHistory(img)] leaves a well-formed
    history, whatever the history and the pointer of the render of the
    call. *)
Lemma pushed_history_ok (hist : list image) (idx : Z) (img : image) :
  history_ok (H.addToHistory (H.mkState (Some img) hist idx) img).
Proof.
  unfold history_ok, H.addToHistory.
  cbn [H.processedImage H.imageHistory H.historyIndex].
  rewrite length_app. cbn [length].
  split; [lia|]. split; [by intros [_ [=]]%app_eq_nil|]. intros _.
  split; [lia|]. split; [done|].
  rewrite index_lookup by lia.
  rewrite lookup_app_r by lia.
  by replace (Z.to_nat _ - _)%nat with 0%nat by lia.
Qed.

Lemma show_history_ok pg img : history_ok (history (show pg img)).
Proof. apply pushed_history_ok. Qed.

Lemma moved_history_ok (h : H.state image) (idx : Z) :
  history_ok h ->
  0 <= idx < Z.of_nat (length (H.imageHistory h)) ->
  history_ok (H.mkState (JS.index (H.imageHistory h) idx)
                        (H.imageHistory h) idx).
Proof.
  intros _ Hidx. unfold history_ok.
  cbn [H.processedImage H.imageHistory H.historyIndex].
  split; [lia|]. split.
  - intros E. rewrite E in Hidx. cbn in Hidx. lia.
  - intros _. split; [lia|]. split; [|done].
    rewrite index_lookup by lia. apply lookup_lt_is_Some_2. lia.
Qed.

Lemma undo_history_ok h : history_ok h -> history_ok (H.undo h).
Proof.
  intros Hok. unfold H.undo.
  destruct (Z.ltb_spec 0 (H.historyIndex h)); [|done].
  apply moved_history_ok; [done|]. destruct Hok as [? _]. lia.
Qed.

Lemma redo_history_ok h : history_ok h -> history_ok (H.redo h).
Proof.
  intros Hok. unfold H.redo.
  destruct (Z.ltb_spec (H.historyIndex h)
              (Z.of_nat (length (H.imageHistory h)) - 1)); [|done].
  apply moved_history_ok; [done|]. destruct Hok as [? _]. lia.
Qed.

(** A handler that does not wait. *)
Lemma settled_step_ok pg ev :
  awaited pg ev = None ->
  history_ok (history pg) -> history_ok (history (step pg ev)).
Proof.
  intros Hw Hok.
  destruct ev; cbn [ImageProcessingPage.step ImageProcessingPage.awaited] in *;
    try done.
  - by apply undo_history_ok.
  - by apply redo_history_ok.
  - unfold applyFilter.
    destruct (H.processedImage (history pg)); [|done].
    by destruct (findFilterById _ _ _ _).
  - unfold processImage. destruct (currentImage pg); [|done].
    by destruct (_ =? _)%nat.
  - unfold rotateImage. by destruct (H.processedImage (history pg)).
  - unfold flipImage. by destruct (H.processedImage (history pg)).
  - unfold resetToOriginal. destruct (currentImage pg); [|done].
    apply show_history_ok.
  - unfold loadCapture. apply show_history_ok.
  - unfold testImageProcessor. by destruct (currentImage pg).
Qed.

(** The rest of a handler, after a successful load: it shows an image and
    pushes it. *)
Lemma loaded_step_ok pg ev source canvas :
  awaited pg ev = Some source -> loadImage source = Normal canvas ->
  history_ok (history (step pg ev)).
Proof.
  intros Hw Hload.
  destruct ev; cbn [ImageProcessingPage.step ImageProcessingPage.awaited] in *;
    try done.
  - injection Hw as ->. unfold onDrop. rewrite Hload.
    apply pushed_history_ok.
  - unfold applyFilter.
    destruct (H.processedImage (history pg)); [|done].
    destruct (findFilterById _ _ _ _); [|done].
    injection Hw as ->. rewrite Hload. apply show_history_ok.
  - unfold processImage. destruct (currentImage pg); [|done].
    destruct (_ =? _)%nat; [done|].
    injection Hw as ->. rewrite Hload. apply show_history_ok.
  - unfold rotateImage. destruct (H.processedImage (history pg)); [|done].
    injection Hw as ->. rewrite Hload. apply show_history_ok.
  - unfold flipImage. destruct (H.processedImage (history pg)); [|done].
    injection Hw as ->. rewrite Hload. apply show_history_ok.
  - unfold testImageProcessor. destruct (currentImage pg); [|done].
    injection Hw as ->. rewrite Hload. apply show_history_ok.
Qed.

Lemma finished_ok now j :
  history_ok (history now) -> history_ok (history (finished now j)).
Proof.
  intros Hok. unfold ImageProcessingPage.finished.
  destruct (awaited (caller j) (call j)) as [source|] eqn:Hw; [|done].
  destruct (loadImage source) as [canvas|e] eqn:Hload; [|done].
  cbn [history]. by apply (loaded_step_ok _ _ source canvas).
Qed.

Lemma called_history pg ev : history (called pg ev) = history pg.
Proof. by destruct ev. Qed.

(** When the image loads at once, the handler is handled to its end:
    [step] is the session in which nothing comes between a call and its
    image. *)
Lemma immediate_load pg ev source :
  awaited pg ev = Some source ->
  finished (called pg ev) (mkJob pg ev) = step pg ev.
Proof.
  intros Hw. unfold ImageProcessingPage.finished. cbn [caller call].
  rewrite Hw.
  destruct ev; cbn [ImageProcessingPage.step ImageProcessingPage.awaited
                    ImageProcessingPage.called] in *; try done.
  - injection Hw as ->. unfold onDrop.
    destruct (loadImage source); [done|by destruct pg].
  - unfold applyFilter in *.
    destruct (H.processedImage (history pg)); [|done].
    destruct (findFilterById _ _ _ _); [|done].
    injection Hw as ->. destruct (loadImage _); [done|by destruct pg].
  - unfold processImage in *. destruct (currentImage pg) eqn:E; [|done].
    destruct (_ =? _)%nat; [done|].
    injection Hw as ->. destruct (loadImage _); cbn; by rewrite ?E.
  - unfold rotateImage in *. destruct (H.processedImage (history pg)); [|done].
    injection Hw as ->. destruct (loadImage _); [done|by destruct pg].
  - unfold flipImage in *. destruct (H.processedImage (history pg)); [|done].
    injection Hw as ->. destruct (loadImage _); [done|by destruct pg].
  - unfold testImageProcessor in *. destruct (currentImage pg) eqn:E; [|done].
    injection Hw as ->. destruct (loadImage _).
    + unfold show. cbn. by rewrite E.
    + destruct pg. cbn in *. by subst.
Qed.

(** X18.  The image page always shows the history entry under its pointer.
    After any sequence of uploads, filters, rotations, flips, resets,
    captures loaded, undos, redos and clears, whichever images the decoder
    loads or fails to load, and with the images of the handlers that wait
    arriving in any order and at any time between the other events, the
    pointer is -1 with an empty history and no processed image, or it names
    an entry of the history and that entry is the processed image on screen;
    undo and redo therefore never show [undefined]. *)
Theorem page_shows_the_history_entry_under_the_pointer (inputs : list input) :
  history_ok (history (shown (session_run inputs))).
Proof.
  induction inputs as [|i inputs IH] using rev_ind.
  - unfold history_ok. cbn. split; [lia|]. done.
  - rewrite session_run_snoc.
    destruct i as [ev|k]; cbn [ImageProcessingPage.session_step].
    + destruct (awaited (shown (session_run inputs)) ev) eqn:Hw; cbn [shown].
      * by rewrite called_history.
      * by apply settled_step_ok.
    + destruct (waiting (session_run inputs) !! k); [|done].
      cbn [shown]. by apply finished_ok.
Qed.

(** X19.  Uploading a file starts a new history.  [onDrop] is memoised
    with an empty dependency list and so pushes on the empty history of the
    first render: after a successful upload the history holds the uploaded
    image alone, whatever had been done before, and neither undo nor redo
    changes the page; the earlier images cannot be reached any more. *)
Theorem upload_starts_a_new_history
        (evs : list event) (dataURL fileName : string) (canvas : P.ImageData) :
  loadImage dataURL = Normal canvas ->
  let pg := step (run evs) (Drop dataURL fileName) in
  let uploaded :=
    mkImage dataURL (Some fileName) (P.width canvas) (P.height canvas)
            fileName None in
  history pg = H.mkState (Some uploaded) [uploaded] 0
  /\ currentImage pg = Some uploaded
  /\ step pg Undo = pg
  /\ step pg Redo = pg.
Proof.
  intros Hload. cbn [ImageProcessingPage.step]. unfold onDrop.
  rewrite Hload. cbn. repeat split.
Qed.

Lemma toggle_NoDup (l : list string) (i : string) :
  NoDup l ->
  NoDup (if existsb (String.eqb i) l
         then List.filter (fun id => negb (String.eqb id i)) l
         else l ++ [i]).
Proof.
  intros Hnd. destruct (existsb (String.eqb i) l) eqn:E.
  - clear E. induction Hnd as [|x l Hx Hnd IH]; cbn; [constructor|].
    destruct (negb (String.eqb x i)); [|done].
    constructor; [|done].
    intros Hin%list_elem_of_In%filter_In. apply Hx.
    apply list_elem_of_In. tauto.
  - apply NoDup_app. split; [done|]. split; [|apply NoDup_singleton].
    intros x Hx ->%list_elem_of_singleton.
    assert (existsb (String.eqb i) l = true); [|congruence].
    apply existsb_exists. exists i. split; [by apply list_elem_of_In|].
    apply String.eqb_refl.
Qed.

(** X20.  No filter is selected twice.  Ticking and unticking filters in
    any order, among all the other things done on the page, leaves a
    selection without duplicates, so "Apply Filters" runs every selected
    filter once; ticking a filter that is not selected puts it last, and
    unticking it takes it out and keeps the order of the others. *)
Theorem selected_filters_have_no_duplicates (evs : list event) (i : string) :
  let sel := selectedFilters (run evs) in
  NoDup sel
  /\ selectedFilters (step (run evs) (ToggleFilter i))
     = (if existsb (String.eqb i) sel
        then List.filter (fun id => negb (String.eqb id i)) sel
        else sel ++ [i]).
Proof.
  cbv zeta. split; [|done].
  induction evs as [|ev evs IH] using rev_ind; [constructor|].
  rewrite page_run_snoc.
  destruct ev; cbn [ImageProcessingPage.step]; try exact IH.
  - unfold onDrop. by destruct (loadImage _).
  - by apply toggle_NoDup.
  - unfold applyFilter.
    destruct (H.processedImage _); [|done].
    destruct (findFilterById _ _ _ _); [|done].
    by destruct (loadImage _).
  - unfold processImage. destruct (currentImage _); [|done].
    destruct (_ =? _)%nat; [done|]. by destruct (loadImage _).
  - unfold rotateImage. destruct (H.processedImage _); [|done].
    by destruct (loadImage _).
  - unfold flipImage. destruct (H.processedImage _); [|done].
    by destruct (loadImage _).
  - constructor.
  - unfold resetToOriginal. by destruct (currentImage _).
  - unfold testImageProcessor. destruct (currentImage _); [|done].
    by destruct (loadImage _).
Qed.

Lemma clamp_bounds (lo hi x : float) :
  PrimFloat.is_nan lo = false -> PrimFloat.is_nan hi = false ->
  is_neg_zero lo = false -> is_neg_zero hi = false ->
  PrimFloat.ltb hi lo = false ->
  PrimFloat.ltb lo lo = false -> PrimFloat.ltb hi hi = false ->
  PrimFloat.ltb PrimFloat.nan lo = false ->
  PrimFloat.ltb hi PrimFloat.nan = false ->
  let r := Math_max lo (Math_min hi x) in
  PrimFloat.ltb r lo = false /\ PrimFloat.ltb hi r = false
  /\ PrimFloat.is_nan r = PrimFloat.is_nan x.
Proof.
  intros Hnl Hnh Hzl Hzh Hhl Hll Hhh Hnan1 Hnan2. cbv zeta.
  assert (Hm : PrimFloat.is_nan (Math_min hi x) = PrimFloat.is_nan x
               /\ (PrimFloat.is_nan x = false ->
                   PrimFloat.ltb hi (Math_min hi x) = false)).
  { unfold Math_min. rewrite Hnh, Hzh. cbn [orb].
    destruct (PrimFloat.is_nan x) eqn:En; [done|].
    destruct (PrimFloat.ltb hi x) eqn:E1; [done|].
    by destruct (PrimFloat.ltb x hi) eqn:E2. }
  destruct Hm as [Hn Hl]. rewrite <- Hn in *.
  set (m := Math_min hi x) in *. clearbody m.
  unfold Math_max. rewrite Hnl, Hzl. cbn [orb].
  destruct (PrimFloat.is_nan m) eqn:En; [done|].
  destruct (PrimFloat.ltb m lo) eqn:E1; [done|].
  destruct (PrimFloat.ltb lo m) eqn:E2; [by rewrite E1, Hl, En|done].
Qed.

Lemma adjustZoom_bounds (z delta : float) :
  let r := zoom (adjustZoom (mkPage None (H.initial image) [] [] false z [])
                            delta) in
  PrimFloat.ltb r min_zoom = false /\ PrimFloat.ltb max_zoom r = false
  /\ PrimFloat.is_nan r = PrimFloat.is_nan (z + delta).
Proof. by apply clamp_bounds. Qed.

Lemma zoom_step pg ev :
  PrimFloat.ltb (zoom pg) min_zoom = false
  /\ PrimFloat.ltb max_zoom (zoom pg) = false ->
  PrimFloat.ltb (zoom (step pg ev)) min_zoom = false
  /\ PrimFloat.ltb max_zoom (zoom (step pg ev)) = false.
Proof.
  intros Hz. destruct ev; cbn [ImageProcessingPage.step]; try done.
  - unfold onDrop. by destruct (loadImage _).
  - unfold applyFilter.
    destruct (H.processedImage _); [|done].
    destruct (findFilterById _ _ _ _); [|done].
    by destruct (loadImage _).
  - unfold processImage. destruct (currentImage _); [|done].
    destruct (_ =? _)%nat; [done|]. by destruct (loadImage _).
  - unfold rotateImage. destruct (H.processedImage _); [|done].
    by destruct (loadImage _).
  - unfold flipImage. destruct (H.processedImage _); [|done].
    by destruct (loadImage _).
  - destruct (adjustZoom_bounds (zoom pg) delta) as (? & ? & _). done.
  - unfold resetToOriginal. by destruct (currentImage _).
  - unfold testImageProcessor. destruct (currentImage _); [|done].
    by destruct (loadImage _).
Qed.

(** X21.  The zoom stays between 0.1 and 5.  After any sequence of events
    on the page, with any zoom steps, the zoom factor is never below 0.1
    and never above 5; a zoom step gives [NaN] only when the sum of the
    zoom and the step is [NaN]. *)
Theorem zoom_stays_between_bounds (evs : list event) (delta : float) :
  let z := zoom (run evs) in
  PrimFloat.ltb z min_zoom = false /\ PrimFloat.ltb max_zoom z = false
  /\ PrimFloat.is_nan (zoom (step (run evs) (AdjustZoom delta)))
     = PrimFloat.is_nan (z + delta).
Proof.
  cbv zeta.
  assert (Hz : PrimFloat.ltb (zoom (run evs)) min_zoom = false
               /\ PrimFloat.ltb max_zoom (zoom (run evs)) = false).
  { induction evs as [|ev evs IH] using rev_ind; [done|].
    rewrite page_run_snoc. by apply zoom_step. }
  destruct Hz as [Hlo Hhi]. split; [done|]. split; [done|].
  by destruct (adjustZoom_bounds (zoom (run evs)) delta) as (_ & _ & ?).
Qed.

End ImagePage.

(* ================================================================== *)
(** * The pixel filters, pixel by pixel                                *)
(* ================================================================== *)

Section PointFilters.
Import JS ImageProcessor.
Local Open Scope list_scope.

Lemma rd_shift (p d : list Z) (j : Z) :
  length p = 4%nat -> 4 <= j -> rd (p ++ d) j = rd d (j - 4).
Proof.
  intros Hp Hj. unfold rd, index.
  destruct (Z.ltb_spec j 0); [lia|]. destruct (Z.ltb_spec (j - 4) 0); [lia|].
  rewrite lookup_app_r by lia. do 2 f_equal. lia.
Qed.

Lemma store_shift (p d : list Z) (j : Z) (v : float) :
  length p = 4%nat -> 4 <= j -> store (p ++ d) j v = p ++ store d (j - 4) v.
Proof.
  intros Hp Hj. unfold store.
  destruct (Z.ltb_spec j 0); [lia|]. destruct (Z.ltb_spec (j - 4) 0); [lia|].
  rewrite insert_app_r_alt by lia. do 2 f_equal. lia.
Qed.

Lemma store_rgb_shift (p d : list Z) (j : Z) (r g b : float) :
  length p = 4%nat -> 4 <= j ->
  store_rgb (p ++ d) j r g b = p ++ store_rgb d (j - 4) r g b.
Proof.
  intros Hp Hj. unfold store_rgb.
  rewrite (store_shift p d j r Hp Hj).
  rewrite (store_shift p _ (j + 1) g Hp) by lia.
  rewrite (store_shift p _ (j + 2) b Hp) by lia.
  do 3 f_equal; lia.
Qed.

Lemma luminance_shift (p d : list Z) (j : Z) :
  length p = 4%nat -> 4 <= j -> luminance (p ++ d) j = luminance d (j - 4).
Proof.
  intros Hp Hj. unfold luminance. rewrite !rd_shift by lia.
  do 3 f_equal; f_equal; f_equal; lia.
Qed.

Lemma fold_shifted body px (p : list Z) idxs : forall d,
  pixel_local body px -> length p = 4%nat -> Forall (fun i => 0 <= i) idxs ->
  fold_left body (map (fun i => i + 4) idxs) (p ++ d)
  = p ++ fold_left body idxs d.
Proof.
  induction idxs as [|i idxs IH]; intros d Hb Hp Hi; [done|].
  apply Forall_cons in Hi as [Hi Hidxs]. cbn [map fold_left].
  destruct Hb as [Hs Hh]. rewrite Hs by done. by apply IH.
Qed.

Lemma pixel_indices (n : nat) :
  range_step 0 (Z.of_nat (4 * n)) 4 = map (fun k => 4 * Z.of_nat k) (seq 0 n).
Proof.
  unfold range_step.
  replace (Z.to_nat ((Z.of_nat (4 * n) - 0 + 4 - 1) / 4)) with n.
  - apply map_ext. intros k. lia.
  - replace (Z.of_nat (4 * n) - 0 + 4 - 1) with (3 + Z.of_nat n * 4) by lia.
    rewrite Z.div_add by lia. change (3 / 4) with 0. lia.
Qed.

Lemma each_pixel_map body px (n : nat) : forall d,
  pixel_local body px -> length d = (4 * n)%nat ->
  each_pixel body d = map_pixels px d.
Proof.
  unfold each_pixel. induction n as [|n IH]; intros d Hb Hlen.
  - destruct d; [done|discriminate].
  - destruct d as [|r [|g [|b [|a rest]]]]; try (cbn in Hlen; lia).
    rewrite Hlen, pixel_indices. cbn [seq map fold_left map_pixels].
    change (4 * Z.of_nat 0) with 0. destruct (Hb) as [_ Hh]. rewrite Hh.
    destruct (px r g b) as [[r' g'] b'].
    rewrite <- seq_shift, map_map.
    rewrite (map_ext _ (fun k => 4 * Z.of_nat k + 4)) by (intros; lia).
    rewrite <- (map_map (fun k => 4 * Z.of_nat k) (fun i => i + 4)).
    change (r' :: g' :: b' :: a :: rest) with ([r'; g'; b'; a] ++ rest).
    rewrite (fold_shifted body px) by
      (done || (apply Forall_map, Forall_forall; intros; cbn; lia)).
    cbn [app]. do 4 f_equal.
    assert (Hr : length rest = (4 * n)%nat) by (cbn in Hlen; lia).
    rewrite <- (IH rest Hb Hr), Hr, pixel_indices. done.
Qed.

Lemma invert_local :
  pixel_local (fun d i =>
                 let channel d i := store d i (255 - rd d i)%float in
                 let d := channel d i in
                 let d := channel d (i + 1) in
                 channel d (i + 2))
              invert_pixel.
Proof.
  split; [|done]. intros p d i Hp Hi. cbv beta zeta.
  rewrite !store_shift, !rd_shift by lia.
  by replace (i + 4 - 4) with i by lia;
     replace (i + 4 + 1 - 4) with (i + 1) by lia;
     replace (i + 4 + 2 - 4) with (i + 2) by lia.
Qed.

Lemma adjust_local brightness contrast :
  pixel_local (fun d i =>
                 let channel d i :=
                   store d i (Math_max 0 (Math_min 255
                     ((rd d i - 128) * contrast + 128 + brightness)))%float in
                 let d := channel d i in
                 let d := channel d (i + 1) in
                 channel d (i + 2))
              (adjust_pixel brightness contrast).
Proof.
  split; [|done]. intros p d i Hp Hi. cbv beta zeta.
  rewrite !store_shift, !rd_shift by lia.
  by replace (i + 4 - 4) with i by lia;
     replace (i + 4 + 1 - 4) with (i + 1) by lia;
     replace (i + 4 + 2 - 4) with (i + 2) by lia.
Qed.

Lemma gray_local :
  pixel_local (fun d i => let gray := luminance d i in
                          store_rgb d i gray gray gray)
              gray_pixel.
Proof.
  split; [|done]. intros p d i Hp Hi. cbv beta zeta.
  rewrite store_rgb_shift, luminance_shift by lia.
  by replace (i + 4 - 4) with i by lia.
Qed.

Lemma threshold_local value :
  pixel_local (fun d i =>
                 let gray := luminance d i in
                 let binary : float :=
                   if PrimFloat.ltb value gray then 255%float else 0%float in
                 store_rgb d i binary binary binary)
              (threshold_pixel value).
Proof.
  split.
  - intros p d i Hp Hi. cbv beta zeta.
    rewrite store_rgb_shift, luminance_shift by lia.
    by replace (i + 4 - 4) with i by lia.
  - intros r g b a rest. unfold threshold_pixel, luminance_of. cbv zeta.
    change (luminance (r :: g :: b :: a :: rest) 0) with (luminance [r; g; b] 0).
    by destruct (PrimFloat.ltb value (luminance [r; g; b] 0)).
Qed.

Lemma ToUint8Clamp_byte (a : float) : 0 <= ToUint8Clamp a <= 255.
Proof.
  unfold ToUint8Clamp.
  destruct (Prim2SF _) as [s|s| |[|] m e]; try lia; try (destruct s; lia).
  destruct (magnitude m e) as [n den] eqn:Em.
  assert (Hden : 0 < den /\ 0 <= n).
  { unfold magnitude in Em.
    destruct (Z.ltb_spec e 0); inversion Em; subst.
    - split; [apply Z.pow_pos_nonneg; lia|lia].
    - split; [lia|]. apply Z.mul_nonneg_nonneg; [lia|]. apply Z.pow_nonneg. lia. }
  assert (0 <= n / den) by (apply Z.div_pos; lia).
  repeat match goal with |- context [if ?b then _ else _] => destruct b end; lia.
Qed.

(** A property of bytes that holds for each of the 256 values. *)
Lemma bytes_checked (P : Z -> bool) :
  forallb P (range 0 256) = true -> forall v, 0 <= v <= 255 -> P v = true.
Proof.
  intros Hall v Hv. rewrite forallb_forall in Hall. apply Hall.
  unfold range. apply in_map_iff. exists (Z.to_nat v).
  split; [lia|]. apply in_seq. lia.
Qed.

Lemma map_pixels_steps px (n : nat) : forall d,
  (length d <= n)%nat ->
  length (map_pixels px d) = length d
  /\ (Forall (fun v => 0 <= v <= 255) d ->
      (forall r g b, 0 <= r <= 255 -> 0 <= g <= 255 -> 0 <= b <= 255 ->
                     let '(r', g', b') := px r g b in
                     0 <= r' <= 255 /\ 0 <= g' <= 255 /\ 0 <= b' <= 255) ->
      Forall (fun v => 0 <= v <= 255) (map_pixels px d)).
Proof.
  induction n as [|n IH]; intros d Hn.
  - destruct d; [|cbn in Hn; lia]. done.
  - destruct d as [|r [|g [|b [|a rest]]]]; try done.
    cbn [map_pixels]. destruct (px r g b) as [[r' g'] b'] eqn:E.
    destruct (IH rest) as [Hl Hb]; [cbn in Hn; lia|].
    split; [cbn; by rewrite Hl|].
    intros Hd Hpx. apply Forall_cons in Hd as [Hr Hd].
    apply Forall_cons in Hd as [Hg Hd]. apply Forall_cons in Hd as [Hbb Hd].
    apply Forall_cons in Hd as [Ha Hd].
    pose proof (Hpx r g b Hr Hg Hbb) as Hp1. rewrite E in Hp1.
    destruct Hp1 as (? & ? & ?).
    repeat (apply Forall_cons; split; [done|]). by apply Hb.
Qed.

Lemma map_pixels_length px d : length (map_pixels px d) = length d.
Proof. by apply (map_pixels_steps px (length d) d). Qed.

Lemma map_pixels_then f g (n : nat) : forall d,
  (length d <= n)%nat ->
  map_pixels f (map_pixels g d) = map_pixels (then_pixel g f) d.
Proof.
  induction n as [|n IH]; intros d Hn.
  - destruct d; [|cbn in Hn; lia]. done.
  - destruct d as [|r [|g0 [|b [|a rest]]]]; try done.
    cbn [map_pixels]. unfold then_pixel at 1.
    destruct (g r g0 b) as [[r1 g1] b1]. cbn [map_pixels].
    destruct (f r1 g1 b1) as [[r2 g2] b2].
    rewrite IH by (cbn in Hn; lia). done.
Qed.

Lemma map_pixels_same f g (n : nat) : forall d,
  (length d <= n)%nat ->
  Forall (fun v => 0 <= v <= 255) d ->
  (forall r g0 b, 0 <= r <= 255 -> 0 <= g0 <= 255 -> 0 <= b <= 255 ->
                  f r g0 b = g r g0 b) ->
  map_pixels f d = map_pixels g d.
Proof.
  induction n as [|n IH]; intros d Hn Hd Hfg.
  - destruct d; [|cbn in Hn; lia]. done.
  - destruct d as [|r [|g0 [|b [|a rest]]]]; try done.
    apply Forall_cons in Hd as [Hr Hd].
    apply Forall_cons in Hd as [Hg Hd]. apply Forall_cons in Hd as [Hbb Hd].
    apply Forall_cons in Hd as [Ha Hd].
    cbn [map_pixels]. rewrite (Hfg r g0 b) by done.
    destruct (g r g0 b) as [[r1 g1] b1].
    rewrite (IH rest) by (done || (cbn in Hn; lia)). done.
Qed.

Lemma map_pixels_id (n : nat) : forall d,
  (length d <= n)%nat -> map_pixels (fun r g b => (r, g, b)) d = d.
Proof.
  induction n as [|n IH]; intros d Hn.
  - destruct d; [|cbn in Hn; lia]. done.
  - destruct d as [|r [|g0 [|b [|a rest]]]]; try done.
    cbn [map_pixels]. rewrite IH by (cbn in Hn; lia). done.
Qed.

Lemma invert_map img :
  well_formed img -> data (invert img) = map_pixels invert_pixel (data img).
Proof.
  intros [[n Hn] _]. unfold invert. cbn [data with_data].
  apply (each_pixel_map _ _ n); [apply invert_local|done].
Qed.

Lemma grayscale_map img :
  well_formed img -> data (grayscale img) = map_pixels gray_pixel (data img).
Proof.
  intros [[n Hn] _]. unfold grayscale. cbn [data with_data].
  apply (each_pixel_map _ _ n); [apply gray_local|done].
Qed.

Lemma threshold_map value img :
  well_formed img ->
  data (threshold value img) = map_pixels (threshold_pixel value) (data img).
Proof.
  intros [[n Hn] _]. unfold threshold. cbn [data with_data].
  apply (each_pixel_map _ _ n); [apply threshold_local|done].
Qed.

Lemma adjust_map brightness contrast img :
  well_formed img ->
  data (adjustBrightnessContrast brightness contrast img)
  = map_pixels (adjust_pixel brightness contrast) (data img).
Proof.
  intros [[n Hn] _]. unfold adjustBrightnessContrast. cbn [data with_data].
  apply (each_pixel_map _ _ n); [apply adjust_local|done].
Qed.

Lemma mapped_well_formed px img d :
  well_formed img -> d = map_pixels px (data img) ->
  (forall r g b, let '(r', g', b') := px r g b in
                 0 <= r' <= 255 /\ 0 <= g' <= 255 /\ 0 <= b' <= 255) ->
  well_formed (with_data img d).
Proof.
  intros [[n Hn] Hb] -> Hpx. split; cbn [data with_data].
  - exists n. by rewrite map_pixels_length.
  - apply (map_pixels_steps px (length (data img))); [done|done|].
    intros r g b _ _ _. apply Hpx.
Qed.

(** X22.  The point filters work pixel by pixel.  On an image of whole
    pixels, [invert], [grayscale], [threshold] and
    [adjustBrightnessContrast] give every pixel colour bytes computed from
    the colour bytes of that same pixel alone, and keep its alpha byte: the
    result is the buffer with one function applied to each pixel. *)
Theorem point_filters_work_pixel_by_pixel (img : ImageData) :
  well_formed img ->
  data (invert img) = map_pixels invert_pixel (data img)
  /\ data (grayscale img) = map_pixels gray_pixel (data img)
  /\ (forall value,
        data (threshold value img)
        = map_pixels (threshold_pixel value) (data img))
  /\ (forall brightness contrast,
        data (adjustBrightnessContrast brightness contrast img)
        = map_pixels (adjust_pixel brightness contrast) (data img)).
Proof.
  intros Hw. split; [by apply invert_map|]. split; [by apply grayscale_map|].
  split; [intros v; by apply threshold_map|].
  intros b c. by apply adjust_map.
Qed.

Lemma with_data_same img d : d = data img -> with_data img d = img.
Proof. intros ->. by destruct img. Qed.

Lemma with_data_twice img d1 d2 :
  with_data (with_data img d1) d2 = with_data img d2.
Proof. done. Qed.

(** X23.  Inverting twice gives the image back.  On an image of whole
    pixels with bytes in 0..255, [invert] after [invert] is the identity:
    every colour byte [v] becomes [255 - v] and then [v] again, and the
    alpha bytes and the size are never touched. *)
Theorem invert_twice_is_identity (img : ImageData) :
  well_formed img -> invert (invert img) = img.
Proof.
  intros Hw. pose proof Hw as [[n Hn] Hb].
  assert (Hw1 : well_formed (invert img)).
  { apply (mapped_well_formed invert_pixel); [done|by apply invert_map|].
    intros r g b. cbn. repeat split; apply ToUint8Clamp_byte. }
  assert (E : data (invert (invert img)) = data img).
  { rewrite (invert_map _ Hw1), (invert_map _ Hw).
    rewrite (map_pixels_then _ _ (length (data img))) by done.
    rewrite (map_pixels_same _ (fun r g b => (r, g, b)) (length (data img)));
      [by apply (map_pixels_id (length (data img)))|done|done|].
    intros r g b Hr Hg Hbb. unfold then_pixel, invert_pixel.
    pose proof (bytes_checked
                  (fun v => ToUint8Clamp (255 - num (ToUint8Clamp (255 - num v)))
                            =? v) eq_refl) as Hchk.
    cbv beta in Hchk.
    by rewrite (proj1 (Z.eqb_eq _ _) (Hchk r Hr)),
               (proj1 (Z.eqb_eq _ _) (Hchk g Hg)),
               (proj1 (Z.eqb_eq _ _) (Hchk b Hbb)). }
  change (invert (invert img))
    with (with_data (invert img) (data (invert (invert img)))).
  rewrite E. unfold invert, with_data. cbn [width height]. by destruct img.
Qed.

Lemma filter_twice (f : ImageData -> ImageData) px (img : ImageData) :
  (forall img, f img = with_data img (data (f img))) ->
  (forall img, well_formed img -> data (f img) = map_pixels px (data img)) ->
  (forall r g b, let '(r', g', b') := px r g b in
                 0 <= r' <= 255 /\ 0 <= g' <= 255 /\ 0 <= b' <= 255) ->
  well_formed img ->
  data (f (f img)) = map_pixels (then_pixel px px) (data img).
Proof.
  intros Hf Hmap Hpx Hw.
  assert (Hw1 : well_formed (f img)).
  { rewrite Hf. apply (mapped_well_formed px); [done|by apply Hmap|done]. }
  rewrite (Hmap _ Hw1), (Hmap _ Hw).
  by apply (map_pixels_then _ _ (length (data img))).
Qed.

(** X24.  Converting to grayscale twice changes nothing more.  On an image
    of whole pixels with bytes in 0..255, [grayscale] gives every pixel three
    equal colour bytes, and a second [grayscale] returns the same image: the
    luminance of a gray pixel (v, v, v) rounds to v for each of the 256
    values. *)
Theorem grayscale_is_idempotent (img : ImageData) :
  well_formed img ->
  grayscale (grayscale img) = grayscale img
  /\ data (grayscale img) = map_pixels gray_pixel (data img).
Proof.
  intros Hw. split; [|by apply grayscale_map].
  assert (E : data (grayscale (grayscale img)) = data (grayscale img)).
  { rewrite (filter_twice grayscale gray_pixel); [|done|apply grayscale_map| |done].
    - rewrite (grayscale_map _ Hw). destruct Hw as [_ Hb].
      apply (map_pixels_same _ _ (length (data img))); [done|done|].
      intros r g b _ _ _. unfold then_pixel, gray_pixel. cbv zeta.
      pose proof (bytes_checked
                    (fun v => ToUint8Clamp (luminance_of v v v) =? v) eq_refl
                    (ToUint8Clamp (luminance_of r g b))
                    (ToUint8Clamp_byte _)) as Hchk.
      cbv beta in Hchk. by rewrite (proj1 (Z.eqb_eq _ _) Hchk).
    - intros r g b. cbn. repeat split; apply ToUint8Clamp_byte. }
  change (grayscale (grayscale img))
    with (with_data (grayscale img) (data (grayscale (grayscale img)))).
  by rewrite E.
Qed.

Lemma grayscale_is_idempotent_witness :
  grayscale (grayscale two_pixels) = grayscale two_pixels
  /\ data (grayscale two_pixels) = map_pixels gray_pixel (data two_pixels).
Proof.
  apply (grayscale_is_idempotent two_pixels).
  split; [by exists 2%nat|]. repeat constructor; cbn; lia.
Defined.

Lemma invert_twice_is_identity_witness :
  invert (invert two_pixels) = two_pixels.
Proof.
  apply (invert_twice_is_identity two_pixels).
  split; [by exists 2%nat|]. repeat constructor; cbn; lia.
Defined.

Lemma point_filters_work_pixel_by_pixel_witness :
  data (invert two_pixels) = map_pixels invert_pixel (data two_pixels)
  /\ data (grayscale two_pixels) = map_pixels gray_pixel (data two_pixels)
  /\ (forall value,
        data (threshold value two_pixels)
        = map_pixels (threshold_pixel value) (data two_pixels))
  /\ (forall brightness contrast,
        data (adjustBrightnessContrast brightness contrast two_pixels)
        = map_pixels (adjust_pixel brightness contrast) (data two_pixels)).
Proof.
  apply (point_filters_work_pixel_by_pixel two_pixels).
  split; [by exists 2%nat|]. repeat constructor; cbn; lia.
Defined.

(** X25.  A threshold gives a black and white image, and applying it again
    changes nothing.  On an image of whole pixels every pixel of
    [threshold value] is (255, 255, 255) when its luminance is above
    [value] and (0, 0, 0) otherwise; for a [value] that is not negative and
    below 255 a second [threshold value] returns the same image. *)
Theorem threshold_is_binary_and_idempotent (value : float) (img : ImageData) :
  well_formed img ->
  PrimFloat.ltb value 0 = false -> PrimFloat.ltb value 255 = true ->
  data (threshold value img) = map_pixels (threshold_pixel value) (data img)
  /\ (forall r g b,
        threshold_pixel value r g b = (255, 255, 255)
        \/ threshold_pixel value r g b = (0, 0, 0))
  /\ threshold value (threshold value img) = threshold value img.
Proof.
  intros Hw H0 H255. split; [by apply threshold_map|]. split.
  { intros r g b. unfold threshold_pixel. cbv zeta.
    destruct (PrimFloat.ltb value (luminance_of r g b)); [by left|by right]. }
  assert (E : data (threshold value (threshold value img))
              = data (threshold value img)).
  { rewrite (filter_twice (threshold value) (threshold_pixel value));
      [|done|apply threshold_map| |done].
    - rewrite (threshold_map _ _ Hw). destruct Hw as [_ Hb].
      apply (map_pixels_same _ _ (length (data img))); [done|done|].
      intros r g b _ _ _. unfold then_pixel, threshold_pixel. cbv zeta.
      destruct (PrimFloat.ltb value (luminance_of r g b)).
      + change (luminance_of 255 255 255) with 255%float. by rewrite H255.
      + change (luminance_of 0 0 0) with 0%float. by rewrite H0.
    - intros r g b. unfold threshold_pixel. cbv zeta.
      destruct (PrimFloat.ltb value (luminance_of r g b)); lia. }
  change (threshold value (threshold value img))
    with (with_data (threshold value img)
                    (data (threshold value (threshold value img)))).
  by rewrite E.
Qed.

Lemma threshold_is_binary_and_idempotent_witness :
  data (threshold 128 two_pixels)
  = map_pixels (threshold_pixel 128) (data two_pixels)
  /\ (forall r g b,
        threshold_pixel 128 r g b = (255, 255, 255)
        \/ threshold_pixel 128 r g b = (0, 0, 0))
  /\ threshold 128 (threshold 128 two_pixels) = threshold 128 two_pixels.
Proof.
  apply (threshold_is_binary_and_idempotent 128 two_pixels).
  - split; [by exists 2%nat|]. repeat constructor; cbn; lia.
  - reflexivity.
  - reflexivity.
Defined.

Lemma adjust_neutral (img : ImageData) :
  well_formed img -> adjustBrightnessContrast 0 1 img = img.
Proof.
  intros Hw. pose proof Hw as [_ Hb].
  assert (E : data (adjustBrightnessContrast 0 1 img) = data img).
  { rewrite (adjust_map _ _ _ Hw).
    rewrite (map_pixels_same _ (fun r g b => (r, g, b)) (length (data img)));
      [by apply (map_pixels_id (length (data img)))|done|done|].
    intros r g b Hr Hg Hbb. unfold adjust_pixel. cbv zeta.
    pose proof (bytes_checked
                  (fun v => ToUint8Clamp
                              (Math_max 0 (Math_min 255
                                 ((num v - 128) * 1 + 128 + 0))) =? v)
                  eq_refl) as Hchk.
    cbv beta in Hchk.
    by rewrite (proj1 (Z.eqb_eq _ _) (Hchk r Hr)),
               (proj1 (Z.eqb_eq _ _) (Hchk g Hg)),
               (proj1 (Z.eqb_eq _ _) (Hchk b Hbb)). }
  change (adjustBrightnessContrast 0 1 img)
    with (with_data img (data (adjustBrightnessContrast 0 1 img))).
  rewrite E. by destruct img.
Qed.

End PointFilters.

Section FilterSizes.
Import JS ImageProcessor.
Local Open Scope list_scope.

Lemma fold_left_same_length {I} (body : list Z -> I -> list Z) l :
  (forall d i, length (body d i) = length d) ->
  forall d, length (fold_left body l d) = length d.
Proof.
  intros Hb. induction l as [|i l IH]; intros d; cbn; [done|].
  by rewrite IH, Hb.
Qed.

Lemma for2_same_length ys xs (body : list Z -> Z -> Z -> list Z) :
  (forall d y x, length (body d y x) = length d) ->
  forall d, length (for2 ys xs body d) = length d.
Proof.
  intros Hb d. unfold for2. apply fold_left_same_length.
  intros d' y. apply fold_left_same_length. intros d'' x. apply Hb.
Qed.

Ltac point_size :=
  intros img; split; [|split; [|done]];
  [|cbn [data with_data]; unfold each_pixel; apply fold_left_same_length;
    intros; cbv zeta; by rewrite ?store_rgb_length, ?store_length].

Ltac neighbourhood_size :=
  intros img; split; [|split; [|done]];
  [|cbn [data with_data]; apply for2_same_length; intros; cbv zeta;
    repeat match goal with
           | |- context [let '(_, _) := ?e in _] => destruct e
           end;
    apply store_rgb_length].

Lemma grayscale_keeps : keeps_size_and_alpha grayscale.
Proof. point_size. apply grayscale_alpha. Qed.

Lemma invert_keeps : keeps_size_and_alpha invert.
Proof. point_size. apply invert_alpha. Qed.

Lemma adjustBrightnessContrast_keeps b c :
  keeps_size_and_alpha (adjustBrightnessContrast b c).
Proof. point_size. apply adjustBrightnessContrast_alpha. Qed.

Lemma threshold_keeps v : keeps_size_and_alpha (threshold v).
Proof. point_size. apply threshold_alpha. Qed.

Lemma histogramEqualization_keeps : keeps_size_and_alpha histogramEqualization.
Proof. point_size. apply histogramEqualization_alpha. Qed.

Lemma medianFilter_keeps k : keeps_size_and_alpha (medianFilter k).
Proof. unfold medianFilter. neighbourhood_size. apply medianFilter_alpha. Qed.

Lemma sobelEdgeDetection_keeps : keeps_size_and_alpha sobelEdgeDetection.
Proof.
  unfold sobelEdgeDetection. neighbourhood_size.
  apply sobelEdgeDetection_alpha.
Qed.

Lemma noiseReduction_keeps : keeps_size_and_alpha noiseReduction.
Proof. unfold noiseReduction. neighbourhood_size. apply noiseReduction_alpha. Qed.

Lemma applyConvolution_keeps kernel :
  keeps_size_and_alpha (applyConvolution kernel).
Proof.
  unfold applyConvolution. neighbourhood_size. apply applyConvolution_alpha.
Qed.

Lemma morphologicalOperation_keeps op k :
  keeps_size_and_alpha (morphologicalOperation op k).
Proof.
  unfold morphologicalOperation. neighbourhood_size.
  apply morphologicalOperation_alpha.
Qed.

End FilterSizes.

Section PageFilters.
Import JS ImageProcessingPage.
Local Open Scope string_scope.
Local Open Scope list_scope.

Variable rotate : float -> P.ImageData -> P.ImageData.
Variable flip : string -> P.ImageData -> P.ImageData.
Variable Math_exp : float -> float.

Lemma found_filter_keeps (filterId : string) (f : filter) (ps : params) :
  findFilterById rotate flip Math_exp filterId = Some f ->
  filterId <> "rotate" -> filterId <> "flip" ->
  keeps_size_and_alpha (apply f ps).
Proof.
  unfold findFilterById, availableFilters.
  cbn [map snd find_in List.find filter_id].
  intros Hf Hr Hfl. revert Hf.
  repeat match goal with
         | |- context [String.eqb ?a filterId] =>
             destruct (String.eqb_spec a filterId) as [?|_]
         end;
    try congruence; intros [= <-]; cbn [apply].
  - apply adjustBrightnessContrast_keeps.
  - apply invert_keeps.
  - apply grayscale_keeps.
  - apply applyConvolution_keeps.
  - apply medianFilter_keeps.
  - apply applyConvolution_keeps.
  - apply morphologicalOperation_keeps.
  - apply morphologicalOperation_keeps.
  - apply sobelEdgeDetection_keeps.
  - apply histogramEqualization_keeps.
  - apply threshold_keeps.
  - apply noiseReduction_keeps.
Qed.

(** X26.  "Apply Filters" keeps the size of the image and its
    transparency.  Whatever filters are selected, in whatever order and
    with whatever parameters, as long as rotation and flipping are not among
    them, the pixels the loop of [processImage] leaves in the processor have
    the width, the height and the number of bytes of the image loaded, and
    every alpha byte is the one of the image loaded; an id that names no
    filter is skipped. *)
Theorem apply_filters_keeps_size_and_alpha
        (pg : page) (canvas : P.ImageData) :
  Forall (fun filterId => filterId <> "rotate" /\ filterId <> "flip")
         (selectedFilters pg) ->
  let result := applySelected rotate flip Math_exp pg canvas in
  same_alpha (P.data canvas) (P.data result)
  /\ length (P.data result) = length (P.data canvas)
  /\ P.width result = P.width canvas
  /\ P.height result = P.height canvas.
Proof.
  unfold applySelected. generalize (selectedFilters pg) as sel.
  intros sel Hsel. revert canvas.
  induction Hsel as [|filterId sel [Hr Hf] _ IH]; intros canvas;
    cbn [fold_left].
  - split; [apply same_alpha_refl|done].
  - destruct (findFilterById rotate flip Math_exp filterId) as [f|] eqn:E;
      [|apply IH].
    destruct (found_filter_keeps filterId f (params_of pg filterId) E Hr Hf
                                 canvas) as (Ha & Hl & Hw & Hh).
    destruct (IH (apply f (params_of pg filterId) canvas))
      as (Ha' & Hl' & Hw' & Hh').
    split; [by eapply same_alpha_trans|]. repeat split; congruence.
Qed.

(** X27.  The Brightness/Contrast filter with its default parameters
    changes nothing.  The filter found under the id ['brightness'] is
    applied with [params.brightness || 0] and [params.contrast || 1]; when
    these are 0 and 1 (parameters left out, or a contrast of 0, which [||]
    replaces by 1) every byte of an image with bytes in 0..255 stays as it
    is. *)
Theorem brightness_filter_defaults_change_nothing
        (ps : params) (img : P.ImageData) :
  well_formed img ->
  or_float (brightness ps) 0 = 0%float ->
  or_float (contrast ps) 1 = 1%float ->
  exists f,
    findFilterById rotate flip Math_exp "brightness" = Some f
    /\ apply f ps img = img.
Proof.
  intros Hw Hb Hc. eexists. split; [reflexivity|]. cbn [apply].
  rewrite Hb, Hc. by apply adjust_neutral.
Qed.

End PageFilters.

Section Borders.
Import JS ImageProcessor.
Local Open Scope list_scope.

Lemma in_range lo hi v : v ∈ range lo hi -> lo <= v < hi.
Proof.
  unfold range. intros Hin%list_elem_of_In%in_map_iff.
  destruct Hin as (k & <- & Hk%in_seq). lia.
Qed.

Lemma fold_left_frame {I} (body : list Z -> I -> list Z) (j : nat) l :
  (forall d i, i ∈ l -> body d i !! j = d !! j) ->
  forall d, fold_left body l d !! j = d !! j.
Proof.
  induction l as [|i l IH]; intros Hb d; cbn; [done|].
  rewrite IH by (intros d' i' Hi'; apply Hb; by right).
  apply Hb. left.
Qed.

Lemma for2_frame ys xs (body : list Z -> Z -> Z -> list Z) (j : nat) :
  (forall d y x, y ∈ ys -> x ∈ xs -> body d y x !! j = d !! j) ->
  forall d, for2 ys xs body d !! j = d !! j.
Proof.
  intros Hb d. unfold for2. apply fold_left_frame.
  intros d' y Hy. apply fold_left_frame. intros d'' x Hx. by apply Hb.
Qed.

Lemma border_offset img h x0 y0 c y x c' :
  0 <= h -> 0 <= x0 < width img -> 0 <= c <= 3 -> 0 <= c' <= 2 ->
  on_border img h x0 y0 ->
  h <= y < height img - h -> h <= x < width img - h ->
  offset img y0 x0 + c <> offset img y x + c'.
Proof.
  unfold offset, on_border. intros Hh Hx0 Hc Hc' Hb Hy Hx Heq.
  assert (E : y0 * width img + x0 = y * width img + x) by lia.
  assert (Ey : y0 = y) by nia.
  subst y0. lia.
Qed.

Lemma neighbourhood_border img h (body : list Z -> Z -> Z -> list Z)
      (j : nat) x0 y0 c :
  (forall d y x, exists r g b,
      body d y x = store_rgb d (offset img y x) r g b) ->
  0 <= h -> 0 <= x0 < width img -> 0 <= c <= 3 ->
  Z.of_nat j = offset img y0 x0 + c ->
  on_border img h x0 y0 ->
  forall d,
    for2 (range h (height img - h)) (range h (width img - h)) body d !! j
    = d !! j.
Proof.
  intros Hbody Hh Hx0 Hc Hj Hb d. apply for2_frame.
  intros d' y x Hy%in_range Hx%in_range.
  destruct (Hbody d' y x) as (r & g & b & ->).
  apply store_rgb_lookup_ne; rewrite Hj.
  - replace (offset img y x) with (offset img y x + 0) by lia.
    by apply (border_offset img h).
  - by apply (border_offset img h).
  - by apply (border_offset img h).
Qed.

Ltac writes_one_pixel :=
  intros d y x; cbv zeta;
  repeat match goal with
         | |- context [let '(_, _) := ?e in _] => destruct e
         end;
  by eexists _, _, _.

Lemma medianFilter_border k img (j : nat) x0 y0 c :
  0 <= k -> 0 <= x0 < width img -> 0 <= c <= 3 ->
  Z.of_nat j = offset img y0 x0 + c -> on_border img (k / 2) x0 y0 ->
  data (medianFilter k img) !! j = data img !! j.
Proof.
  intros Hk Hx0 Hc Hj Hb. unfold medianFilter. cbn [data with_data].
  apply (neighbourhood_border img (k / 2) _ j x0 y0 c); try done.
  - writes_one_pixel.
  - apply Z.div_pos; lia.
Qed.

Lemma morphologicalOperation_border op k img (j : nat) x0 y0 c :
  0 <= k -> 0 <= x0 < width img -> 0 <= c <= 3 ->
  Z.of_nat j = offset img y0 x0 + c -> on_border img (k / 2) x0 y0 ->
  data (morphologicalOperation op k img) !! j = data img !! j.
Proof.
  intros Hk Hx0 Hc Hj Hb. unfold morphologicalOperation. cbn [data with_data].
  apply (neighbourhood_border img (k / 2) _ j x0 y0 c); try done.
  - writes_one_pixel.
  - apply Z.div_pos; lia.
Qed.

Lemma applyConvolution_border kernel img (j : nat) x0 y0 c :
  0 <= x0 < width img -> 0 <= c <= 3 ->
  Z.of_nat j = offset img y0 x0 + c ->
  on_border img (Z.of_nat (length kernel) / 2) x0 y0 ->
  data (applyConvolution kernel img) !! j = data img !! j.
Proof.
  intros Hx0 Hc Hj Hb. unfold applyConvolution. cbn [data with_data].
  apply (neighbourhood_border img (Z.of_nat (length kernel) / 2) _ j x0 y0 c);
    try done.
  - writes_one_pixel.
  - apply Z.div_pos; lia.
Qed.

Lemma noiseReduction_border img (j : nat) x0 y0 c :
  0 <= x0 < width img -> 0 <= c <= 3 ->
  Z.of_nat j = offset img y0 x0 + c -> on_border img 1 x0 y0 ->
  data (noiseReduction img) !! j = data img !! j.
Proof.
  intros Hx0 Hc Hj Hb. unfold noiseReduction. cbn [data with_data].
  apply (neighbourhood_border img 1 _ j x0 y0 c); try done.
  writes_one_pixel.
Qed.

Lemma sobelEdgeDetection_border img (j : nat) x0 y0 c :
  0 <= x0 < width img -> 0 <= c <= 3 ->
  Z.of_nat j = offset img y0 x0 + c -> on_border img 1 x0 y0 ->
  data (sobelEdgeDetection img) !! j = data img !! j.
Proof.
  intros Hx0 Hc Hj Hb. unfold sobelEdgeDetection. cbn [data with_data].
  apply (neighbourhood_border img 1 _ j x0 y0 c); try done.
  writes_one_pixel.
Qed.

Lemma createGaussianKernel_length Math_exp size sigma :
  0 <= size ->
  Z.of_nat (length (createGaussianKernel Math_exp size sigma)) = size.
Proof.
  intros Hs. unfold createGaussianKernel. cbv zeta.
  rewrite !length_map. unfold range. rewrite length_map, length_seq. lia.
Qed.

(** X28.  The neighbourhood filters never write the border.  For a kernel
    of size k a pixel less than floor(k / 2) pixels away from an edge of the
    image keeps its four bytes under the median filter, erosion, dilation,
    any convolution and the Gaussian blur; under noise reduction, Sobel edge
    detection and sharpening the outermost ring of pixels is kept. *)
Theorem neighbourhood_filters_keep_the_border
        (img : ImageData) (h x0 y0 c : Z) (j : nat) :
  0 <= x0 < width img -> 0 <= c <= 3 ->
  Z.of_nat j = offset img y0 x0 + c ->
  on_border img h x0 y0 ->
  let kept (f : ImageData -> ImageData) := data (f img) !! j = data img !! j in
  (forall k, 0 <= k -> k / 2 = h ->
             kept (medianFilter k) /\ kept (erosion k) /\ kept (dilation k))
  /\ (forall kernel, Z.of_nat (length kernel) / 2 = h ->
                     kept (applyConvolution kernel))
  /\ (forall Math_exp k sigma, 0 <= k -> k / 2 = h ->
                               kept (gaussianBlur Math_exp k sigma))
  /\ (h = 1 -> kept noiseReduction /\ kept sobelEdgeDetection /\ kept sharpen).
Proof.
  intros Hx0 Hc Hj Hb. cbv zeta. split; [|split; [|split]].
  - intros k Hk <-. split; [by apply (medianFilter_border k img j x0 y0 c)|].
    split; by apply (morphologicalOperation_border _ k img j x0 y0 c).
  - intros kernel <-. by apply (applyConvolution_border kernel img j x0 y0 c).
  - intros Math_exp k sigma Hk <-. unfold gaussianBlur. cbv zeta.
    apply (applyConvolution_border _ img j x0 y0 c); try done.
    by rewrite createGaussianKernel_length.
  - intros ->. split; [by apply (noiseReduction_border img j x0 y0 c)|].
    split; [by apply (sobelEdgeDetection_border img j x0 y0 c)|].
    by apply (applyConvolution_border _ img j x0 y0 c).
Qed.

Lemma neighbourhood_filters_keep_the_border_witness :
  data (medianFilter 3 nine_pixels) !! 9%nat = data nine_pixels !! 9%nat
  /\ data (sharpen nine_pixels) !! 9%nat = data nine_pixels !! 9%nat.
Proof.
  destruct (neighbourhood_filters_keep_the_border nine_pixels 1 2 0 1 9)
    as (Hk & _ & _ & H1).
  - cbn. lia.
  - lia.
  - reflexivity.
  - right. left. cbn. lia.
  - destruct (Hk 3) as (Hm & _); [lia|reflexivity|].
    destruct (H1 eq_refl) as (_ & _ & Hs).
    split; [exact Hm|exact Hs].
Defined.

End Borders.

Section PageExamples.
Import JS Obj ImageProcessingPage.
Local Open Scope string_scope.
Local Open Scope list_scope.

Lemma upload_starts_a_new_history_witness :
  let step := step decode_two_pixels encode_size no_rotate no_flip no_exp
                   plain_date in
  let pg :=
    step (run decode_two_pixels encode_size no_rotate no_flip no_exp plain_date
              [Drop "data:a" "a.png"; ApplyFilter "invert"; RotateImage 90])
         (Drop "data:b" "b.png") in
  let uploaded :=
    mkImage "data:b" (Some "b.png") (P.width two_pixels) (P.height two_pixels)
            "b.png" None in
  history pg = H.mkState (Some uploaded) [uploaded] 0
  /\ currentImage pg = Some uploaded
  /\ step pg Undo = pg
  /\ step pg Redo = pg.
Proof.
  exact (upload_starts_a_new_history decode_two_pixels encode_size no_rotate
           no_flip no_exp plain_date
           [Drop "data:a" "a.png"; ApplyFilter "invert"; RotateImage 90]
           "data:b" "b.png" two_pixels eq_refl).
Defined.

Lemma apply_filters_keeps_size_and_alpha_witness :
  let pg := mkPage None (H.initial image) ["invert"; "sepia"; "median_filter"]
                   [] false 1 [] in
  let result := applySelected no_rotate no_flip no_exp pg two_pixels in
  same_alpha (P.data two_pixels) (P.data result)
  /\ length (P.data result) = length (P.data two_pixels)
  /\ P.width result = P.width two_pixels
  /\ P.height result = P.height two_pixels.
Proof.
  apply (apply_filters_keeps_size_and_alpha no_rotate no_flip no_exp
           (mkPage None (H.initial image) ["invert"; "sepia"; "median_filter"]
                   [] false 1 [])
           two_pixels).
  repeat (apply Forall_cons; split; [split; discriminate|]).
  apply Forall_nil_2.
Defined.

Lemma brightness_filter_defaults_change_nothing_witness :
  exists f,
    findFilterById no_rotate no_flip no_exp "brightness" = Some f
    /\ apply f (mkParams None None (Some 0%float) (Some 0%float) None None None)
             two_pixels
       = two_pixels.
Proof.
  apply (brightness_filter_defaults_change_nothing no_rotate no_flip no_exp
           (mkParams None None (Some 0%float) (Some 0%float) None None None)
           two_pixels).
  - split; [by exists 2%nat|]. repeat constructor; cbn; lia.
  - reflexivity.
  - reflexivity.
Defined.

Lemma slice0_first {A} (l : list A) (n : Z) :
  0 <= n -> slice0 l n = take (Z.to_nat n) l.
Proof.
  intros Hn. unfold slice0. destruct (Z.ltb_spec n 0); [lia|].
  destruct (Z.le_ge_cases n (Z.of_nat (length l))).
  - by rewrite Z.min_l.
  - rewrite Z.min_r by done. rewrite Nat2Z.id.
    by rewrite !take_ge by lia.
Qed.

(** X29.  Which captures the image page lists.  The page lists the first
    six captures whose stored type is ['image_processing'], in the order of
    the store.  A capture added with that type is listed first, followed by
    the first five captures of that type that were stored before; a capture
    added without a type is stored as ['general'] and leaves the list of the
    page as it was. *)
Theorem new_capture_of_the_page_type_is_listed_first
        (env : Captures.environment) (m : Captures.manager) (now : Z)
        (random36 iso img : string) (md : object jsValue) (pg : page) :
  NoDup (keys md) ->
  let c := (Captures.addCapture env m now random36 iso img md).1 in
  let m' := (Captures.addCapture env m now random36 iso img md).2 in
  let typed := Captures.getCapturesByType m "image_processing" in
  recentCaptures (loadRecentCaptures pg m) = take 6 typed
  /\ (get md "analysisType" = Some (VString "image_processing") ->
      get (Captures.metadata c) "analysisType"
      = Some (VString "image_processing")
      /\ recentCaptures (loadRecentCaptures pg m') = c :: take 5 typed)
  /\ (get md "analysisType" = None ->
      get (Captures.metadata c) "analysisType" = Some (VString "general")
      /\ recentCaptures (loadRecentCaptures pg m')
         = recentCaptures (loadRecentCaptures pg m)).
Proof.
  intros Hnd c m' typed.
  assert (Hm : CaptureManager.captures m' = c :: CaptureManager.captures m).
  { subst m' c. unfold Captures.addCapture. cbn [fst snd].
    match goal with
    | |- CaptureManager.captures (CaptureManager.saveCaptures env ?x).2 = _ =>
        by destruct (saveCaptures_keeps env x) as [-> _]
    end. }
  assert (Ht : get (Captures.metadata c) "analysisType"
               = match get md "analysisType" with
                 | Some v => Some v
                 | None => Some (VString "general")
                 end).
  { subst c. unfold Captures.addCapture. cbn [fst Captures.metadata].
    rewrite get_spread by done.
    destruct (get md "analysisType") as [v|] eqn:E; [done|].
    cbn [get String.eqb Ascii.eqb Bool.eqb]. unfold get_or. by rewrite E. }
  unfold loadRecentCaptures. cbn [recentCaptures].
  rewrite !slice0_first by lia.
  change (Z.to_nat 6) with 6%nat.
  split; [done|].
  unfold Captures.getCapturesByType. rewrite Hm. cbn [List.filter].
  split; intros E; rewrite E in Ht; (split; [exact Ht|]).
  - assert (Hc : Captures.has_type "image_processing" c = true)
      by (unfold Captures.has_type; by rewrite Ht).
    by rewrite Hc.
  - assert (Hc : Captures.has_type "image_processing" c = false)
      by (unfold Captures.has_type; by rewrite Ht).
    by rewrite Hc.
Qed.

Lemma new_capture_of_the_page_type_is_listed_first_witness :
  let md := [("analysisType", VString "image_processing")] in
  let m := manager_of (map page_capture ["6"; "5"; "4"; "3"; "2"; "1"]) in
  let c := (Captures.addCapture working_storage m
              1700000000000 "0.4fzyo82mvyr" "2023-11-14T22:13:20.000Z"
              "data:," md).1 in
  let m' := (Captures.addCapture working_storage m
               1700000000000 "0.4fzyo82mvyr" "2023-11-14T22:13:20.000Z"
               "data:," md).2 in
  recentCaptures (loadRecentCaptures initial m)
  = map page_capture ["6"; "5"; "4"; "3"; "2"; "1"]
  /\ recentCaptures (loadRecentCaptures initial m')
     = c :: map page_capture ["6"; "5"; "4"; "3"; "2"].
Proof.
  cbv zeta.
  destruct (new_capture_of_the_page_type_is_listed_first working_storage
              (manager_of (map page_capture ["6"; "5"; "4"; "3"; "2"; "1"]))
              1700000000000 "0.4fzyo82mvyr"
              "2023-11-14T22:13:20.000Z" "data:,"
              [("analysisType", VString "image_processing")] initial)
    as (H0 & H1 & _).
  - apply NoDup_cons. split; [intros Hin; elems|apply NoDup_nil_2].
  - split; [exact H0|]. exact (proj2 (H1 eq_refl)).
Defined.

End PageExamples.

(* ================================================================== *)
(** * The wrapper and the canvas it mounts                             *)
(* ================================================================== *)

Section WrapperAndCanvas.
Import AnnotationSystem.
Local Open Scope string_scope.
Local Open Scope list_scope.

Variable Number_toString : float -> string.

Lemma cloneAll_objects objs : forall s,
  Forall is_Some objs ->
  exists clones,
    C.canvasObjects (cloneAll objs s) = C.canvasObjects s ++ clones
    /\ length clones = length objs.
Proof.
  induction objs as [|o objs IH]; intros s Hobjs; cbn [cloneAll length].
  - exists []. by rewrite app_nil_r.
  - apply Forall_cons in Hobjs as [[obj ->] Hobjs].
    destruct (IH (C.mkCanvas (C.isDrawing s) (C.drawingPoints s)
                    (C.dimensionStart s) (C.dimensionEnd s)
                    (C.currentAnnotation s)
                    (C.canvasObjects s ++ [mkObject (C.nextRef s) (shape obj)])
                    (S (C.nextRef s))) Hobjs) as (clones & -> & Hl).
    cbn [C.canvasObjects]. eexists (_ :: clones).
    split; [by rewrite <- app_assoc|]. cbn [length]. by rewrite Hl.
Qed.

(** The listeners of the canvas that mounts with the wrapper were created
    without a tool and without a current annotation: they return at once on
    every event. *)
Lemma first_canvas_is_idle st s cev :
  C.dispatch Number_toString (C.mounted (C.mkProps None st false)) s cev
  = (JS.Normal tt, s, []).
Proof. by destruct cev. Qed.

Lemma index_elem_of {A} (l : list A) (i : Z) (x : A) :
  JS.index l i = Some x -> x ∈ l.
Proof.
  unfold JS.index. destruct (i <? 0)%Z; [done|].
  apply list_elem_of_lookup_2.
Qed.

Lemma slice0_Forall {A} (P : A -> Prop) (l : list A) (e : Z) :
  Forall P l -> Forall P (JS.slice0 l e).
Proof. intros H. unfold JS.slice0. by apply Forall_take. Qed.

(** While the first canvas is mounted the store stays empty and the canvas
    stays as it was created. *)
Lemma first_canvas_step sys ev sys' :
  ev <> ToggleMinimized ->
  step Number_toString sys ev = Some sys' ->
  canvas sys = canvas initial ->
  W.annotations (wrapper sys) = [] ->
  Forall (fun snapshot => snapshot = []) (W.annotationHistory (wrapper sys)) ->
  canvas sys' = canvas initial
  /\ W.annotations (wrapper sys') = []
  /\ Forall (fun snapshot => snapshot = [])
            (W.annotationHistory (wrapper sys')).
Proof.
  intros Hev Hstep Hc Ha Hh.
  destruct ev; cbn [step] in Hstep; try done.
  - destruct (_ && _); [|done]. by injection Hstep as <-.
  - destruct (_ && _); [|done]. by injection Hstep as <-.
  - by injection Hstep as <-.
  - by injection Hstep as <-.
  - rewrite Hc in Hstep. cbn [initial canvas mbind option_bind] in Hstep.
    cbn [mountCanvas first_props first_wrapper cells] in Hstep.
    rewrite first_canvas_is_idle in Hstep. injection Hstep as <-.
    cbn [rerender with_canvas wrapper canvas staleCallbacks fold_left length
         Nat.eqb negb first_props first_wrapper cells].
    done.
  - destruct (_ && _); [|done]. injection Hstep as <-.
    cbn [rerender wrapper canvas]. rewrite Hc.
    unfold W.handleAnnotationDelete, W.pushHistory.
    cbn [W.annotations W.annotationHistory]. rewrite Ha.
    split; [done|]. split; [done|].
    apply Forall_app. split; [by apply slice0_Forall|by constructor].
  - destruct (isMinimized sys); [done|].
    unfold W.handleUndo in Hstep.
    destruct (0 <? W.historyIndex (wrapper sys))%Z.
    + destruct (JS.index _ _) as [snapshot|] eqn:E; [|done].
      injection Hstep as <-. cbn [rerender wrapper canvas W.annotations
                                  W.annotationHistory].
      apply index_elem_of in E. rewrite Forall_forall in Hh.
      rewrite (Hh _ E), Hc. split; [done|]. split; [done|].
      by rewrite Forall_forall.
    + injection Hstep as <-. cbn [rerender wrapper canvas]. by rewrite Hc.
  - destruct (isMinimized sys); [done|].
    unfold W.handleRedo in Hstep.
    destruct (W.historyIndex (wrapper sys)
              <? Z.of_nat (length (W.annotationHistory (wrapper sys))) - 1)%Z.
    + destruct (JS.index _ _) as [snapshot|] eqn:E; [|done].
      injection Hstep as <-. cbn [rerender wrapper canvas W.annotations
                                  W.annotationHistory].
      apply index_elem_of in E. rewrite Forall_forall in Hh.
      rewrite (Hh _ E), Hc. split; [done|]. split; [done|].
      by rewrite Forall_forall.
    + injection Hstep as <-. cbn [rerender wrapper canvas]. by rewrite Hc.
Qed.

(** X13.  Nothing can be drawn on the canvas that mounts with the wrapper.
    Its listeners are the closures of a render without tool, so they ignore
    every event, whichever tool the toolbar has selected since: as long as the
    wrapper was not minimised and restored, the store is empty and the fabric
    canvas and the state of the canvas component are as they were
    created. *)
Theorem nothing_is_drawn_before_a_remount
        (evs : list event) (sys : system) :
  Forall (fun ev => ev <> ToggleMinimized) evs ->
  run Number_toString initial evs = Some sys ->
  W.annotations (wrapper sys) = [] /\ canvas sys = canvas initial.
Proof.
  intros Hevs Hrun.
  enough (H : forall sys0,
             canvas sys0 = canvas initial ->
             W.annotations (wrapper sys0) = [] ->
             Forall (fun snapshot => snapshot = [])
                    (W.annotationHistory (wrapper sys0)) ->
             run Number_toString sys0 evs = Some sys ->
             W.annotations (wrapper sys) = [] /\ canvas sys = canvas initial).
  { apply (H initial); [done|done|constructor|done]. }
  clear Hrun. induction Hevs as [|ev evs Hev _ IH]; intros sys0 Hc Ha Hh Hrun.
  - cbn in Hrun. by injection Hrun as <-.
  - cbn [run] in Hrun.
    destruct (step Number_toString sys0 ev) as [sys1|] eqn:E; [|done].
    destruct (first_canvas_step sys0 ev sys1 Hev E Hc Ha Hh) as (? & ? & ?).
    by apply (IH sys1).
Qed.

Lemma createLeader_result pr now p c :
  exists l1 l2,
    C.createLeader pr now p c
    = (JS.Normal tt,
       C.mkCanvas (C.isDrawing c) (C.drawingPoints c) (C.dimensionStart c)
         (C.dimensionEnd c)
         (Some (mkAnnotation now "leader" (C.activeTool pr)
                  [Some l1; Some l2] (LeaderData p) (C.styles pr)))
         (C.canvasObjects c ++ [l1; l2]) (S (S (C.nextRef c))),
       [C.EmitAdd (mkAnnotation now "leader" (C.activeTool pr)
                     [Some l1; Some l2] (LeaderData p) (C.styles pr))]).
Proof.
  eexists _, _. unfold C.createLeader. cbn. by rewrite <- app_assoc.
Qed.

(** A click on a canvas that mounted with a leader tool, in a wrapper
    whose store was empty then: the record goes to the [handleAnnotationAdd]
    of that render, which stores it alone. *)
Lemma remounted_leader_click sys pr c now p :
  canvas sys = Some (mkInstance pr (W.mount []) c) ->
  C.is_tool (C.activeTool pr) "leader"
  || C.is_tool (C.activeTool pr) "multileader" = true ->
  C.is_tool (C.activeTool pr) "linear" || C.is_tool (C.activeTool pr) "aligned"
  || C.is_tool (C.activeTool pr) "angular" || C.is_tool (C.activeTool pr) "radius"
  || C.is_tool (C.activeTool pr) "diameter" = false ->
  C.isReadOnly pr = false ->
  exists sys' a c',
    step Number_toString sys (OnCanvas (C.MouseDown now p)) = Some sys'
    /\ wrapper sys' = W.handleAnnotationAdd (W.mount []) a
    /\ ann_id a = now /\ ann_data a = LeaderData p
    /\ canvas sys' = Some (mkInstance pr (W.mount []) c')
    /\ length (C.canvasObjects c') = (length (C.canvasObjects c) + 4)%nat.
Proof.
  intros Hc Htool Hother Hrw. cbn [step]. rewrite Hc.
  cbn [mbind option_bind first_props first_wrapper cells C.dispatch C.mounted
       C.creation_props C.creation_render].
  unfold C.handleCanvasMouseDown. rewrite Hrw.
  assert (Ht : C.truthy (C.activeTool pr) = true).
  { destruct (C.activeTool pr) as [[|]|]; done. }
  rewrite Ht. cbn [negb orb].
  apply orb_false_elim in Hother as [Hother Hd].
  apply orb_false_elim in Hother as [Hother Hr].
  rewrite Hother, Hr, Hd, Htool. cbn [orb].
  destruct (createLeader_result pr now p c) as (l1 & l2 & ->).
  set (a := mkAnnotation now "leader" (C.activeTool pr) [Some l1; Some l2]
                         (LeaderData p) (C.styles pr)).
  cbn [rerender with_canvas wrapper canvas staleCallbacks fold_left callback
       length Nat.eqb negb first_props first_wrapper cells].
  eexists _, a, _. split; [reflexivity|].
  cbn [wrapper canvas].
  split; [reflexivity|]. split; [reflexivity|]. split; [reflexivity|].
  split; [reflexivity|].
  change (W.annotations (W.handleAnnotationAdd (W.mount []) a)) with [a].
  unfold loadExisting. cbn [length Nat.ltb Nat.leb map concat ann_objects a app].
  match goal with
  | |- context [cloneAll ?objs ?s] =>
      destruct (cloneAll_objects objs s) as (clones & -> & Hl)
  end.
  { repeat constructor; done. }
  cbn [C.canvasObjects cells]. rewrite !length_app, Hl. cbn [length]. lia.
Qed.

Lemma system_run_app evs1 evs2 : forall sys,
  run Number_toString sys (evs1 ++ evs2)
  = run Number_toString sys evs1 ≫= fun sys1 => run Number_toString sys1 evs2.
Proof.
  induction evs1 as [|ev evs1 IH]; intros sys; [done|].
  cbn [app run]. destruct (step Number_toString sys ev); [apply IH|done].
Qed.

(** A tool is selected and the wrapper is minimised and restored: a new
    canvas has mounted with the tool. *)
Lemma remount_with tool :
  run Number_toString initial [SelectTool tool; ToggleMinimized; ToggleMinimized]
  = Some (mkSystem (W.mount []) (Some tool) defaultStyles false true false
            (Some (mkInstance (C.mkProps (Some tool) defaultStyles false)
                              (W.mount []) C.initial))
            0).
Proof. reflexivity. Qed.

(** X30.  A canvas that mounts with a leader tool keeps the record of the
    last click only.  The tool is selected and the wrapper is minimised and
    restored; every click then draws a leader, and its record goes to the
    [handleAnnotationAdd] of the render in which the canvas mounted, whose
    store is empty: after any number of clicks the store and the history hold
    the record of the last click alone, while the fabric canvas holds the two
    shapes of every click and the two copies the "Load existing annotations"
    effect made after it. *)
Theorem remounted_canvas_keeps_the_last_leader_only
        (tool : string) (clicks : list (Z * point)) (now : Z) (p : point) :
  tool = "leader" \/ tool = "multileader" ->
  exists sys a,
    run Number_toString initial
        (SelectTool tool :: ToggleMinimized :: ToggleMinimized
         :: clicks_at (clicks ++ [(now, p)]))
    = Some sys
    /\ W.annotations (wrapper sys) = [a]
    /\ W.annotationHistory (wrapper sys) = [[a]]
    /\ ann_id a = now
    /\ ann_data a = LeaderData p
    /\ length (canvasObjects sys) = (4 * (length clicks + 1))%nat.
Proof.
  intros Htool.
  set (pr := C.mkProps (Some tool) defaultStyles false).
  assert (Hl : C.is_tool (C.activeTool pr) "leader"
               || C.is_tool (C.activeTool pr) "multileader" = true)
    by (by destruct Htool as [-> | ->]).
  assert (Ho : C.is_tool (C.activeTool pr) "linear"
               || C.is_tool (C.activeTool pr) "aligned"
               || C.is_tool (C.activeTool pr) "angular"
               || C.is_tool (C.activeTool pr) "radius"
               || C.is_tool (C.activeTool pr) "diameter" = false)
    by (by destruct Htool as [-> | ->]).
  change (SelectTool tool :: ToggleMinimized :: ToggleMinimized
          :: clicks_at (clicks ++ [(now, p)]))
    with ([SelectTool tool; ToggleMinimized; ToggleMinimized]
          ++ clicks_at (clicks ++ [(now, p)])).
  rewrite system_run_app, (remount_with tool). cbn [mbind option_bind].
  fold pr.
  set (sys0 := mkSystem _ _ _ _ _ _ _ _).
  enough (H : forall cs sys1 c1,
             canvas sys1 = Some (mkInstance pr (W.mount []) c1) ->
             exists sys a c,
               run Number_toString sys1 (clicks_at (cs ++ [(now, p)]))
               = Some sys
               /\ wrapper sys = W.handleAnnotationAdd (W.mount []) a
               /\ ann_id a = now /\ ann_data a = LeaderData p
               /\ canvas sys = Some (mkInstance pr (W.mount []) c)
               /\ length (C.canvasObjects c)
                  = (length (C.canvasObjects c1) + 4 * (length cs + 1))%nat).
  { destruct (H clicks sys0 _ eq_refl) as (sys & a & c & E & Hw & Hi & Hd & Hc & Hn).
    exists sys, a. split; [exact E|]. rewrite Hw.
    split; [reflexivity|]. split; [reflexivity|].
    split; [exact Hi|]. split; [exact Hd|].
    unfold canvasObjects. rewrite Hc. cbn [cells]. rewrite Hn. reflexivity. }
  clear sys0. induction cs as [|[t q] cs IH]; intros sys1 c1 Hc1.
  - destruct (remounted_leader_click sys1 pr c1 now p Hc1 Hl Ho eq_refl)
      as (sys & a & c & E & Hw & Hi & Hd & Hc & Hn).
    exists sys, a, c. cbn [app clicks_at map fst snd run].
    rewrite E. cbn [mbind option_bind length].
    repeat split; first [done|lia].
  - destruct (remounted_leader_click sys1 pr c1 t q Hc1 Hl Ho eq_refl)
      as (sys2 & a2 & c2 & E2 & _ & _ & _ & Hc2 & Hn2).
    destruct (IH sys2 c2 Hc2) as (sys & a & c & E & Hw & Hi & Hd & Hc & Hn).
    exists sys, a, c. cbn [app clicks_at map fst snd run].
    rewrite E2. cbn [mbind option_bind].
    split; [exact E|]. repeat split; try done.
    rewrite Hn, Hn2. cbn [length]. lia.
Qed.

End WrapperAndCanvas.

Section WrapperAndCanvasExamples.
Import AnnotationSystem.
Local Open Scope string_scope.
Local Open Scope list_scope.

Lemma nothing_is_drawn_before_a_remount_witness :
  exists sys,
    run plain_toString initial
        (SelectTool "linear" :: map OnCanvas clicks_3_4) = Some sys
    /\ W.annotations (wrapper sys) = []
    /\ canvas sys = canvas initial.
Proof.
  eexists. split; [reflexivity|].
  apply (nothing_is_drawn_before_a_remount plain_toString
           (SelectTool "linear" :: map OnCanvas clicks_3_4)).
  - repeat constructor; discriminate.
  - reflexivity.
Defined.

Lemma remounted_canvas_keeps_the_last_leader_only_witness :
  exists sys a,
    run plain_toString initial
        (SelectTool "leader" :: ToggleMinimized :: ToggleMinimized
         :: clicks_at ([(1000, mkPoint 10 20)] ++ [(2000, mkPoint 30 40)]))
    = Some sys
    /\ W.annotations (wrapper sys) = [a]
    /\ W.annotationHistory (wrapper sys) = [[a]]
    /\ ann_id a = 2000
    /\ ann_data a = LeaderData (mkPoint 30 40)
    /\ length (canvasObjects sys) = (4 * (length [(1000, mkPoint 10 20)] + 1))%nat.
Proof.
  exact (remounted_canvas_keeps_the_last_leader_only plain_toString "leader"
           [(1000, mkPoint 10 20)] 2000 (mkPoint 30 40) (or_introl eq_refl)).
Defined.

End WrapperAndCanvasExamples.
